(** * Cart / order lifecycle of the ShopEase storefront

    A shallow embedding of the server-side cart and order engine
    ([server/models/Product.js], [server/models/Cart.js],
    [server/models/Order.js], [server/routes/cart.js] and the order routes
    that follow it) together with the properties its specification states.

    Modelling conventions.
    - Mongoose documents are records of their schema fields; the database is
      a record of finite maps ([State]).  A stored line of a cart holds the
      id of its product.  [getOrCreateCart] loads the cart with
      [populate('items.product')]: in the loaded cart [item.product] reads
      as the product document, or as [null] when no product has that id.
      [toString()] of a document is the text [util.inspect] prints for it,
      which is no hex id, and [toString()] of [null] throws a TypeError
      ([ProductRef]).
    - [item.variant] of a stored line is a nested object that always has
      its [options] array, and every element of [options] is a subdocument
      with an [_id] of its own; [JSON.stringify] prints all of that
      ([Variant], [JSON_same]).
    - Monetary JavaScript numbers are exact rationals ([Qc]); quantities and
      counters are integers ([Z]): request bodies carry quantities as JSON
      numbers, and the routes' [isInt] validators admit the integers among
      them.  Monetary results are stated by the operations of the code, in
      the order the code applies them.
    - Strings are ASCII; ids are well-formed ObjectIds.  The [protect] and
      [authorize] middlewares have run: a handler gets the user they
      authenticated.
    - [new Date()] is a clock reading [now : Z] (milliseconds) handed to
      every request; where a route reads the clock and then calls a cart
      method that reads it again, the second reading is [elapsed]
      milliseconds later.
    - [doc.save()] validates the document against its schema first, then
      runs the schema's [pre('save')] hooks, then writes: Mongoose registers
      validation as the first pre-save hook.  A rejected save throws and
      leaves the stored document as it was.
    - A route handler is a function from the request and the database to a
      response and the resulting database; its [try { } catch] turns every
      thrown error into the 500 response of that handler. *)

From stdpp Require Import gmap strings list numbers pretty.
From Stdlib Require Import Ascii String QArith Qcanon Qround.

Open Scope Z_scope.

(** ** JavaScript helpers *)

Definition ObjectId := N.

Inductive Exn :=
  | TypeError (msg : string)
  | ValidationError (msg : string)
  | MongoServerError (msg : string).

Inductive Result (A : Type) :=
  | Ok (a : A)
  | Throw (e : Exn).
Arguments Ok {A} a.
Arguments Throw {A} e.

(** A computation that throws skips what follows it. *)
Global Instance Result_ret : MRet Result := λ A a, Ok a.
Global Instance Result_bind : MBind Result := λ A B f r,
  match r with
  | Ok a => f a
  | Throw e => Throw e
  end.
Global Instance Result_fmap : FMap Result := λ A B f r,
  match r with
  | Ok a => Ok (f a)
  | Throw e => Throw e
  end.

Module Js.

Definition upper_ascii (c : ascii) : ascii :=
  let n := nat_of_ascii c in
  if ((97 <=? n)%nat && (n <=? 122)%nat)%bool then ascii_of_nat (n - 32) else c.

(** [s.toUpperCase()] on ASCII text. *)
Fixpoint toUpperCase (s : string) : string :=
  match s with
  | EmptyString => EmptyString
  | String c s' => String (upper_ascii c) (toUpperCase s')
  end.

Definition is_space (c : ascii) : bool :=
  let n := nat_of_ascii c in
  ((9 <=? n)%nat && (n <=? 13)%nat || (n =? 32)%nat)%bool.

Fixpoint trimStart (s : string) : string :=
  match s with
  | EmptyString => EmptyString
  | String c s' => if is_space c then trimStart s' else s
  end.

Fixpoint trimEnd (s : string) : string :=
  match s with
  | EmptyString => EmptyString
  | String c s' =>
      match trimEnd s' with
      | EmptyString => if is_space c then EmptyString else String c EmptyString
      | r => String c r
      end
  end.

(** [s.trim()], also the [trim()] sanitizer of the request validators. *)
Definition trim (s : string) : string := trimEnd (trimStart s).

(** The [notEmpty()] validator. *)
Definition notEmpty (s : string) : bool := negb (bool_decide (s = "")).

(** Truthiness of an optional string: [undefined] and [''] are falsy. *)
Definition truthy (s : option string) : bool :=
  match s with
  | Some s => notEmpty s
  | None => false
  end.

(** [x || 0] on an optional number: [undefined] and [0] are falsy. *)
Definition or_zero (x : option Qc) : Qc :=
  match x with
  | Some d => if bool_decide (d = 0%Qc) then 0%Qc else d
  | None => 0%Qc
  end.

(** [s || d] on an optional string. *)
Definition or_string (s : option string) (d : string) : string :=
  match s with
  | Some s => if notEmpty s then s else d
  | None => d
  end.

(** [arr.findIndex(f)] (and the index of the element [arr.find(f)]
    yields) for a callback that may throw; [None] stands for [-1].  The
    callback runs on the elements in order, up to the first it accepts. *)
Fixpoint findIndex {A} (f : A → Result bool) (l : list A)
    : Result (option nat) :=
  match l with
  | [] => Ok None
  | x :: l' =>
      b ← f x;
      if b : bool then Ok (Some 0%nat)
      else i ← findIndex f l'; Ok (fmap (M:=option) S i)
  end.

(** The index of the first element a total predicate accepts. *)
Fixpoint first_index {A} (g : A → bool) (l : list A) : option nat :=
  match l with
  | [] => None
  | x :: l' => if g x then Some 0%nat else S <$> first_index g l'
  end.

(** [arr.filter(f)] for a callback that may throw: it runs on every
    element, in order. *)
Fixpoint filter {A} (f : A → Result bool) (l : list A) : Result (list A) :=
  match l with
  | [] => Ok []
  | x :: l' =>
      b ← f x;
      l'' ← filter f l';
      Ok (if b : bool then x :: l'' else l'')
  end.

(** [s.padStart(n, '0')]. *)
Definition padStart0 (n : nat) (s : string) : string :=
  String.concat "" (replicate (n - String.length s) "0") +:+ s.

(** [p.populate(path)] where [p] is the Promise returned by an [async]
    function: Promise objects have no [populate] member, so the member
    call throws before anything is awaited. *)
Definition Promise_populate {A} (p : A) (path : string) : Result A :=
  Throw (TypeError "populate is not a function").

End Js.

(** ** HTTP responses: [res.status(c).json({ success, message })] *)

Record Response := mkResponse {
  res_status : Z;
  res_success : bool;
  res_message : string
}.

Definition ok (msg : string) : Response := mkResponse 200 true msg.
Definition created (msg : string) : Response := mkResponse 201 true msg.
Definition bad_request (msg : string) : Response := mkResponse 400 false msg.
Definition forbidden (msg : string) : Response := mkResponse 403 false msg.
Definition not_found (msg : string) : Response := mkResponse 404 false msg.
Definition server_error (msg : string) : Response := mkResponse 500 false msg.

(** The error kinds of the specification, as the responses that signal them. *)
Definition ValidationFailed : Response := bad_request "Validation failed".
Definition EmptyCart : Response := bad_request "Cart is empty".
Definition InvalidCoupon : Response := bad_request "Invalid coupon code".
Definition InvalidTransition : Response :=
  bad_request "Order cannot be cancelled at this stage".
Definition NotAuthorized : Response :=
  forbidden "Not authorized to cancel this order".

Global Instance Response_eq_dec : EqDecision Response.
Proof. solve_decision. Defined.

(** ** Variants (shared by cart lines and order lines) *)

(** An element of [variant.options] as it is stored: a subdocument, with
    the [_id] Mongoose gave it. *)
Record VariantOption := mkOption {
  option_id : ObjectId;
  option_name : string;
  option_value : string
}.

Global Instance VariantOption_eq_dec : EqDecision VariantOption.
Proof. solve_decision. Defined.

(** [item.variant] of a stored line.  The nested path always reads as an
    object with its [options] array: a line added without a variant holds
    [{ options: [] }]. *)
Record Variant := mkVariant {
  variant_name : option string;
  variant_options : list VariantOption
}.

Global Instance Variant_eq_dec : EqDecision Variant.
Proof. solve_decision. Defined.

(** [req.body.variant] when the request gives one: an object with the
    fields of the schema, [name] before [options], the options without an
    [_id]. *)
Record RequestVariant := mkRequestVariant {
  request_name : option string;
  request_options : option (list (string * string))
}.

Global Instance RequestVariant_eq_dec : EqDecision RequestVariant.
Proof. solve_decision. Defined.

(** The variant a pushed line stores for the variant of a request:
    [ids k] is the [_id] Mongoose gives the [k]-th option. *)
Definition Variant_cast (ids : nat → ObjectId) (v : option RequestVariant)
    : Variant :=
  match v with
  | None => mkVariant None []
  | Some v =>
      mkVariant (request_name v)
        (imap (fun k o => mkOption (ids k) o.1 o.2)
              (default [] (request_options v)))
  end.

(** The second argument of the cart methods: the variant of a request,
    or the variant a stored line holds. *)
Inductive VariantArg :=
  | Requested (v : option RequestVariant)
  | Held (v : Variant).

(** [JSON.stringify(item.variant) === JSON.stringify(variant)] for the
    variant [stored] of a line.  The texts of two stored variants agree
    when the variants do, option ids included.  [JSON.stringify(undefined)]
    is [undefined], no text.  The text of a stored variant names
    [options], with an [_id] in every option, and that of a request has no
    [_id]: they agree only when both have an empty [options]. *)
Definition JSON_same (stored : Variant) (variant : VariantArg) : bool :=
  match variant with
  | Held v => bool_decide (stored = v)
  | Requested None => false
  | Requested (Some v) =>
      bool_decide (variant_name stored = request_name v)
      && bool_decide (variant_options stored = [])
      && bool_decide (request_options v = Some [])
  end.

(** ** Product references *)

(** What the cart methods get as [productId] and read as [item.product]:
    an id (the hex string of a request, an ObjectId), the product
    document [populate] has put in place of the id, or [null] where
    [populate] found no product. *)
Inductive ProductRef :=
  | ById (id : ObjectId)
  | Populated (id : ObjectId)
  | Null.

(** The text [toString()] gives: the 24 hex digits of an id, or what
    [util.inspect] prints for the product document with that [_id] (two
    copies of one stored product print alike, and the text shows the
    [_id]). *)
Inductive RefText :=
  | hex (id : ObjectId)
  | inspected (id : ObjectId).

Global Instance RefText_eq_dec : EqDecision RefText.
Proof. solve_decision. Defined.

Definition toString (r : ProductRef) : Result RefText :=
  match r with
  | ById id => Ok (hex id)
  | Populated id => Ok (inspected id)
  | Null => Throw (TypeError "Cannot read properties of null (reading 'toString')")
  end.

(** ** server/models/Product.js *)

Module Product.

Inductive Status := draft | active | inactive | archived.

Global Instance Status_eq_dec : EqDecision Status.
Proof. solve_decision. Defined.

Record t := mk {
  name : string;
  price : Qc;
  trackInventory : bool;      (* inventory.trackInventory *)
  quantity : Z;               (* inventory.quantity *)
  allowBackorder : bool;      (* inventory.allowBackorder *)
  status : Status;
  totalSold : Z;              (* sales.totalSold *)
  totalRevenue : Qc           (* sales.totalRevenue *)
}.

(** [productSchema.methods.isInStock] *)
Definition isInStock (quantity : Z) (this : t) : bool :=
  if negb (trackInventory this) then true
  else if bool_decide (Product.quantity this >= quantity) then true
  else if allowBackorder this then true
  else false.

(** [productSchema.methods.updateInventory]; no route calls it. *)
Definition updateInventory (quantity : Z) (operation : string) (this : t) : t :=
  if negb (trackInventory this) then this
  else if bool_decide (operation = "subtract")
  then mk (name this) (price this) (trackInventory this)
          (Z.max 0 (Product.quantity this - quantity)) (allowBackorder this)
          (status this) (totalSold this + quantity)
          (totalRevenue this + price this * Qc_of_Z quantity)%Qc
  else if bool_decide (operation = "add")
  then mk (name this) (price this) (trackInventory this)
          (Product.quantity this + quantity) (allowBackorder this)
          (status this) (totalSold this) (totalRevenue this)
  else this.

(** The update operator
    [{ $inc: { 'inventory.quantity': dq, 'sales.totalSold': ds,
               'sales.totalRevenue': dr } }]. *)
Definition inc (dq ds : Z) (dr : Qc) (this : t) : t :=
  mk (name this) (price this) (trackInventory this)
     (quantity this + dq) (allowBackorder this) (status this)
     (totalSold this + ds) (totalRevenue this + dr)%Qc.

End Product.

(** ** server/models/Cart.js *)

Module Cart.

Module Item.
Record t := mk {
  _id : ObjectId;
  product : ObjectId;
  variant : Variant;
  quantity : Z;
  price : Qc;
  addedAt : Z
}.

Global Instance eq_dec : EqDecision t.
Proof. solve_decision. Defined.

(** Schema validators of a line: [quantity] within [1, 100], [price]
    not negative. *)
Definition validate (this : t) : bool :=
  bool_decide (1 <= quantity this) && bool_decide (quantity this <= 100)
  && bool_decide (0 <= price this)%Qc.

(** The (product, variant) pair of a line. *)
Definition key (this : t) : ObjectId * Variant :=
  (product this, variant this).
End Item.

Module Coupon.
Inductive Kind := percentage | fixed.

Global Instance Kind_eq_dec : EqDecision Kind.
Proof. solve_decision. Defined.

Record t := mk {
  code : option string;
  discount : option Qc;
  type : option Kind;
  appliedAt : option Z;
  expiresAt : option Z
}.

(** [{}] assigned to the nested path. *)
Definition empty : t := mk None None None None None.

(** The schema defaults of a fresh cart: [discount: 0], [type: 'fixed']. *)
Definition default : t := mk None (Some 0%Qc) (Some fixed) None None.
End Coupon.

Record t := mk {
  user : ObjectId;
  items : list Item.t;
  coupon : Coupon.t;
  shippingMethod : string;
  shippingCost : Qc;
  tax_amount : Qc;            (* tax.amount *)
  tax_rate : Qc;              (* tax.rate *)
  expiresAt : Z
}.

Definition set_items (l : list Item.t) (this : t) : t :=
  mk (user this) l (coupon this) (shippingMethod this) (shippingCost this)
     (tax_amount this) (tax_rate this) (expiresAt this).

Definition set_coupon (c : Coupon.t) (this : t) : t :=
  mk (user this) (items this) c (shippingMethod this) (shippingCost this)
     (tax_amount this) (tax_rate this) (expiresAt this).

(** [new Cart({ user })] with the schema defaults; the cart expires 30
    days after its creation. *)
Definition new (userId : ObjectId) (now : Z) : t :=
  mk userId [] Coupon.default "standard" 0%Qc 0%Qc 0%Qc
     (now + 30 * 24 * 60 * 60 * 1000).

(** Schema validation of the whole cart document. *)
Definition validate (this : t) : bool := forallb Item.validate (items this).

(** [cartSchema.virtual('subtotal')] *)
Definition subtotal (this : t) : Qc :=
  fold_left
    (fun sum item => (sum + Item.price item * Qc_of_Z (Item.quantity item))%Qc)
    (items this) 0%Qc.

(** [cartSchema.virtual('total')] *)
Definition total (this : t) : Qc :=
  let subtotal := subtotal this in
  let discount := Js.or_zero (Coupon.discount (coupon this)) in
  let discountAmount :=
    if bool_decide (Coupon.type (coupon this) = Some Coupon.percentage)
    then ((subtotal * discount) / Qc_of_Z 100)%Qc
    else discount in
  (subtotal + shippingCost this + tax_amount this - discountAmount)%Qc.

(** [cartSchema.virtual('itemCount')] *)
Definition itemCount (this : t) : Z :=
  fold_left (fun sum item => sum + Item.quantity item) (items this) 0.

(** [item.product] of a line of a cart that [getOrCreateCart] has
    loaded; [ps] is the products collection [populate] read. *)
Definition product_of (ps : gmap ObjectId Product.t) (item : Item.t)
    : ProductRef :=
  match ps !! Item.product item with
  | Some _ => Populated (Item.product item)
  | None => Null
  end.

(** The predicate the three line-addressing methods share:
    [item.product.toString() === productId.toString() &&
     JSON.stringify(item.variant) === JSON.stringify(variant)]. *)
Definition same_line (ps : gmap ObjectId Product.t) (productId : ProductRef)
    (variant : VariantArg) (item : Item.t) : Result bool :=
  a ← toString (product_of ps item);
  b ← toString productId;
  Ok (bool_decide (a = b) && JSON_same (Item.variant item) variant).

(** [quantity += q; addedAt = new Date()] on a line. *)
Definition merge_into (q : Z) (now : Z) (item : Item.t) : Item.t :=
  Item.mk (Item._id item) (Item.product item) (Item.variant item)
          (Item.quantity item + q) (Item.price item) now.

(** [item.quantity = q] on a line. *)
Definition set_quantity (q : Z) (item : Item.t) : Item.t :=
  Item.mk (Item._id item) (Item.product item) (Item.variant item)
          q (Item.price item) (Item.addedAt item).

(** [cartSchema.methods.addItem], up to its final [this.save()], for the
    product id and the variant of a request.  [fresh] is the [_id]
    Mongoose gives the pushed line, [fresh_option k] the one it gives the
    [k]-th option of its variant. *)
Definition addItem (ps : gmap ObjectId Product.t) (productId : ObjectId)
    (variant : option RequestVariant) (quantity : Z) (price : Qc) (now : Z)
    (fresh : ObjectId) (fresh_option : nat → ObjectId) (this : t) : Result t :=
  existingItemIndex ←
    Js.findIndex (same_line ps (ById productId) (Requested variant)) (items this);
  match existingItemIndex with
  | Some existingItemIndex =>
      Ok (set_items
            (alter (merge_into quantity now) existingItemIndex (items this)) this)
  | None =>
      Ok (set_items
            (items this
             ++ [Item.mk fresh productId (Variant_cast fresh_option variant)
                   quantity price now]) this)
  end.

(** [cartSchema.methods.updateItemQuantity], up to its final
    [this.save()].  [find] yields the first matching line, which the
    assignment then mutates in place: the line at the index [findIndex]
    yields. *)
Definition updateItemQuantity (ps : gmap ObjectId Product.t)
    (productId : ProductRef) (variant : VariantArg) (quantity : Z) (this : t)
    : Result t :=
  item ← Js.findIndex (same_line ps productId variant) (items this);
  match item with
  | Some i =>
      if bool_decide (quantity <= 0)
      then
        kept ← Js.filter (fun item => negb <$> same_line ps productId variant item)
                         (items this);
        Ok (set_items kept this)
      else Ok (set_items (alter (set_quantity quantity) i (items this)) this)
  | None => Ok this
  end.

(** [cartSchema.methods.removeItem], up to its final [this.save()]. *)
Definition removeItem (ps : gmap ObjectId Product.t) (productId : ProductRef)
    (variant : VariantArg) (this : t) : Result t :=
  kept ← Js.filter (fun item => negb <$> same_line ps productId variant item)
                   (items this);
  Ok (set_items kept this).

(** [cartSchema.methods.clear], up to its final [this.save()]. *)
Definition clear (this : t) : t := set_coupon Coupon.empty (set_items [] this).

(** [cartSchema.methods.applyCoupon], up to its final [this.save()]. *)
Definition applyCoupon (couponCode : string) (discount : Qc)
    (type : Coupon.Kind) (expiresAt : Z) (now : Z) (this : t) : t :=
  set_coupon
    (Coupon.mk (Some couponCode) (Some discount) (Some type) (Some now)
               (Some expiresAt)) this.

(** [cartSchema.methods.removeCoupon], up to its final [this.save()]. *)
Definition removeCoupon (this : t) : t := set_coupon Coupon.empty this.

(** [cart.items.id(itemId)]: the first line with that [_id]. *)
Definition items_id (itemId : ObjectId) (this : t) : option Item.t :=
  List.find (fun item => bool_decide (Item._id item = itemId)) (items this).

End Cart.

(** ** server/models/Order.js *)

Module Order.

Inductive Status :=
  pending | confirmed | processing | shipped | delivered | cancelled | refunded.

Global Instance Status_eq_dec : EqDecision Status.
Proof. solve_decision. Defined.

Definition Status_to_string (s : Status) : string :=
  match s with
  | pending => "pending"
  | confirmed => "confirmed"
  | processing => "processing"
  | shipped => "shipped"
  | delivered => "delivered"
  | cancelled => "cancelled"
  | refunded => "refunded"
  end.

(** The [enum] of the [status] path, also the [isIn] list of the
    status route. *)
Definition Status_of_string (s : string) : option Status :=
  List.find (fun st => bool_decide (Status_to_string st = s))
    [pending; confirmed; processing; shipped; delivered; cancelled; refunded].

Module Item.
Record t := mk {
  product : ObjectId;
  variant : Variant;
  quantity : Z;
  price : Qc;
  total : Qc
}.

Definition validate (this : t) : bool :=
  bool_decide (1 <= quantity this) && bool_decide (0 <= price this)%Qc
  && bool_decide (0 <= total this)%Qc.
End Item.

(** One element of [timeline]. *)
Module Entry.
Record t := mk {
  status : Status;
  timestamp : Z;
  note : string;
  updatedBy : option ObjectId
}.

Global Instance eq_dec : EqDecision t.
Proof. solve_decision. Defined.
End Entry.

Module Address.
Record t := mk {
  firstName : string;
  lastName : string;
  street : string;
  city : string;
  state : string;
  zipCode : string
}.

(** Every modelled field is [required: true]. *)
Definition validate (this : t) : bool :=
  Js.notEmpty (firstName this) && Js.notEmpty (lastName this)
  && Js.notEmpty (street this) && Js.notEmpty (city this)
  && Js.notEmpty (state this) && Js.notEmpty (zipCode this).

(** The [trim()] sanitizers of the checkout route. *)
Definition trim (this : t) : t :=
  mk (Js.trim (firstName this)) (Js.trim (lastName this))
     (Js.trim (street this)) (Js.trim (city this))
     (Js.trim (state this)) (Js.trim (zipCode this)).
End Address.

Record t := mk {
  _id : ObjectId;
  orderNumber : option string;
  customer : ObjectId;
  items : list Item.t;
  subtotal : Qc;
  tax_amount : Qc;                      (* tax.amount *)
  tax_rate : Qc;                        (* tax.rate *)
  shipping_method : string;             (* shipping.method *)
  shipping_cost : Qc;                   (* shipping.cost *)
  shipping_address : Address.t;         (* shipping.address *)
  billing_address : Address.t;          (* billing.address *)
  payment_method : string;              (* payment.method *)
  payment_status : string;              (* payment.status *)
  payment_amount : Qc;                  (* payment.amount *)
  discount_code : option string;        (* discount.code *)
  discount_amount : Qc;                 (* discount.amount *)
  discount_type : Cart.Coupon.Kind;     (* discount.type *)
  total : Qc;
  status : Status;
  timeline : list Entry.t
}.

Definition payment_methods : list string :=
  ["credit_card"; "debit_card"; "paypal"; "apple_pay"; "google_pay";
   "bank_transfer"; "cash_on_delivery"].

Definition payment_statuses : list string :=
  ["pending"; "processing"; "completed"; "failed"; "refunded";
   "partially_refunded"].

(** Schema validation of the whole order document. *)
Definition validate (this : t) : bool :=
  Js.truthy (orderNumber this)
  && forallb Item.validate (items this)
  && bool_decide (0 <= subtotal this)%Qc
  && bool_decide (0 <= tax_amount this)%Qc
  && bool_decide (0 <= tax_rate this)%Qc
  && Js.notEmpty (shipping_method this)
  && bool_decide (0 <= shipping_cost this)%Qc
  && Address.validate (shipping_address this)
  && Address.validate (billing_address this)
  && bool_decide (payment_method this ∈ payment_methods)
  && bool_decide (payment_status this ∈ payment_statuses)
  && bool_decide (0 <= total this)%Qc.

Definition set_orderNumber (n : option string) (this : t) : t :=
  mk (_id this) n (customer this) (items this) (subtotal this)
     (tax_amount this) (tax_rate this) (shipping_method this)
     (shipping_cost this) (shipping_address this) (billing_address this)
     (payment_method this) (payment_status this) (payment_amount this)
     (discount_code this) (discount_amount this) (discount_type this)
     (total this) (status this) (timeline this).

Definition set_status (s : Status) (this : t) : t :=
  mk (_id this) (orderNumber this) (customer this) (items this) (subtotal this)
     (tax_amount this) (tax_rate this) (shipping_method this)
     (shipping_cost this) (shipping_address this) (billing_address this)
     (payment_method this) (payment_status this) (payment_amount this)
     (discount_code this) (discount_amount this) (discount_type this)
     (total this) s (timeline this).

(** [this.timeline.push(e)] *)
Definition timeline_push (e : Entry.t) (this : t) : t :=
  mk (_id this) (orderNumber this) (customer this) (items this) (subtotal this)
     (tax_amount this) (tax_rate this) (shipping_method this)
     (shipping_cost this) (shipping_address this) (billing_address this)
     (payment_method this) (payment_status this) (payment_amount this)
     (discount_code this) (discount_amount this) (discount_type this)
     (total this) (status this) (timeline this ++ [e]).

(** A document in memory: its fields, whether it was never saved, and
    whether [status] was assigned a value other than the one it had
    ([isModified('status')]). *)
Record Doc := mkDoc {
  fields : t;
  isNew : bool;
  status_modified : bool
}.

(** A document as [findById] returns it. *)
Definition loaded (o : t) : Doc := mkDoc o false false.

(** [orderSchema.methods.updateStatus]; a call without [note] passes
    [None], which takes the default [''], and [updatedBy] defaults to
    [null]. *)
Definition updateStatus (newStatus : Status) (note : option string)
    (updatedBy : option ObjectId) (now : Z) (this : Doc) : Doc :=
  let modified :=
    status_modified this || negb (bool_decide (status (fields this) = newStatus)) in
  let note := match note with Some n => n | None => "" end in
  mkDoc
    (timeline_push (Entry.mk newStatus now note updatedBy)
                   (set_status newStatus (fields this)))
    (isNew this) modified.

(** [orderSchema.pre('save')]; [count] is [countDocuments()]. *)
Definition pre_save (count : N) (now : Z) (this : Doc) : Doc :=
  let this1 :=
    if isNew this && negb (Js.truthy (orderNumber (fields this)))
    then mkDoc
           (set_orderNumber
              (Some ("ORD-" +:+ Js.padStart0 6 (pretty (count + 1)%N)))
              (fields this))
           (isNew this) (status_modified this)
    else this in
  if status_modified this1 && negb (isNew this1)
  then mkDoc
         (timeline_push
            (Entry.mk (status (fields this1)) now
               ("Status changed to " +:+ Status_to_string (status (fields this1)))
               None)
            (fields this1))
         (isNew this1) (status_modified this1)
  else this1.

End Order.

(** ** The database and the persistence operations of the models *)

Record State := mkState {
  products : gmap ObjectId Product.t;
  carts : gmap ObjectId Cart.t;     (* by [user]: the path is [unique] *)
  orders : gmap ObjectId Order.t
}.

(** What a request reads from outside the database: the clock, the
    ObjectId the driver generates for a new document or line, the ones it
    generates for the options of the variant of a new line, and the time
    that passes between two readings of the clock in one request. *)
Record Env := mkEnv {
  now : Z;
  fresh : ObjectId;
  fresh_option : nat → ObjectId;
  elapsed : N
}.

Module Db.

Definition set_products (m : gmap ObjectId Product.t) (st : State) : State :=
  mkState m (carts st) (orders st).

Definition set_carts (m : gmap ObjectId Cart.t) (st : State) : State :=
  mkState (products st) m (orders st).

Definition set_orders (m : gmap ObjectId Order.t) (st : State) : State :=
  mkState (products st) (carts st) m.

(** [cart.save()]: validate, then write. *)
Definition save_cart (cart : Cart.t) (st : State) : Result State :=
  if Cart.validate cart
  then Ok (set_carts (<[Cart.user cart := cart]> (carts st)) st)
  else Throw (ValidationError "Cart validation failed").

(** [cartSchema.statics.getOrCreateCart]; a cart without lines passes
    validation, so the save of the new cart always writes. *)
Definition getOrCreateCart (userId : ObjectId) (now : Z) (st : State)
    : Cart.t * State :=
  match carts st !! userId with
  | Some cart => (cart, st)
  | None =>
      let cart := Cart.new userId now in
      (cart, set_carts (<[userId := cart]> (carts st)) st)
  end.

(** [Product.findByIdAndUpdate(id, { $inc: ... })]: no validators run,
    and an unknown id updates nothing. *)
Definition Product_inc (id : ObjectId) (dq ds : Z) (dr : Qc) (st : State)
    : State :=
  set_products (alter (Product.inc dq ds dr) id (products st)) st.

(** The [unique] index on [orderNumber]: is the number held by another
    stored order? *)
Definition orderNumber_taken (order : Order.t) (st : State) : bool :=
  existsb
    (fun kv =>
       negb (bool_decide (kv.1 = Order._id order))
       && bool_decide (Order.orderNumber kv.2 = Order.orderNumber order))
    (map_to_list (orders st)).

(** [order.save()]: validate, run the pre-save hook, write.  The insert
    of a new document fails on a duplicate order number; the update of a
    stored one writes its modified paths, [status] and [timeline]. *)
Definition save_order (doc : Order.Doc) (now : Z) (st : State)
    : Result (Order.t * State) :=
  if Order.validate (Order.fields doc)
  then
    let doc' := Order.pre_save (N.of_nat (size (orders st))) now doc in
    let order := Order.fields doc' in
    if Order.isNew doc' && orderNumber_taken order st
    then Throw (MongoServerError "E11000 duplicate key error")
    else Ok (order, set_orders (<[Order._id order := order]> (orders st)) st)
  else Throw (ValidationError "Order validation failed").

(** [Order.create(orderData)]: a new document, saved.  The [_id] of
    [orderData] is the ObjectId the constructor assigns. *)
Definition Order_create (orderData : Order.t) (now : Z) (st : State)
    : Result (Order.t * State) :=
  save_order (Order.mkDoc orderData true true) now st.

(** The inventory loop of checkout: one [$inc] per cart line. *)
Definition reserve (items : list Cart.Item.t) (st : State) : State :=
  fold_left
    (fun st item =>
       Product_inc (Cart.Item.product item)
         (- Cart.Item.quantity item) (Cart.Item.quantity item)
         (Cart.Item.price item * Qc_of_Z (Cart.Item.quantity item))%Qc st)
    items st.

(** The restore loop of cancellation: one [$inc] per order line. *)
Definition release (items : list Order.Item.t) (st : State) : State :=
  fold_left
    (fun st item =>
       Product_inc (Order.Item.product item)
         (Order.Item.quantity item) (- Order.Item.quantity item)
         (- (Order.Item.price item * Qc_of_Z (Order.Item.quantity item)))%Qc st)
    items st.

End Db.

(** ** server/routes/cart.js: the cart routes *)

Module CartRoutes.

(** The hardcoded coupon table of [POST /api/cart/coupon]. *)
Record Rule := mkRule {
  discount : Qc;
  type : Cart.Coupon.Kind
}.

Definition validCoupons (key : string) : option Rule :=
  if bool_decide (key = "WELCOME10") then Some (mkRule (Qc_of_Z 10) Cart.Coupon.percentage)
  else if bool_decide (key = "SAVE20") then Some (mkRule (Qc_of_Z 20) Cart.Coupon.fixed)
  else if bool_decide (key = "FREESHIP") then Some (mkRule (Qc_of_Z 0) Cart.Coupon.fixed)
  else None.

(** The tail every mutating cart route shares: the awaited model method
    ends in [this.save()]; a rejected save lands in [catch]. *)
Definition respond (saved : Result State) (success failure : string)
    (st : State) : Response * State :=
  match saved with
  | Ok st' => (ok success, st')
  | Throw _ => (server_error failure, st)
  end.

(** [GET /api/cart] *)
Definition get (userId : ObjectId) (env : Env) (st : State) : Response * State :=
  let '(cart, st1) := Db.getOrCreateCart userId (now env) st in
  (ok "", st1).

(** [POST /api/cart/items] *)
Definition post_items (userId productId : ObjectId) (quantity : Z)
    (variant : option RequestVariant) (env : Env) (st : State)
    : Response * State :=
  if negb (bool_decide (1 <= quantity)) then (ValidationFailed, st)
  else
    match products st !! productId with
    | None => (not_found "Product not found", st)
    | Some product =>
        if negb (bool_decide (Product.status product = Product.active))
        then (bad_request "Product is not available", st)
        else if negb (Product.isInStock quantity product)
        then (bad_request "Product is out of stock", st)
        else
          let '(cart, st1) := Db.getOrCreateCart userId (now env) st in
          respond
            (cart' ← Cart.addItem (products st1) productId variant quantity
                       (Product.price product) (now env) (fresh env)
                       (fresh_option env) cart;
             Db.save_cart cart' st1)
            "Item added to cart successfully"
            "Server error adding item to cart" st1
    end.

(** [PUT /api/cart/items/:itemId].  [Product.findById(item.product)] is
    asked for a populated document, which casts to its [_id], or for
    [null], which finds nothing. *)
Definition put_item (userId itemId : ObjectId) (quantity : Z)
    (env : Env) (st : State) : Response * State :=
  if negb (bool_decide (0 <= quantity)) then (ValidationFailed, st)
  else
    let '(cart, st1) := Db.getOrCreateCart userId (now env) st in
    match Cart.items_id itemId cart with
    | None => (not_found "Cart item not found", st1)
    | Some item =>
        let update :=
          respond
            (cart' ← Cart.updateItemQuantity (products st1)
                       (Cart.product_of (products st1) item)
                       (Held (Cart.Item.variant item)) quantity cart;
             Db.save_cart cart' st1)
            "Cart item updated successfully"
            "Server error updating cart item" st1 in
        if bool_decide (quantity > 0)
        then
          match products st1 !! Cart.Item.product item with
          | None =>
              (* [product] is [null]: [product.isInStock] throws *)
              (server_error "Server error updating cart item", st1)
          | Some product =>
              if negb (Product.isInStock quantity product)
              then (bad_request "Not enough inventory available", st1)
              else update
          end
        else update
    end.

(** [DELETE /api/cart/items/:itemId] *)
Definition delete_item (userId itemId : ObjectId) (env : Env) (st : State)
    : Response * State :=
  let '(cart, st1) := Db.getOrCreateCart userId (now env) st in
  match Cart.items_id itemId cart with
  | None => (not_found "Cart item not found", st1)
  | Some item =>
      respond
        (cart' ← Cart.removeItem (products st1)
                   (Cart.product_of (products st1) item)
                   (Held (Cart.Item.variant item)) cart;
         Db.save_cart cart' st1)
        "Item removed from cart successfully"
        "Server error removing cart item" st1
  end.

(** [DELETE /api/cart] *)
Definition delete (userId : ObjectId) (env : Env) (st : State)
    : Response * State :=
  let '(cart, st1) := Db.getOrCreateCart userId (now env) st in
  respond (Db.save_cart (Cart.clear cart) st1)
    "Cart cleared successfully" "Server error clearing cart" st1.

(** [POST /api/cart/coupon]; the validator chain trims [code] in the
    request before the handler reads it.  The route reads the clock for
    the expiry it passes ([Date.now()]), [applyCoupon] reads it again for
    [appliedAt] ([new Date()]). *)
Definition post_coupon (userId : ObjectId) (code : string) (env : Env)
    (st : State) : Response * State :=
  let code := Js.trim code in
  if negb (Js.notEmpty code) then (ValidationFailed, st)
  else
    match validCoupons (Js.toUpperCase code) with
    | None => (InvalidCoupon, st)
    | Some coupon =>
        let '(cart, st1) := Db.getOrCreateCart userId (now env) st in
        if bool_decide (List.length (Cart.items cart) = 0%nat)
        then (EmptyCart, st1)
        else
          respond
            (Db.save_cart
               (Cart.applyCoupon (Js.toUpperCase code) (discount coupon)
                  (type coupon) (now env + 24 * 60 * 60 * 1000)
                  (now env + Z.of_N (elapsed env)) cart)
               st1)
            "Coupon applied successfully" "Server error applying coupon" st1
    end.

(** [DELETE /api/cart/coupon] *)
Definition delete_coupon (userId : ObjectId) (env : Env) (st : State)
    : Response * State :=
  let '(cart, st1) := Db.getOrCreateCart userId (now env) st in
  respond (Db.save_cart (Cart.removeCoupon cart) st1)
    "Coupon removed successfully" "Server error removing coupon" st1.

End CartRoutes.

(** ** server/routes/cart.js, second part: the order routes *)

Module OrderRoutes.

(** The validated part of the checkout request body. *)
Record CheckoutBody := mkBody {
  shipping_address : Order.Address.t;
  shipping_method : string;
  payment_method : string;
  billing_address : Order.Address.t
}.

(** The [trim()] sanitizers of the validator chain. *)
Definition sanitize (body : CheckoutBody) : CheckoutBody :=
  mkBody (Order.Address.trim (shipping_address body))
         (Js.trim (shipping_method body))
         (Js.trim (payment_method body))
         (Order.Address.trim (billing_address body)).

(** [validationResult(req).isEmpty()] on the sanitized body. *)
Definition body_valid (body : CheckoutBody) : bool :=
  Order.Address.validate (shipping_address body)
  && Js.notEmpty (shipping_method body)
  && Js.notEmpty (payment_method body)
  && Order.Address.validate (billing_address body).

(** The availability loop: the response of the first line that fails. *)
Fixpoint check_items (ps : gmap ObjectId Product.t) (items : list Cart.Item.t)
    : option Response :=
  match items with
  | [] => None
  | cartItem :: rest =>
      match ps !! Cart.Item.product cartItem with
      | None => Some (bad_request "Product Unknown is no longer available")
      | Some product =>
          if negb (bool_decide (Product.status product = Product.active))
          then Some (bad_request
                       ("Product "
                        +:+ Js.or_string (Some (Product.name product)) "Unknown"
                        +:+ " is no longer available"))
          else if negb (Product.isInStock (Cart.Item.quantity cartItem) product)
          then Some (bad_request
                       ("Not enough inventory for " +:+ Product.name product))
          else check_items ps rest
      end
  end.

(** [orderItems]: the snapshot of one cart line. *)
Definition orderItem (item : Cart.Item.t) : Order.Item.t :=
  Order.Item.mk (Cart.Item.product item) (Cart.Item.variant item)
    (Cart.Item.quantity item) (Cart.Item.price item)
    (Cart.Item.price item * Qc_of_Z (Cart.Item.quantity item))%Qc.

(** [orderData]: no [orderNumber] and no [timeline] are given, so the
    document starts with neither. *)
Definition orderData (userId : ObjectId) (body : CheckoutBody)
    (cart : Cart.t) (id : ObjectId) : Order.t :=
  let subtotal := Cart.subtotal cart in
  let taxAmount := Cart.tax_amount cart in
  let shippingCost := Cart.shippingCost cart in
  let coupon := Cart.coupon cart in
  let discountAmount :=
    if Js.truthy (Cart.Coupon.code coupon)
    then
      if bool_decide (Cart.Coupon.type coupon = Some Cart.Coupon.percentage)
      then ((subtotal * default 0%Qc (Cart.Coupon.discount coupon)) / Qc_of_Z 100)%Qc
      else default 0%Qc (Cart.Coupon.discount coupon)
    else 0%Qc in
  let total := (subtotal + taxAmount + shippingCost - discountAmount)%Qc in
  Order.mk id None userId (map orderItem (Cart.items cart)) subtotal
    taxAmount (Cart.tax_rate cart)
    (shipping_method body) shippingCost (shipping_address body)
    (billing_address body)
    (payment_method body) "pending" total
    (if Js.truthy (Cart.Coupon.code coupon) then Cart.Coupon.code coupon else None)
    (if Js.truthy (Cart.Coupon.code coupon) then discountAmount else 0%Qc)
    (if Js.truthy (Cart.Coupon.code coupon)
     then default Cart.Coupon.fixed (Cart.Coupon.type coupon)
     else Cart.Coupon.fixed)
    total Order.pending [].

(** [POST /api/orders] from the empty-cart guard on, for the cart the
    first statement of the handler is meant to fetch. *)
Definition post_continue (userId : ObjectId) (body : CheckoutBody)
    (cart : Cart.t) (env : Env) (st : State) : Response * State :=
  if bool_decide (List.length (Cart.items cart) = 0%nat) then (EmptyCart, st)
  else
    match check_items (products st) (Cart.items cart) with
    | Some rejection => (rejection, st)
    | None =>
        match Db.Order_create (orderData userId body cart (fresh env)) (now env) st with
        | Throw _ => (server_error "Server error creating order", st)
        | Ok (order, st1) =>
            let st2 := Db.reserve (Cart.items cart) st1 in
            match Db.save_cart (Cart.clear cart) st2 with
            | Throw _ => (server_error "Server error creating order", st2)
            | Ok st3 => (created "Order created successfully", st3)
            end
        end
    end.

(** [POST /api/orders].  Its first statement is
    [await Cart.getOrCreateCart(req.user.id).populate('items.product')]:
    [getOrCreateCart] is an [async] function, so the call evaluates to a
    Promise, [.populate] is applied to that Promise and throws, and the
    handler's [catch] answers 500.  The call itself has been made, so
    the lazily created cart is still written. *)
Definition post (userId : ObjectId) (body : CheckoutBody) (env : Env)
    (st : State) : Response * State :=
  let body := sanitize body in
  if negb (body_valid body) then (ValidationFailed, st)
  else
    let '(cart, st1) := Db.getOrCreateCart userId (now env) st in
    match Js.Promise_populate cart "items.product" with
    | Throw _ => (server_error "Server error creating order", st1)
    | Ok cart => post_continue userId body cart env st1
    end.

(** [PUT /api/orders/:id/status] (behind [authorize('admin', 'moderator')]) *)
Definition put_status (userId id : ObjectId) (status : string)
    (note : option string) (env : Env) (st : State) : Response * State :=
  match Order.Status_of_string status with
  | None => (ValidationFailed, st)
  | Some status =>
      match orders st !! id with
      | None => (not_found "Order not found", st)
      | Some stored =>
          let order :=
            Order.updateStatus status (Js.trim <$> note) (Some userId)
              (now env) (Order.loaded stored) in
          match Db.save_order order (now env) st with
          | Throw _ => (server_error "Server error updating order status", st)
          | Ok (order, st1) =>
              let st2 :=
                if bool_decide (status = Order.cancelled)
                   && negb (bool_decide (Order.status order = Order.cancelled))
                then Db.release (Order.items order) st1
                else st1 in
              (ok "Order status updated successfully", st2)
          end
      end
  end.

(** [PUT /api/orders/:id/cancel] *)
Definition put_cancel (userId id : ObjectId) (reason : option string)
    (env : Env) (st : State) : Response * State :=
  match orders st !! id with
  | None => (not_found "Order not found", st)
  | Some stored =>
      if negb (bool_decide (Order.customer stored = userId))
      then (NotAuthorized, st)
      else if negb (bool_decide
                      (Order.status stored ∈ [Order.pending; Order.confirmed]))
      then (InvalidTransition, st)
      else
        let order :=
          Order.updateStatus Order.cancelled
            (Some (Js.or_string (Js.trim <$> reason) "Cancelled by customer"))
            (Some userId) (now env) (Order.loaded stored) in
        match Db.save_order order (now env) st with
        | Throw _ => (server_error "Server error cancelling order", st)
        | Ok (order, st1) =>
            (ok "Order cancelled successfully",
             Db.release (Order.items order) st1)
        end
  end.

End OrderRoutes.

(** ** Requests *)

Inductive Request :=
  | GetCart (userId : ObjectId)
  | PostCartItems (userId productId : ObjectId) (quantity : Z)
      (variant : option RequestVariant)
  | PutCartItem (userId itemId : ObjectId) (quantity : Z)
  | DeleteCartItem (userId itemId : ObjectId)
  | DeleteCart (userId : ObjectId)
  | PostCoupon (userId : ObjectId) (code : string)
  | DeleteCoupon (userId : ObjectId)
  | PostOrders (userId : ObjectId) (body : OrderRoutes.CheckoutBody)
  | PutOrderStatus (userId id : ObjectId) (status : string) (note : option string)
  | PutOrderCancel (userId id : ObjectId) (reason : option string).

Definition handle (req : Request) (env : Env) (st : State) : Response * State :=
  match req with
  | GetCart u => CartRoutes.get u env st
  | PostCartItems u p q v => CartRoutes.post_items u p q v env st
  | PutCartItem u i q => CartRoutes.put_item u i q env st
  | DeleteCartItem u i => CartRoutes.delete_item u i env st
  | DeleteCart u => CartRoutes.delete u env st
  | PostCoupon u c => CartRoutes.post_coupon u c env st
  | DeleteCoupon u => CartRoutes.delete_coupon u env st
  | PostOrders u b => OrderRoutes.post u b env st
  | PutOrderStatus u i s n => OrderRoutes.put_status u i s n env st
  | PutOrderCancel u i r => OrderRoutes.put_cancel u i r env st
  end.

(** The states the server can be in: it starts without carts, serves
    requests, and the catalogue (an external collaborator) may change
    under it. *)
Inductive reachable : State → Prop :=
  | reachable_init st : carts st = ∅ → reachable st
  | reachable_handle req env st :
      reachable st → reachable (handle req env st).2
  | reachable_catalogue ps st :
      reachable st → reachable (Db.set_products ps st)
  | reachable_expiry u st :
      (* the TTL index on [expiresAt] and [cleanExpiredCarts] *)
      reachable st → reachable (Db.set_carts (delete u (carts st)) st).

(** ** The derived values as the specification words them *)

Module Spec.

Fixpoint sum (l : list Qc) : Qc :=
  match l with
  | [] => 0%Qc
  | x :: l' => (x + sum l')%Qc
  end.

(** [subtotal = Σ unitPrice × quantity] over the current lines. *)
Definition subtotal (c : Cart.t) : Qc :=
  sum (map (fun item => (Cart.Item.price item * Qc_of_Z (Cart.Item.quantity item))%Qc)
           (Cart.items c)).

(** The coupon's discount value. *)
Definition discountValue (c : Cart.t) : Qc :=
  default 0%Qc (Cart.Coupon.discount (Cart.coupon c)).

(** [discountAmount]: zero without a coupon (no [code]), the percentage
    of the subtotal for a percentage coupon, the discount value for a
    fixed one. *)
Definition discountAmount (c : Cart.t) : Qc :=
  match Cart.Coupon.code (Cart.coupon c) with
  | None => 0%Qc
  | Some _ =>
      match Cart.Coupon.type (Cart.coupon c) with
      | Some Cart.Coupon.percentage =>
          (subtotal c * discountValue c / Qc_of_Z 100)%Qc
      | _ => discountValue c
      end
  end.

End Spec.

(** ** Invariants of stored carts *)

(** A cart without a coupon code carries no discount. *)
Definition coupon_wf (c : Cart.t) : Prop :=
  Cart.Coupon.code (Cart.coupon c) = None →
  Js.or_zero (Cart.Coupon.discount (Cart.coupon c)) = 0%Qc.

(** The cart stored for user [u]: it is [u]'s, it passes schema
    validation, and its coupon is well formed. *)
Record Cart_inv (u : ObjectId) (c : Cart.t) : Prop := mkCart_inv {
  inv_user : Cart.user c = u;
  inv_valid : Cart.validate c = true;
  inv_coupon : coupon_wf c
}.

Definition State_inv (st : State) : Prop :=
  ∀ u c, carts st !! u = Some c → Cart_inv u c.

(** Every line of the cart refers to a stored product: [populate] puts a
    document, not [null], in each line. *)
Definition products_stored (ps : gmap ObjectId Product.t) (c : Cart.t) : Prop :=
  ∀ item, item ∈ Cart.items c → is_Some (ps !! Cart.Item.product item).

(** The lines of the product and the variant of [item]. *)
Definition same_pair (item x : Cart.Item.t) : bool :=
  bool_decide (Cart.Item.key x = Cart.Item.key item).

(** Totals of the lines of an order that refer to product [p]. *)
Definition released_quantity (p : ObjectId) (items : list Order.Item.t) : Z :=
  fold_right
    (fun item acc =>
       if bool_decide (Order.Item.product item = p)
       then Order.Item.quantity item + acc else acc)
    0 items.

Definition released_revenue (p : ObjectId) (items : list Order.Item.t) : Qc :=
  fold_right
    (fun item acc =>
       if bool_decide (Order.Item.product item = p)
       then (Order.Item.price item * Qc_of_Z (Order.Item.quantity item) + acc)%Qc
       else acc)
    0%Qc items.

(** Stored orders are keyed by their [_id]. *)
Definition orders_keyed (st : State) : Prop :=
  ∀ id o, orders st !! id = Some o → Order._id o = id.

(** The timeline entry [updateStatus] writes. *)
Definition status_entry (s : Order.Status) (note : option string)
    (by_ : option ObjectId) (now : Z) : Order.Entry.t :=
  Order.Entry.mk s now (match note with Some n => n | None => "" end) by_.

(** The timeline entry the pre-save hook writes for a changed status. *)
Definition hook_entry (s : Order.Status) (now : Z) : Order.Entry.t :=
  Order.Entry.mk s now ("Status changed to " +:+ Order.Status_to_string s) None.

(** ** Sample data *)

Module Sample.

Definition alice : ObjectId := 7%N.
Definition admin : ObjectId := 1%N.
Definition shirt_id : ObjectId := 10%N.

Definition shirt : Product.t :=
  Product.mk "Shirt" (Qc_of_Z 10) true 3 false Product.active 0 0%Qc.

Definition env0 : Env := mkEnv 1000 100%N (fun k => (300 + N.of_nat k)%N) 0%N.

(** A later request: another clock reading, another fresh id. *)
Definition env1 : Env := mkEnv 2000 101%N (fun k => (400 + N.of_nat k)%N) 5%N.

(** A line added without a variant. *)
Definition no_variant : Variant := mkVariant None [].

Definition line (q : Z) : Cart.Item.t :=
  Cart.Item.mk 50%N shirt_id no_variant q (Qc_of_Z 10) 0.

Definition cart_of (items : list Cart.Item.t) : Cart.t :=
  Cart.mk alice items Cart.Coupon.default "standard" 0%Qc 0%Qc 0%Qc 5000.

Definition empty_cart : Cart.t := cart_of [].
Definition cart2 : Cart.t := cart_of [line 2].

Definition catalogue : gmap ObjectId Product.t := {[ shirt_id := shirt ]}.

Definition st_fresh : State := mkState catalogue ∅ ∅.
Definition st_empty_cart : State := mkState catalogue {[ alice := empty_cart ]} ∅.
Definition st_cart2 : State := mkState catalogue {[ alice := cart2 ]} ∅.

Definition address : Order.Address.t :=
  Order.Address.mk "Alice" "Doe" "1 Main St" "Springfield" "IL" "62701".

Definition body : OrderRoutes.CheckoutBody :=
  OrderRoutes.mkBody address "standard" "paypal" address.

Definition order_id : ObjectId := 200%N.

(** The order checkout builds for [cart2], given an order number. *)
Definition orderData : Order.t :=
  Order.set_orderNumber (Some "ORD-000001")
    (OrderRoutes.orderData alice body cart2 order_id).

Definition entry0 : Order.Entry.t :=
  Order.Entry.mk Order.pending 0 "Order placed" None.

(** A stored order of [alice] in a given status, holding 2 shirts. *)
Definition order_in (s : Order.Status) : Order.t :=
  Order.timeline_push entry0 (Order.set_status s orderData).

Definition st_order (s : Order.Status) : State :=
  mkState catalogue ∅ {[ order_id := order_in s ]}.

End Sample.

(** ** Further code of the models and routes *)

(** *** server/models/Product.js *)

(** [productSchema.virtual('availability')] *)
Definition Product_availability (this : Product.t) : string :=
  if negb (Product.trackInventory this) then "in-stock"
  else if bool_decide (Product.quantity this > 0) then "in-stock"
  else if Product.allowBackorder this then "backorder"
  else "out-of-stock".

(** The [inStock=true] clause of the filter of [GET /api/products]:
    [$or: [{ 'inventory.trackInventory': false },
           { 'inventory.quantity': { $gt: 0 } }]]. *)
Definition listing_inStock (p : Product.t) : bool :=
  negb (Product.trackInventory p) || bool_decide (Product.quantity p > 0).

(** *** server/models/Cart.js *)

(** [cartSchema.statics.cleanExpiredCarts]:
    [deleteMany({ expiresAt: { $lt: new Date() } })], with the
    [deletedCount] it reports. *)
Definition cleanExpiredCarts (now : Z) (st : State) : nat * State :=
  let kept := filter (fun kv => ¬ (Cart.expiresAt kv.2 < now)) (carts st) in
  ((size (carts st) - size kept)%nat, Db.set_carts kept st).

(** *** server/models/Order.js *)

(** [orderSchema.methods.calculateTotals]: the total it returns and the
    document it leaves. *)
Definition Order_calculateTotals (this : Order.t) : Qc * Order.t :=
  let subtotal :=
    fold_left (fun sum item => (sum + Order.Item.total item)%Qc)
              (Order.items this) 0%Qc in
  let total :=
    (subtotal + Order.tax_amount this + Order.shipping_cost this
     - Order.discount_amount this)%Qc in
  (total,
   Order.mk (Order._id this) (Order.orderNumber this) (Order.customer this)
     (Order.items this) subtotal (Order.tax_amount this) (Order.tax_rate this)
     (Order.shipping_method this) (Order.shipping_cost this)
     (Order.shipping_address this) (Order.billing_address this)
     (Order.payment_method this) (Order.payment_status this)
     (Order.payment_amount this) (Order.discount_code this)
     (Order.discount_amount this) (Order.discount_type this)
     total (Order.status this) (Order.timeline this)).

(** [orderSchema.statics.getStats] and [GET /api/orders/admin/stats].
    The collection is the list of stored orders with the [createdAt] that
    [timestamps: true] gives them; [startDate] and [endDate] are the
    dates of the query, [None] for a parameter that is not given. *)
Module Stats.

Record Stamped := mkStamped {
  doc : Order.t;
  createdAt : Z
}.

(** The single group ([_id: null]) of the pipeline. *)
Record Group := mkGroup {
  totalOrders : Z;
  totalRevenue : Qc;
  averageOrderValue : Qc;
  ordersByStatus : list (Order.Status * Qc)
}.

(** The [$match] stage: a [createdAt] range only when both dates are
    given. *)
Definition matched (startDate endDate : option Z) (coll : list Stamped)
    : list Stamped :=
  match startDate, endDate with
  | Some s, Some e =>
      List.filter
        (fun d => bool_decide (s <= createdAt d) && bool_decide (createdAt d <= e))
        coll
  | _, _ => coll
  end.

(** The [$group] stage: no group for no document. *)
Definition getStats (startDate endDate : option Z) (coll : list Stamped)
    : list Group :=
  match matched startDate endDate coll with
  | [] => []
  | docs =>
      let sum :=
        fold_left (fun acc d => (acc + Order.total (doc d))%Qc) docs 0%Qc in
      [mkGroup (Z.of_nat (List.length docs)) sum
         (sum / Qc_of_Z (Z.of_nat (List.length docs)))%Qc
         (map (fun d => (Order.status (doc d), Order.total (doc d))) docs)]
  end.

(** The route: [stats[0] || { totalOrders: 0, ... }]. *)
Definition admin_stats (startDate endDate : option Z) (coll : list Stamped)
    : Group :=
  match getStats startDate endDate coll with
  | stats0 :: _ => stats0
  | [] => mkGroup 0 0%Qc 0%Qc []
  end.

End Stats.

(** *** server/routes/products.js: pagination of [GET /api/products] *)

Module Listing.

Record Pagination := mkPagination {
  currentPage : Z;
  totalPages : Z;
  totalItems : Z;
  itemsPerPage : Z;
  hasNextPage : bool;
  hasPrevPage : bool
}.

(** [parseInt(x) || d]: an absent parameter parses to [NaN]. *)
Definition parse_or (x : option Z) (d : Z) : Z :=
  match x with
  | Some n => if bool_decide (n = 0) then d else n
  | None => d
  end.


(** [Math.ceil(total / limit)] *)
Definition ceil_div (total limit : Z) : Z :=
  Qceiling (this (Qc_of_Z total / Qc_of_Z limit)%Qc).

(** The handler from after its validation block, for a request that has
    passed it; [results] are the documents the filter matches, in the
    order of the sort. *)
Definition get {A} (page limit : option Z) (results : list A)
    : list A * Pagination :=
  let page := parse_or page 1 in
  let limit := parse_or limit 12 in
  let skip := (page - 1) * limit in
  let products := take (Z.to_nat limit) (drop (Z.to_nat skip) results) in
  let total := Z.of_nat (List.length results) in
  let totalPages := ceil_div total limit in
  (products,
   mkPagination page totalPages total limit
     (bool_decide (page < totalPages)) (bool_decide (page > 1))).

End Listing.

(** *** The Category model (second document of server/models/Cart.js) *)

Module Category.

Record t := mk {
  name : string;
  slug : string;
  parent : option ObjectId
}.

Definition lower_ascii (c : ascii) : ascii :=
  let n := nat_of_ascii c in
  if ((65 <=? n)%nat && (n <=? 90)%nat)%bool then ascii_of_nat (n + 32) else c.

(** [s.toLowerCase()] on ASCII text. *)
Fixpoint toLowerCase (s : string) : string :=
  match s with
  | EmptyString => EmptyString
  | String c s' => String (lower_ascii c) (toLowerCase s')
  end.

(** The class [[a-z0-9]]. *)
Definition is_alnum (c : ascii) : bool :=
  let n := nat_of_ascii c in
  ((97 <=? n)%nat && (n <=? 122)%nat || (48 <=? n)%nat && (n <=? 57)%nat)%bool.

Definition hyphen : ascii := ascii_of_nat 45.

(** [s.replace(/[^a-z0-9]+/g, '-')]: every maximal run of other
    characters becomes one hyphen.  [in_run] tells that the run the
    previous character belongs to has been replaced already. *)
Fixpoint replace_runs (in_run : bool) (s : string) : string :=
  match s with
  | EmptyString => EmptyString
  | String c s' =>
      if is_alnum c then String c (replace_runs false s')
      else if in_run then replace_runs true s'
      else String hyphen (replace_runs true s')
  end.

(** The [-$] alternative: a hyphen that ends the string goes. *)
Fixpoint strip_end (s : string) : string :=
  match s with
  | EmptyString => EmptyString
  | String c s' =>
      match s' with
      | EmptyString => if bool_decide (c = hyphen) then EmptyString else s
      | _ => String c (strip_end s')
      end
  end.

(** [s.replace(/(^-|-$)/g, '')] *)
Definition strip_ends (s : string) : string :=
  strip_end
    (match s with
     | String c s' => if bool_decide (c = hyphen) then s' else s
     | EmptyString => EmptyString
     end).

(** [categorySchema.methods.generateSlug] *)
Definition generateSlug (this : t) : string :=
  strip_ends (replace_runs false (toLowerCase (name this))).

(** One element of a breadcrumb. *)
Record Crumb := mkCrumb {
  crumb_id : ObjectId;
  crumb_name : string;
  crumb_slug : string
}.

(** The [while (current)] loop of [getBreadcrumb]; [current] is the id
    [findById] is asked for, [None] for [null].  [fuel] bounds the
    iterations: [None] is a loop that has not ended within them. *)
Fixpoint breadcrumb_loop (fuel : nat) (cats : gmap ObjectId t)
    (current : option ObjectId) (breadcrumb : list Crumb) : option (list Crumb) :=
  match fuel with
  | O => None
  | S fuel' =>
      match current ≫= (cats !!.) with
      | None => Some breadcrumb
      | Some c =>
          breadcrumb_loop fuel' cats (parent c)
            (match current with
             | Some id => mkCrumb id (name c) (slug c) :: breadcrumb
             | None => breadcrumb
             end)
      end
  end.

(** [categorySchema.statics.getBreadcrumb] *)
Definition getBreadcrumb (fuel : nat) (cats : gmap ObjectId t)
    (categoryId : ObjectId) : option (list Crumb) :=
  breadcrumb_loop fuel cats (Some categoryId) [].

(** The chain of ancestors [getBreadcrumb] walks: from a category up to
    one without a stored parent. *)
Inductive chain (cats : gmap ObjectId t) : ObjectId → list Crumb → Prop :=
  | chain_root id c :
      cats !! id = Some c → parent c ≫= (cats !!.) = None →
      chain cats id [mkCrumb id (name c) (slug c)]
  | chain_child id c pid path :
      cats !! id = Some c → parent c = Some pid → chain cats pid path →
      chain cats id (path ++ [mkCrumb id (name c) (slug c)]).

End Category.

(** ** Predicates on stored carts *)

Definition carts_all (P : Cart.t → Prop) (st : State) : Prop :=
  ∀ u c, carts st !! u = Some c → P c.

(** The coupon of a cart is none, or an entry of the coupon table under
    its key, expiring at most 24 hours after it was applied. *)
Definition coupon_of_table (c : Cart.t) : Prop :=
  Cart.Coupon.code (Cart.coupon c) = None
  ∨ ∃ key rule appliedAt expiresAt,
      CartRoutes.validCoupons key = Some rule
      ∧ Cart.coupon c
        = Cart.Coupon.mk (Some key) (Some (CartRoutes.discount rule))
            (Some (CartRoutes.type rule)) (Some appliedAt) (Some expiresAt)
      ∧ expiresAt ≤ appliedAt + 24 * 60 * 60 * 1000.

(** The shipping and tax fields keep the schema defaults. *)
Definition shipping_default (c : Cart.t) : Prop :=
  Cart.shippingMethod c = "standard" ∧ Cart.shippingCost c = 0%Qc
  ∧ Cart.tax_amount c = 0%Qc ∧ Cart.tax_rate c = 0%Qc.

(** [c'] is [c] but for its lines and its coupon. *)
Definition frame (c c' : Cart.t) : Prop :=
  ∃ l k, c' = Cart.set_coupon k (Cart.set_items l c).

(** Sum of the quantities of the lines, as the specification words
    [itemCount]. *)
Definition quantity_sum (items : list Cart.Item.t) : Z :=
  fold_right (fun item acc => Cart.Item.quantity item + acc) 0 items.

(** Everything of an order but its status and its timeline. *)
Definition snapshot (o : Order.t) : Order.t :=
  Order.mk (Order._id o) (Order.orderNumber o) (Order.customer o)
    (Order.items o) (Order.subtotal o) (Order.tax_amount o) (Order.tax_rate o)
    (Order.shipping_method o) (Order.shipping_cost o)
    (Order.shipping_address o) (Order.billing_address o)
    (Order.payment_method o) (Order.payment_status o)
    (Order.payment_amount o) (Order.discount_code o)
    (Order.discount_amount o) (Order.discount_type o)
    (Order.total o) Order.pending [].


(** ** States the sample requests lead to *)

Module Scenario.

(** [alice] has added two shirts. *)
Definition st_added : State :=
  (handle (PostCartItems Sample.alice Sample.shirt_id 2 None)
     Sample.env0 Sample.st_fresh).2.

Definition line_added : Cart.Item.t :=
  Cart.Item.mk 100%N Sample.shirt_id Sample.no_variant 2 (Qc_of_Z 10) 1000.

Definition cart_added : Cart.t :=
  Cart.set_items [line_added] (Cart.new Sample.alice 1000).

(** ... and then applied SAVE20. *)
Definition st_coupon : State :=
  (handle (PostCoupon Sample.alice "save20") Sample.env0 st_added).2.

Definition cart_coupon : Cart.t :=
  Cart.applyCoupon "SAVE20" (Qc_of_Z 20) Cart.Coupon.fixed 86401000 1000
    cart_added.

(** The shop has restocked the shirt since. *)
Definition shirt_restocked : Product.t :=
  Product.mk "Shirt" (Qc_of_Z 10) true 500 false Product.active 0 0%Qc.

Definition st_restocked : State :=
  Db.set_products {[ Sample.shirt_id := shirt_restocked ]} st_added.

(** [alice] has added two shirts, and later three more. *)
Definition st_twice : State :=
  (handle (PostCartItems Sample.alice Sample.shirt_id 3 None)
     Sample.env1 st_added).2.

Definition line_second : Cart.Item.t :=
  Cart.Item.mk 101%N Sample.shirt_id Sample.no_variant 3 (Qc_of_Z 10) 2000.

Definition cart_twice : Cart.t :=
  Cart.set_items [line_added; line_second] (Cart.new Sample.alice 1000).

End Scenario.

(** ** The user of a request: [req.user.id] *)

Definition requester (req : Request) : ObjectId :=
  match req with
  | GetCart u | PostCartItems u _ _ _ | PutCartItem u _ _ | DeleteCartItem u _
  | DeleteCart u | PostCoupon u _ | DeleteCoupon u | PostOrders u _
  | PutOrderStatus u _ _ _ | PutOrderCancel u _ _ => u
  end.

(** ** The shape of a slug *)

(** Groups of [[a-z0-9]] separated by single hyphens; [after_hyphen]
    tells that the previous character was a hyphen (or that the string
    starts here), where only a character of the class may follow. *)
Fixpoint slug_tail (after_hyphen : bool) (s : string) : bool :=
  match s with
  | EmptyString => negb after_hyphen
  | String c s' =>
      if Category.is_alnum c then slug_tail false s'
      else bool_decide (c = Category.hyphen) && negb after_hyphen
           && slug_tail true s'
  end.

Definition is_slug (s : string) : bool :=
  match s with
  | EmptyString => true
  | _ => slug_tail true s
  end.
(** * Properties *)

(** ** Lists and lines *)

Section callbacks.
Context {A : Type}.

Lemma first_index_Some (g : A → bool) l i :
  Js.first_index g l = Some i →
  ∃ x, l !! i = Some x ∧ g x = true
       ∧ ∀ j y, (j < i)%nat → l !! j = Some y → g y = false.
Proof.
  revert i. induction l as [|a l IH]; intros i; simpl; [done|].
  destruct (g a) eqn:Hga.
  - intros [= <-]. exists a. split_and!; [done..|]. intros j y Hj. lia.
  - destruct (Js.first_index g l) as [k|]; simpl; [|done].
    intros [= <-]. destruct (IH k eq_refl) as (x & Hx & Hgx & Hlt).
    exists x. split_and!; [done..|].
    intros [|j] y Hj; simpl.
    + by intros [= <-].
    + apply Hlt. lia.
Qed.

Lemma first_index_None (g : A → bool) l :
  Js.first_index g l = None ↔ ∀ x, x ∈ l → g x = false.
Proof.
  induction l as [|a l IH]; simpl.
  - split; [|done]. intros _ x Hx. by apply elem_of_nil in Hx.
  - destruct (g a) eqn:Hga.
    + split; [done|]. intros H. rewrite (H a) in Hga; [done|left].
    + destruct (Js.first_index g l) as [k|]; simpl.
      * split; [done|]. intros H.
        assert (Some k = None) as Hk; [|done].
        apply IH. intros x Hx. apply H. by right.
      * split; [|done]. intros _ x [->|Hx]%elem_of_cons; [done|].
        by apply IH.
Qed.

(** A callback that throws on no element is a total predicate. *)
Lemma findIndex_total (f : A → Result bool) (g : A → bool) l :
  (∀ x, x ∈ l → f x = Ok (g x)) → Js.findIndex f l = Ok (Js.first_index g l).
Proof.
  induction l as [|a l IH]; intros Hf; simpl; [done|].
  rewrite (Hf a) by by left. simpl. destruct (g a); [done|].
  rewrite IH; [done|]. intros x Hx. apply Hf. by right.
Qed.

Lemma filter_total (f : A → Result bool) (g : A → bool) l :
  (∀ x, x ∈ l → f x = Ok (g x)) → Js.filter f l = Ok (List.filter g l).
Proof.
  induction l as [|a l IH]; intros Hf; simpl; [done|].
  rewrite (Hf a) by by left. simpl.
  rewrite IH; [done|]. intros x Hx. apply Hf. by right.
Qed.

(** A callback that throws on some element makes [filter] throw. *)
Lemma filter_throws (f : A → Result bool) l x e :
  x ∈ l → f x = Throw e → ∃ e', Js.filter f l = Throw e'.
Proof.
  induction l as [|a l IH]; intros Hx Hfx; [by apply elem_of_nil in Hx|].
  simpl. destruct (f a) as [b|e0] eqn:Hfa; simpl; [|by eexists].
  apply elem_of_cons in Hx as [->|Hx]; [congruence|].
  destruct (IH Hx Hfx) as [e' ->]. by eexists.
Qed.

Lemma filter_Ok (f : A → Result bool) l l' :
  Js.filter f l = Ok l' →
  (∀ x, x ∈ l → ∃ b, f x = Ok b)
  ∧ ∀ x, x ∈ l' ↔ x ∈ l ∧ f x = Ok true.
Proof.
  revert l'. induction l as [|a l IH]; intros l'; simpl.
  - intros [= <-]. split; intros x; rewrite ?elem_of_nil; tauto.
  - destruct (f a) as [b|e] eqn:Hfa; simpl; [|done].
    destruct (Js.filter f l) as [l''|e] eqn:Hfl; simpl; [|done].
    intros [= <-]. destruct (IH l'' eq_refl) as [Hall Hin]. split.
    + intros x [->|Hx]%elem_of_cons; [by eexists|by apply Hall].
    + intros x. destruct b; rewrite ?elem_of_cons, Hin.
      * split; [intros [->|[? ?]]; auto|intros [[->|?] ?]; auto].
      * split; [intros [? ?]; auto|intros [[->|?] ?]; [congruence|auto]].
Qed.

(** Where [findIndex] throws, [filter] with the negated callback throws. *)
Lemma findIndex_Throw_filter (f : A → Result bool) l e :
  Js.findIndex f l = Throw e →
  ∃ e', Js.filter (fun x => negb <$> f x) l = Throw e'.
Proof.
  revert e. induction l as [|a l IH]; intros e; simpl; [done|].
  destruct (f a) as [b|e0] eqn:Hfa; simpl; [|by eexists].
  destruct b; [done|].
  destruct (Js.findIndex f l) as [r|e1]; simpl; [done|].
  intros _. destruct (IH e1 eq_refl) as [e' ->]. by eexists.
Qed.

Lemma findIndex_Ok_None (f : A → Result bool) l :
  Js.findIndex f l = Ok None → ∀ x, x ∈ l → f x = Ok false.
Proof.
  induction l as [|a l IH]; simpl.
  - intros _ x Hx. by apply elem_of_nil in Hx.
  - destruct (f a) as [[]|e] eqn:Hfa; simpl; [done| |done].
    destruct (Js.findIndex f l) as [[k|]|e]; simpl; [done| |done].
    intros _ x [->|Hx]%elem_of_cons; [done|]. by apply IH.
Qed.

Lemma findIndex_Ok_Some (f : A → Result bool) l i :
  Js.findIndex f l = Ok (Some i) →
  ∃ x, l !! i = Some x ∧ f x = Ok true
       ∧ ∀ j y, (j < i)%nat → l !! j = Some y → f y = Ok false.
Proof.
  revert i. induction l as [|a l IH]; intros i; simpl; [done|].
  destruct (f a) as [[]|e] eqn:Hfa; simpl; [| |done].
  - intros [= <-]. exists a. split_and!; [done..|]. intros j y Hj. lia.
  - destruct (Js.findIndex f l) as [[k|]|e]; simpl; [|done..].
    intros [= <-]. destruct (IH k eq_refl) as (x & Hx & Hfx & Hlt).
    exists x. split_and!; [done..|].
    intros [|j] y Hj; simpl.
    + by intros [= <-].
    + apply Hlt. lia.
Qed.

End callbacks.

(** *** The comparison of the line-addressing methods *)

(** A request names a product by its id, a loaded line holds the product
    document: the texts never agree, and the comparison throws on a line
    whose product is gone. *)
Lemma same_line_request ps p v item :
  Cart.same_line ps (ById p) v item
  = match ps !! Cart.Item.product item with
    | Some _ => Ok false
    | None =>
        Throw (TypeError "Cannot read properties of null (reading 'toString')")
    end.
Proof.
  unfold Cart.same_line, Cart.product_of.
  by destruct (ps !! Cart.Item.product item).
Qed.

(** Between the lines of a loaded cart the comparison is that of the
    (product, variant) pairs. *)
Lemma same_line_held ps p v item :
  is_Some (ps !! Cart.Item.product item) →
  Cart.same_line ps (Populated p) (Held v) item
  = Ok (bool_decide (Cart.Item.key item = (p, v))).
Proof.
  intros [x Hx]. unfold Cart.same_line, Cart.product_of, Cart.Item.key.
  rewrite Hx. simpl. f_equal.
  destruct (decide (Cart.Item.product item = p)) as [->|Hp];
    destruct (decide (Cart.Item.variant item = v)) as [->|Hv].
  - by rewrite !bool_decide_eq_true_2.
  - rewrite (bool_decide_eq_false_2 (_ = v)) by done.
    rewrite andb_false_r. symmetry. apply bool_decide_eq_false_2. congruence.
  - rewrite (bool_decide_eq_false_2 (inspected _ = _)) by congruence.
    symmetry. apply bool_decide_eq_false_2. congruence.
  - rewrite (bool_decide_eq_false_2 (inspected _ = _)) by congruence.
    symmetry. apply bool_decide_eq_false_2. congruence.
Qed.

Lemma same_line_null ps v item :
  Cart.same_line ps Null v item
  = Throw (TypeError "Cannot read properties of null (reading 'toString')").
Proof.
  unfold Cart.same_line, Cart.product_of.
  by destruct (ps !! Cart.Item.product item).
Qed.

Lemma same_line_gone ps r v item :
  ps !! Cart.Item.product item = None →
  Cart.same_line ps r v item
  = Throw (TypeError "Cannot read properties of null (reading 'toString')").
Proof. intros Hp. unfold Cart.same_line, Cart.product_of. by rewrite Hp. Qed.

Lemma validate_filter (f : Cart.Item.t → bool) l :
  forallb Cart.Item.validate l = true →
  forallb Cart.Item.validate (List.filter f l) = true.
Proof.
  rewrite !forallb_forall. intros H x [Hx _]%filter_In. by apply H.
Qed.

Lemma items_id_elem itemId c item :
  Cart.items_id itemId c = Some item → item ∈ Cart.items c.
Proof.
  unfold Cart.items_id. intros [H _]%find_some. by apply list_elem_of_In.
Qed.

Lemma set_items_same c : Cart.set_items (Cart.items c) c = c.
Proof. by destruct c. Qed.

(** *** The line-addressing methods change the lines only *)

Lemma addItem_lines ps p v q price now fresh ids c c' :
  Cart.addItem ps p v q price now fresh ids c = Ok c' →
  ∃ l, c' = Cart.set_items l c.
Proof.
  unfold Cart.addItem. destruct (Js.findIndex _ _) as [[i|]|e]; simpl; [| |done].
  - intros [= <-]. by eexists.
  - intros [= <-]. by eexists.
Qed.

Lemma updateItemQuantity_lines ps r v q c c' :
  Cart.updateItemQuantity ps r v q c = Ok c' → ∃ l, c' = Cart.set_items l c.
Proof.
  unfold Cart.updateItemQuantity.
  destruct (Js.findIndex _ _) as [[i|]|e]; simpl; [| |done].
  - case_bool_decide.
    + destruct (Js.filter _ _) as [l|e]; simpl; [|done].
      intros [= <-]. by eexists.
    + intros [= <-]. by eexists.
  - intros [= <-]. exists (Cart.items c). by rewrite set_items_same.
Qed.

Lemma removeItem_lines ps r v c c' :
  Cart.removeItem ps r v c = Ok c' → ∃ l, c' = Cart.set_items l c.
Proof.
  unfold Cart.removeItem. destruct (Js.filter _ _) as [l|e]; simpl; [|done].
  intros [= <-]. by eexists.
Qed.

(** *** Every stored cart satisfies the invariant *)

Lemma Cart_inv_new u now : Cart_inv u (Cart.new u now).
Proof. split; [done..|]. intros _. reflexivity. Qed.

Lemma Cart_inv_set_items u c l :
  Cart_inv u c → Cart.validate (Cart.set_items l c) = true →
  Cart_inv u (Cart.set_items l c).
Proof. intros [] ?. by split. Qed.

Lemma Cart_inv_clear u c : Cart_inv u c → Cart_inv u (Cart.clear c).
Proof. intros []. split; [done..|]. intros _. reflexivity. Qed.

Lemma Cart_inv_applyCoupon u c code d t e now :
  Cart_inv u c → Cart_inv u (Cart.applyCoupon code d t e now c).
Proof. intros []. by split. Qed.

Lemma Cart_inv_removeCoupon u c : Cart_inv u c → Cart_inv u (Cart.removeCoupon c).
Proof. intros []. split; [done..|]. intros _. reflexivity. Qed.

(** *** Persistence *)

Lemma getOrCreateCart_lookup u now st :
  carts (Db.getOrCreateCart u now st).2 !! u = Some (Db.getOrCreateCart u now st).1.
Proof.
  unfold Db.getOrCreateCart. destruct (carts st !! u) eqn:Hu; simpl; [done|].
  apply lookup_insert_eq.
Qed.

Lemma getOrCreateCart_stored u now st c :
  carts st !! u = Some c → Db.getOrCreateCart u now st = (c, st).
Proof. intros Hu. unfold Db.getOrCreateCart. by rewrite Hu. Qed.

Lemma getOrCreateCart_rest u now st :
  products (Db.getOrCreateCart u now st).2 = products st
  ∧ orders (Db.getOrCreateCart u now st).2 = orders st.
Proof. unfold Db.getOrCreateCart. by destruct (carts st !! u). Qed.

Lemma getOrCreateCart_inv u now st :
  State_inv st → State_inv (Db.getOrCreateCart u now st).2.
Proof.
  intros Hst. unfold Db.getOrCreateCart. destruct (carts st !! u) eqn:Hu; simpl; [done|].
  intros u' c'. simpl. destruct (decide (u = u')) as [<-|Hne].
  - rewrite lookup_insert_eq. intros [= <-]. apply Cart_inv_new.
  - rewrite lookup_insert_ne; [|done]. apply Hst.
Qed.

Lemma save_cart_inv c st st' :
  State_inv st → Cart_inv (Cart.user c) c →
  Db.save_cart c st = Ok st' → State_inv st'.
Proof.
  intros Hst Hc. unfold Db.save_cart. destruct (Cart.validate c); [|done].
  intros [= <-] u' c'. simpl. destruct (decide (Cart.user c = u')) as [<-|Hne].
  - rewrite lookup_insert_eq. by intros [= <-].
  - rewrite lookup_insert_ne; [|done]. apply Hst.
Qed.

Lemma save_cart_valid c st st' :
  Db.save_cart c st = Ok st' → Cart.validate c = true.
Proof. unfold Db.save_cart. by destruct (Cart.validate c). Qed.

Lemma respond_inv c st a b :
  State_inv st → (Cart.validate c = true → Cart_inv (Cart.user c) c) →
  State_inv (CartRoutes.respond (Db.save_cart c st) a b st).2.
Proof.
  intros Hst Hc. unfold CartRoutes.respond.
  destruct (Db.save_cart c st) as [st'|e] eqn:Hsave; simpl; [|done].
  eapply save_cart_inv; [done| |done]. apply Hc. by eapply save_cart_valid.
Qed.

Lemma getOrCreateCart_cases u now st c st1 :
  Db.getOrCreateCart u now st = (c, st1) → State_inv st →
  State_inv st1 ∧ Cart_inv u c ∧ carts st1 !! u = Some c.
Proof.
  intros Heq Hst.
  pose proof (getOrCreateCart_inv u now st Hst) as Hinv.
  pose proof (getOrCreateCart_lookup u now st) as Hlook.
  rewrite Heq in Hinv, Hlook. simpl in *. split_and!; [done| |done].
  by apply Hinv.
Qed.

Lemma release_carts items st :
  carts (Db.release items st) = carts st ∧ orders (Db.release items st) = orders st.
Proof.
  unfold Db.release. revert st. induction items as [|a l IH]; intros st; simpl; [done|].
  destruct (IH (Db.Product_inc (Order.Item.product a) (Order.Item.quantity a)
                  (- Order.Item.quantity a)
                  (- (Order.Item.price a * Qc_of_Z (Order.Item.quantity a)))%Qc st))
    as [-> ->]. done.
Qed.

Lemma reserve_carts items st :
  carts (Db.reserve items st) = carts st ∧ orders (Db.reserve items st) = orders st.
Proof.
  unfold Db.reserve. revert st. induction items as [|a l IH]; intros st; simpl; [done|].
  destruct (IH (Db.Product_inc (Cart.Item.product a) (- Cart.Item.quantity a)
                  (Cart.Item.quantity a)
                  (Cart.Item.price a * Qc_of_Z (Cart.Item.quantity a))%Qc st))
    as [-> ->]. done.
Qed.

Lemma save_order_Ok doc now st o st' :
  Db.save_order doc now st = Ok (o, st') →
  Order.validate (Order.fields doc) = true
  ∧ o = Order.fields (Order.pre_save (N.of_nat (size (orders st))) now doc)
  ∧ st' = Db.set_orders (<[Order._id o := o]> (orders st)) st.
Proof.
  unfold Db.save_order. destruct (Order.validate _); [|done].
  destruct (_ && _); [done|]. by intros [= <- <-].
Qed.

Lemma put_status_carts u id s note env st :
  carts (OrderRoutes.put_status u id s note env st).2 = carts st.
Proof.
  unfold OrderRoutes.put_status.
  destruct (Order.Status_of_string s) as [s'|]; [|done].
  destruct (orders st !! id) as [o|]; [|done].
  destruct (Db.save_order _ _ _) as [[o' st1]|e] eqn:Hsave; [|done].
  apply save_order_Ok in Hsave as (_ & _ & ->). simpl.
  destruct (_ && _); [|done]. by rewrite (proj1 (release_carts _ _)).
Qed.

Lemma put_cancel_carts u id reason env st :
  carts (OrderRoutes.put_cancel u id reason env st).2 = carts st.
Proof.
  unfold OrderRoutes.put_cancel.
  destruct (orders st !! id) as [o|]; [|done].
  destruct (negb _); [done|]. destruct (negb _); [done|].
  destruct (Db.save_order _ _ _) as [[o' st1]|e] eqn:Hsave; [|done].
  apply save_order_Ok in Hsave as (_ & _ & ->). simpl.
  by rewrite (proj1 (release_carts _ _)).
Qed.

(** [POST /api/orders] answers 400 to an invalid body and 500 to every
    other request; all it can change is to create the user's cart. *)
Lemma post_cases u body env st :
  OrderRoutes.post u body env st = (ValidationFailed, st)
  ∨ OrderRoutes.post u body env st
    = (server_error "Server error creating order",
       (Db.getOrCreateCart u (now env) st).2).
Proof.
  unfold OrderRoutes.post. destruct (negb _); [by left|]. right.
  by destruct (Db.getOrCreateCart u (now env) st).
Qed.

Lemma State_inv_carts st st' :
  carts st' = carts st → State_inv st → State_inv st'.
Proof. unfold State_inv. by intros ->. Qed.

(** A route that runs a line-addressing method and saves. *)
Lemma respond_bind_inv u (m : Result Cart.t) c st a b :
  State_inv st → Cart_inv u c →
  (∀ c', m = Ok c' → ∃ l, c' = Cart.set_items l c) →
  State_inv (CartRoutes.respond (c' ← m; Db.save_cart c' st) a b st).2.
Proof.
  intros Hst Hc Hm. destruct m as [c'|e]; simpl; [|done].
  destruct (Hm c' eq_refl) as [l ->].
  apply respond_inv; [done|]. intros Hv.
  replace (Cart.user (Cart.set_items l c)) with u by (symmetry; apply Hc).
  by apply Cart_inv_set_items.
Qed.

Lemma handle_inv req env st : State_inv st → State_inv (handle req env st).2.
Proof.
  intros Hst. destruct req; simpl.
  - unfold CartRoutes.get.
    destruct (Db.getOrCreateCart _ _ _) as [c st1] eqn:Hget.
    by apply getOrCreateCart_cases in Hget as (? & _).
  - unfold CartRoutes.post_items. destruct (negb _); [done|].
    destruct (products st !! productId) as [p|]; [|done].
    destruct (negb _); [done|]. destruct (negb _); [done|].
    destruct (Db.getOrCreateCart _ _ _) as [c st1] eqn:Hget.
    apply getOrCreateCart_cases in Hget as (Hst1 & Hc & _); [|done].
    apply (respond_bind_inv userId _ c); [done..|].
    intros c'. apply addItem_lines.
  - unfold CartRoutes.put_item. destruct (negb _); [done|].
    destruct (Db.getOrCreateCart _ _ _) as [c st1] eqn:Hget.
    apply getOrCreateCart_cases in Hget as (Hst1 & Hc & _); [|done].
    destruct (Cart.items_id itemId c) as [item|]; [|done].
    assert (State_inv
              (CartRoutes.respond
                 (c' ← Cart.updateItemQuantity (products st1)
                         (Cart.product_of (products st1) item)
                         (Held (Cart.Item.variant item)) quantity c;
                  Db.save_cart c' st1)
                 "Cart item updated successfully"
                 "Server error updating cart item" st1).2) as Hupd.
    { apply (respond_bind_inv userId _ c); [done..|].
      intros c'. apply updateItemQuantity_lines. }
    case_bool_decide; [|done].
    destruct (products st1 !! _) as [p|]; [|done].
    by destruct (negb _).
  - unfold CartRoutes.delete_item.
    destruct (Db.getOrCreateCart _ _ _) as [c st1] eqn:Hget.
    apply getOrCreateCart_cases in Hget as (Hst1 & Hc & _); [|done].
    destruct (Cart.items_id itemId c) as [item|]; [|done].
    apply (respond_bind_inv userId _ c); [done..|].
    intros c'. apply removeItem_lines.
  - unfold CartRoutes.delete.
    destruct (Db.getOrCreateCart _ _ _) as [c st1] eqn:Hget.
    apply getOrCreateCart_cases in Hget as (Hst1 & Hc & _); [|done].
    apply respond_inv; [done|]. intros _.
    replace (Cart.user (Cart.clear c)) with userId by (symmetry; apply Hc).
    by apply Cart_inv_clear.
  - unfold CartRoutes.post_coupon. destruct (negb _); [done|].
    destruct (CartRoutes.validCoupons _) as [rule|]; [|done].
    destruct (Db.getOrCreateCart _ _ _) as [c st1] eqn:Hget.
    apply getOrCreateCart_cases in Hget as (Hst1 & Hc & _); [|done].
    case_bool_decide; [done|].
    apply respond_inv; [done|]. intros _.
    replace (Cart.user (Cart.applyCoupon _ _ _ _ _ c)) with userId
      by (symmetry; apply Hc).
    by apply Cart_inv_applyCoupon.
  - unfold CartRoutes.delete_coupon.
    destruct (Db.getOrCreateCart _ _ _) as [c st1] eqn:Hget.
    apply getOrCreateCart_cases in Hget as (Hst1 & Hc & _); [|done].
    apply respond_inv; [done|]. intros _.
    replace (Cart.user (Cart.removeCoupon c)) with userId by (symmetry; apply Hc).
    by apply Cart_inv_removeCoupon.
  - destruct (post_cases userId body env st) as [-> | ->]; simpl; [done|].
    by apply getOrCreateCart_inv.
  - eapply State_inv_carts; [apply put_status_carts|done].
  - eapply State_inv_carts; [apply put_cancel_carts|done].
Qed.

Lemma reachable_inv st : reachable st → State_inv st.
Proof.
  induction 1 as [st Hempty|req env st _ IH|ps st _ IH|u st _ IH].
  - intros u c. by rewrite Hempty, lookup_empty.
  - by apply handle_inv.
  - done.
  - intros u' c. simpl. intros Hc. apply lookup_delete_Some in Hc as [_ Hc].
    by apply IH.
Qed.

(** ** Cart totals *)

Lemma fold_left_sum (g : Cart.Item.t → Qc) l a :
  fold_left (fun sum item => (sum + g item)%Qc) l a = (a + Spec.sum (map g l))%Qc.
Proof.
  revert a. induction l as [|x l IH]; intros a; simpl.
  - ring.
  - rewrite IH. ring.
Qed.

Lemma subtotal_sum c : Cart.subtotal c = Spec.subtotal c.
Proof.
  unfold Cart.subtotal, Spec.subtotal.
  rewrite (fold_left_sum
             (fun item => (Cart.Item.price item * Qc_of_Z (Cart.Item.quantity item))%Qc)).
  ring.
Qed.

Lemma or_zero_default d : Js.or_zero d = default 0%Qc d.
Proof. destruct d as [d|]; simpl; [|done]. by case_bool_decide. Qed.



(** The two coupons of the specification's examples on a subtotal of 100. *)
Example discount_SAVE20_WELCOME10 :
  let cart100 :=
    Sample.cart_of [Sample.line 10] in
  let total_with code :=
    match CartRoutes.validCoupons code with
    | Some rule =>
        Cart.total (Cart.applyCoupon code (CartRoutes.discount rule)
                      (CartRoutes.type rule) 0 0 cart100)
    | None => Cart.total cart100
    end in
  Cart.subtotal cart100 = Qc_of_Z 100
  ∧ total_with "SAVE20" = Qc_of_Z 80
  ∧ total_with "WELCOME10" = Qc_of_Z 90.
Proof. split_and!; apply Qc_is_canon; reflexivity. Qed.


(** ** Quantity bounds of stored cart lines *)

Lemma Item_validate_bounds item :
  Cart.Item.validate item = true →
  1 ≤ Cart.Item.quantity item ≤ 100 ∧ (0 ≤ Cart.Item.price item)%Qc.
Proof.
  unfold Cart.Item.validate. rewrite !andb_true_iff, !bool_decide_eq_true.
  tauto.
Qed.

Lemma validate_elem c item :
  Cart.validate c = true → item ∈ Cart.items c → Cart.Item.validate item = true.
Proof.
  unfold Cart.validate. rewrite forallb_forall. intros H Hin.
  by apply H, list_elem_of_In.
Qed.

Lemma validate_false c item :
  item ∈ Cart.items c → Cart.Item.validate item = false → Cart.validate c = false.
Proof.
  intros Hin Hitem. destruct (Cart.validate c) eqn:Hv; [|done].
  by rewrite (validate_elem c item Hv Hin) in Hitem.
Qed.


(** ** The sample states *)

Lemma st_added_reachable : reachable Scenario.st_added.
Proof. apply reachable_handle. by apply reachable_init. Qed.

Lemma st_added_cart :
  carts Scenario.st_added !! Sample.alice = Some Scenario.cart_added.
Proof. vm_compute. reflexivity. Qed.

Lemma st_added_stored :
  products_stored (products Scenario.st_added) Scenario.cart_added.
Proof. intros item [->|[]%elem_of_nil]%elem_of_cons. by eexists. Qed.

Lemma st_restocked_reachable : reachable Scenario.st_restocked.
Proof. apply reachable_catalogue, st_added_reachable. Qed.

Lemma st_restocked_cart :
  carts Scenario.st_restocked !! Sample.alice = Some Scenario.cart_added.
Proof. vm_compute. reflexivity. Qed.

Lemma st_coupon_reachable : reachable Scenario.st_coupon.
Proof. apply reachable_handle, st_added_reachable. Qed.

Lemma st_coupon_cart :
  carts Scenario.st_coupon !! Sample.alice = Some Scenario.cart_coupon.
Proof. vm_compute. reflexivity. Qed.

Lemma st_twice_reachable : reachable Scenario.st_twice.
Proof. apply reachable_handle, st_added_reachable. Qed.

Lemma st_twice_cart :
  carts Scenario.st_twice !! Sample.alice = Some Scenario.cart_twice.
Proof. vm_compute. reflexivity. Qed.

Lemma st_twice_stored :
  products_stored (products Scenario.st_twice) Scenario.cart_twice.
Proof.
  intros item [->|[->|[]%elem_of_nil]%elem_of_cons]%elem_of_cons; by eexists.
Qed.

(** ** Adding a line *)

Lemma respond_saved c st a b :
  Cart.validate c = true →
  CartRoutes.respond (Db.save_cart c st) a b st
  = (ok a, Db.set_carts (<[Cart.user c := c]> (carts st)) st).
Proof. intros Hv. unfold CartRoutes.respond, Db.save_cart. by rewrite Hv. Qed.

Lemma respond_rejected c st a b :
  Cart.validate c = false →
  CartRoutes.respond (Db.save_cart c st) a b st = (server_error b, st).
Proof. intros Hv. unfold CartRoutes.respond, Db.save_cart. by rewrite Hv. Qed.

(** With every product of the cart stored, [addItem] finds no line for
    the product id of a request: it appends. *)
Lemma addItem_appends ps p v q price now fresh ids c :
  products_stored ps c →
  Cart.addItem ps p v q price now fresh ids c
  = Ok (Cart.set_items
          (Cart.items c
           ++ [Cart.Item.mk fresh p (Variant_cast ids v) q price now]) c).
Proof.
  intros Hps. unfold Cart.addItem.
  rewrite (findIndex_total _ (fun _ => false)).
  - replace (Js.first_index (fun _ : Cart.Item.t => false) (Cart.items c))
      with (@None nat); [done|].
    symmetry. by apply first_index_None.
  - intros x Hx. rewrite same_line_request. by destruct (Hps x Hx) as [y ->].
Qed.

Lemma post_items_rejects u p q v env st :
  q < 1 → CartRoutes.post_items u p q v env st = (ValidationFailed, st).
Proof.
  intros Hq. unfold CartRoutes.post_items.
  by rewrite (bool_decide_eq_false_2 (1 <= q)) by lia.
Qed.

(** The route on a stored cart whose products are all stored: the only
    check on quantities is the validation of the new line. *)
Lemma post_items_appends u p q v env st c product :
  carts st !! u = Some c → Cart.user c = u → Cart.validate c = true →
  products st !! p = Some product →
  Product.status product = Product.active →
  Product.isInStock q product = true →
  1 ≤ q → (0 <= Product.price product)%Qc →
  products_stored (products st) c →
  let line :=
    Cart.Item.mk (fresh env) p (Variant_cast (fresh_option env) v) q
      (Product.price product) (now env) in
  CartRoutes.post_items u p q v env st
  = if bool_decide (q ≤ 100)
    then (ok "Item added to cart successfully",
          Db.set_carts
            (<[u := Cart.set_items (Cart.items c ++ [line]) c]> (carts st)) st)
    else (server_error "Server error adding item to cart", st).
Proof.
  intros Hc Hu Hv Hp Hactive Hstock Hq Hprice Hps line.
  unfold CartRoutes.post_items.
  rewrite (bool_decide_eq_true_2 (1 <= q)) by lia. simpl.
  rewrite Hp, (bool_decide_eq_true_2 _ Hactive), Hstock. simpl.
  rewrite (getOrCreateCart_stored u (now env) st c Hc).
  rewrite (addItem_appends _ _ _ _ _ _ _ _ _ Hps). simpl. fold line.
  assert (Cart.validate (Cart.set_items (Cart.items c ++ [line]) c)
          = bool_decide (q ≤ 100)) as Hline.
  { unfold Cart.validate in *. simpl. rewrite forallb_app, Hv. simpl.
    unfold Cart.Item.validate. simpl.
    rewrite (bool_decide_eq_true_2 (1 <= q)) by lia.
    rewrite (bool_decide_eq_true_2 _ Hprice). by rewrite !andb_true_r. }
  case_bool_decide.
  - rewrite respond_saved by done. simpl. by rewrite Hu.
  - by rewrite respond_rejected.
Qed.

(** C5 (the code departs from it). [POST /api/cart/items] never merges. On a
    cart whose products are all stored, adding a product that is on sale and
    in stock in a quantity between 1 and 100 succeeds and appends a line of
    that quantity behind the lines the cart holds, which stay as they are,
    whether or not one of them is of the same product and variant: adding
    product P without a variant in quantity 2 and then in quantity 3 leaves
    two lines, of 2 and of 3. A quantity below 1 is answered 400 'Validation
    failed' and nothing is written. *)
Theorem post_items_never_merges u p q v env st c product :
  reachable st → carts st !! u = Some c →
  products st !! p = Some product →
  Product.status product = Product.active →
  Product.isInStock q product = true →
  1 ≤ q ≤ 100 → (0 <= Product.price product)%Qc →
  products_stored (products st) c →
  let r := CartRoutes.post_items u p q v env st in
  let line :=
    Cart.Item.mk (fresh env) p (Variant_cast (fresh_option env) v) q
      (Product.price product) (now env) in
  r.1 = ok "Item added to cart successfully"
  ∧ (∃ c', carts r.2 !! u = Some c'
           ∧ Cart.items c' = Cart.items c ++ [line]
           ∧ List.length (Cart.items c') = S (List.length (Cart.items c)))
  ∧ (∀ q', q' < 1 →
           CartRoutes.post_items u p q' v env st = (ValidationFailed, st))
  ∧ map Cart.Item.quantity
    <$> (Cart.items <$> carts Scenario.st_twice !! Sample.alice)
    = Some [2; 3].
Proof.
  intros Hreach Hc Hp Hactive Hstock [Hq Hq100] Hprice Hps r line.
  destruct (reachable_inv st Hreach u c Hc) as [Hu Hv _].
  subst r.
  rewrite (post_items_appends u p q v env st c product Hc Hu Hv Hp Hactive
             Hstock Hq Hprice Hps).
  rewrite (bool_decide_eq_true_2 (q ≤ 100)) by done. simpl.
  split_and!.
  - done.
  - eexists. rewrite lookup_insert_eq. split; [done|]. split; [done|].
    simpl. rewrite length_app. simpl. lia.
  - intros q'. apply post_items_rejects.
  - by rewrite st_twice_cart.
Qed.

(** Two shirts are in the cart; three more are added. *)
Lemma post_items_never_merges_witness :
  let r :=
    CartRoutes.post_items Sample.alice Sample.shirt_id 3 None Sample.env1
      Scenario.st_added in
  reachable Scenario.st_added
  ∧ carts Scenario.st_added !! Sample.alice = Some Scenario.cart_added
  ∧ r.1 = ok "Item added to cart successfully"
  ∧ ∃ c', carts r.2 !! Sample.alice = Some c'
          ∧ Cart.items c'
            = Cart.items Scenario.cart_added ++ [Scenario.line_second].
Proof.
  intros r. split; [exact st_added_reachable|]. split; [exact st_added_cart|].
  assert (1 ≤ 3 ≤ 100) as Hq by lia.
  assert (0 <= Product.price Sample.shirt)%Qc as Hprice by (by vm_compute).
  destruct (post_items_never_merges Sample.alice Sample.shirt_id 3 None
              Sample.env1 Scenario.st_added Scenario.cart_added Sample.shirt
              st_added_reachable st_added_cart eq_refl eq_refl eq_refl Hq Hprice
              st_added_stored) as (H1 & (c' & Hc' & Hitems & _) & _).
  split; [exact H1|]. exists c'. split; [exact Hc'|exact Hitems].
Defined.

(** ** Quantity bounds of stored cart lines *)

(** C10 (the code departs from it). Every stored cart line has a quantity
    between 1 and 100: the validation at save rejects a new line above 100.
    It never sees a merged quantity, as the route does not merge: on a cart
    whose products are all stored, adding a quantity between 1 and 100
    succeeds and stores a further line, also when the cart holds a line of
    the product and the two quantities exceed 100 together (2, then 99 once
    the shop has the stock). *)
Theorem cart_line_quantity_bounds st u c :
  reachable st → carts st !! u = Some c →
  (∀ item, item ∈ Cart.items c → 1 ≤ Cart.Item.quantity item ≤ 100)
  ∧ (∀ p v q env product,
       products st !! p = Some product →
       Product.status product = Product.active →
       Product.isInStock q product = true →
       (0 <= Product.price product)%Qc →
       products_stored (products st) c →
       let r := CartRoutes.post_items u p q v env st in
       (100 < q → r = (server_error "Server error adding item to cart", st))
       ∧ (1 ≤ q ≤ 100 →
          r.1 = ok "Item added to cart successfully"
          ∧ ∃ c', carts r.2 !! u = Some c'
                  ∧ map Cart.Item.quantity (Cart.items c')
                    = map Cart.Item.quantity (Cart.items c) ++ [q]))
  ∧ (let r :=
       CartRoutes.post_items Sample.alice Sample.shirt_id 99 None Sample.env1
         Scenario.st_restocked in
     r.1 = ok "Item added to cart successfully"
     ∧ map Cart.Item.quantity <$> (Cart.items <$> carts r.2 !! Sample.alice)
       = Some [2; 99]).
Proof.
  intros Hreach Hc. destruct (reachable_inv st Hreach u c Hc) as [Hu Hv _].
  split_and!.
  - intros item Hin.
    by apply Item_validate_bounds, (validate_elem c), Hin.
  - intros p v q env product Hp Hactive Hstock Hprice Hps r. subst r. split.
    + intros Hq.
      rewrite (post_items_appends u p q v env st c product Hc Hu Hv Hp Hactive
                 Hstock ltac:(lia) Hprice Hps).
      by rewrite (bool_decide_eq_false_2 (q ≤ 100)) by lia.
    + intros [Hq Hq100].
      rewrite (post_items_appends u p q v env st c product Hc Hu Hv Hp Hactive
                 Hstock Hq Hprice Hps).
      rewrite (bool_decide_eq_true_2 (q ≤ 100)) by done. simpl.
      split; [done|]. eexists. rewrite lookup_insert_eq. split; [done|].
      simpl. by rewrite map_app.
  - by vm_compute.
Qed.

(** The cart of a user who added two shirts. *)
Lemma cart_line_quantity_bounds_witness :
  ∃ st c,
    reachable st ∧ carts st !! Sample.alice = Some c
    ∧ (∀ item, item ∈ Cart.items c → 1 ≤ Cart.Item.quantity item ≤ 100).
Proof.
  exists Scenario.st_added, Scenario.cart_added.
  split; [exact st_added_reachable|]. split; [exact st_added_cart|].
  exact (proj1 (cart_line_quantity_bounds _ _ _ st_added_reachable st_added_cart)).
Defined.

(** ** Setting the quantity of a line *)

Lemma validate_alter (g : Cart.Item.t → Cart.Item.t) i l x :
  forallb Cart.Item.validate l = true → l !! i = Some x →
  Cart.Item.validate (g x) = true →
  forallb Cart.Item.validate (alter g i l) = true.
Proof.
  rewrite !forallb_forall. intros Hl Hi Hg y Hy%list_elem_of_In.
  apply list_elem_of_lookup in Hy as [j Hj].
  destruct (decide (i = j)) as [<-|Hne].
  - rewrite list_lookup_alter_eq, Hi in Hj. by injection Hj as <-.
  - rewrite list_lookup_alter_ne in Hj by done.
    apply Hl, list_elem_of_In, list_elem_of_lookup. eauto.
Qed.

Lemma alter_as_insert {A} (g : A → A) i (l : list A) x :
  l !! i = Some x → alter g i l = <[i := g x]> l.
Proof.
  intros Hi. apply list_eq. intros j. destruct (decide (i = j)) as [<-|Hne].
  - rewrite list_lookup_alter_eq, Hi. simpl.
    rewrite list_lookup_insert_eq; [done|]. by eapply lookup_lt_Some.
  - by rewrite list_lookup_alter_ne, list_lookup_insert_ne.
Qed.

Lemma itemCount_nil c : Cart.items c = [] → Cart.itemCount c = 0.
Proof. unfold Cart.itemCount. by intros ->. Qed.

(** A line is of its own pair: the first line of the pair exists. *)
Lemma first_index_own l (item : Cart.Item.t) :
  item ∈ l →
  ∃ i first, Js.first_index (same_pair item) l = Some i
             ∧ l !! i = Some first
             ∧ Cart.Item.key first = Cart.Item.key item.
Proof.
  intros Hin.
  destruct (Js.first_index (same_pair item) l) as [i|] eqn:Hfind.
  - destruct (first_index_Some _ _ _ Hfind) as (first & Hi & Hsame & _).
    exists i, first. split_and!; [done..|].
    by apply bool_decide_eq_true in Hsame.
  - pose proof (proj1 (first_index_None _ _) Hfind item Hin) as Hno.
    unfold same_pair in Hno. by rewrite bool_decide_eq_true_2 in Hno.
Qed.

(** In a loaded cart whose products are all stored, the comparison with
    the product and the variant of a line is that of the pairs. *)
Lemma same_line_of_line ps c item x :
  products_stored ps c → item ∈ Cart.items c → x ∈ Cart.items c →
  Cart.same_line ps (Cart.product_of ps item) (Held (Cart.Item.variant item)) x
  = Ok (same_pair item x).
Proof.
  intros Hps Hitem Hx. unfold Cart.product_of at 1.
  destruct (Hps item Hitem) as [y ->].
  by rewrite (same_line_held ps _ _ x (Hps x Hx)).
Qed.

Lemma updateItemQuantity_stored ps item q c :
  products_stored ps c → item ∈ Cart.items c →
  ∃ i first,
    Js.first_index (same_pair item) (Cart.items c) = Some i
    ∧ Cart.items c !! i = Some first
    ∧ Cart.updateItemQuantity ps (Cart.product_of ps item)
        (Held (Cart.Item.variant item)) q c
      = Ok (if bool_decide (q ≤ 0)
            then Cart.set_items
                   (List.filter (fun x => negb (same_pair item x)) (Cart.items c)) c
            else Cart.set_items
                   (<[i := Cart.set_quantity q first]> (Cart.items c)) c).
Proof.
  intros Hps Hitem.
  destruct (first_index_own (Cart.items c) item Hitem) as (i & first & Hfind & Hi & _).
  exists i, first. split; [done|]. split; [done|].
  unfold Cart.updateItemQuantity.
  rewrite (findIndex_total _ (same_pair item))
    by (intros x Hx; by apply (same_line_of_line ps c)).
  rewrite Hfind. simpl. case_bool_decide.
  - rewrite (filter_total _ (fun x => negb (same_pair item x))); [done|].
    intros x Hx. by rewrite (same_line_of_line ps c).
  - by rewrite (alter_as_insert _ _ _ first Hi).
Qed.

Lemma removeItem_stored ps item c :
  products_stored ps c → item ∈ Cart.items c →
  Cart.removeItem ps (Cart.product_of ps item) (Held (Cart.Item.variant item)) c
  = Ok (Cart.set_items
          (List.filter (fun x => negb (same_pair item x)) (Cart.items c)) c).
Proof.
  intros Hps Hitem. unfold Cart.removeItem.
  rewrite (filter_total _ (fun x => negb (same_pair item x))); [done|].
  intros x Hx. by rewrite (same_line_of_line ps c).
Qed.

(** With a line whose product is gone, the comparison throws. *)
Lemma removeItem_gone ps r v c x :
  x ∈ Cart.items c → ps !! Cart.Item.product x = None →
  ∃ e, Cart.removeItem ps r v c = Throw e.
Proof.
  intros Hx Hgone. unfold Cart.removeItem.
  destruct (filter_throws
              (fun item => negb <$> Cart.same_line ps r v item) (Cart.items c) x
              (TypeError "Cannot read properties of null (reading 'toString')")
              Hx) as [e ->].
  - by rewrite same_line_gone.
  - by eexists.
Qed.

Lemma updateItemQuantity_null ps v q c x :
  x ∈ Cart.items c → ∃ e, Cart.updateItemQuantity ps Null v q c = Throw e.
Proof.
  intros Hx. unfold Cart.updateItemQuantity.
  destruct (Cart.items c) as [|a l]; [by apply elem_of_nil in Hx|].
  simpl. rewrite same_line_null. by eexists.
Qed.

Lemma product_of_gone ps item :
  ps !! Cart.Item.product item = None → Cart.product_of ps item = Null.
Proof. intros H. unfold Cart.product_of. by rewrite H. Qed.

(** C6 (the code departs from it). [PUT /api/cart/items/:itemId] finds the
    line by its id and then addresses the lines by the product and the
    variant of that line. A negative quantity is answered 400 'Validation
    failed'. On a cart whose products are all stored, quantity 0 removes
    every line of that product and variant, and a positive quantity the
    product can supply sets the quantity of the first such line, which need
    not be the line of the request: in a cart with lines of 2 and of 3 of
    one product, as two additions leave it, setting the second line to 1
    stores 1 and 3, and setting it to 0 stores no line. When the product of
    the line is gone the answer is 500 and nothing is written. *)
Theorem put_item_addresses_pair u itemId q env st c item :
  reachable st → carts st !! u = Some c →
  Cart.items_id itemId c = Some item →
  let r := CartRoutes.put_item u itemId q env st in
  (q < 0 → r = (ValidationFailed, st))
  ∧ (products_stored (products st) c →
     (q = 0 →
      r.1 = ok "Cart item updated successfully"
      ∧ ∃ c', carts r.2 !! u = Some c'
              ∧ Cart.items c'
                = List.filter (fun x => negb (same_pair item x)) (Cart.items c))
     ∧ (0 < q ≤ 100 →
        ∀ product,
          products st !! Cart.Item.product item = Some product →
          Product.isInStock q product = true →
          ∃ i first,
            Js.first_index (same_pair item) (Cart.items c) = Some i
            ∧ Cart.items c !! i = Some first
            ∧ r.1 = ok "Cart item updated successfully"
            ∧ ∃ c', carts r.2 !! u = Some c'
                    ∧ Cart.items c'
                      = <[i := Cart.set_quantity q first]> (Cart.items c)
                    ∧ Cart.Item.quantity <$> Cart.items c' !! i = Some q))
  ∧ (products st !! Cart.Item.product item = None → 0 ≤ q →
     r = (server_error "Server error updating cart item", st))
  ∧ (Cart.Item._id <$> Cart.items_id 101%N Scenario.cart_twice = Some 101%N
     ∧ Cart.Item.quantity <$> Cart.items_id 101%N Scenario.cart_twice = Some 3
     ∧ map Cart.Item.quantity
       <$> (Cart.items
            <$> carts (CartRoutes.put_item Sample.alice 101%N 1 Sample.env0
                         Scenario.st_twice).2 !! Sample.alice)
       = Some [1; 3]
     ∧ map Cart.Item.quantity
       <$> (Cart.items
            <$> carts (CartRoutes.put_item Sample.alice 101%N 0 Sample.env0
                         Scenario.st_twice).2 !! Sample.alice)
       = Some []).
Proof.
  intros Hreach Hc Hid r. subst r.
  destruct (reachable_inv st Hreach u c Hc) as [Hu Hv _].
  pose proof (items_id_elem itemId c item Hid) as Hin.
  split; [|split; [|split]].
  - intros Hq. unfold CartRoutes.put_item.
    by rewrite (bool_decide_eq_false_2 (0 <= q)) by lia.
  - intros Hps.
    destruct (updateItemQuantity_stored (products st) item q c Hps Hin)
      as (i & first & Hfind & Hi & Hupd).
    split.
    + intros ->. unfold CartRoutes.put_item. simpl.
      rewrite (getOrCreateCart_stored u (now env) st c Hc), Hid. simpl.
      rewrite Hupd. simpl.
      rewrite respond_saved by (by apply validate_filter). simpl.
      split; [done|]. eexists. rewrite Hu, lookup_insert_eq. by split.
    + intros [Hq Hq100] product Hp Hstock. exists i, first.
      split; [done|]. split; [done|].
      unfold CartRoutes.put_item.
      rewrite (bool_decide_eq_true_2 (0 <= q)) by lia. simpl.
      rewrite (getOrCreateCart_stored u (now env) st c Hc), Hid.
      rewrite (bool_decide_eq_true_2 (q > 0)) by lia.
      rewrite Hp, Hstock. simpl. rewrite Hupd.
      rewrite (bool_decide_eq_false_2 (q ≤ 0)) by lia. simpl.
      rewrite respond_saved.
      * simpl. split; [done|]. eexists. rewrite Hu, lookup_insert_eq.
        split; [done|]. split; [done|]. simpl.
        rewrite list_lookup_insert_eq by (by eapply lookup_lt_Some). done.
      * unfold Cart.validate. simpl.
        rewrite <-(alter_as_insert (Cart.set_quantity q) i _ first Hi).
        apply (validate_alter _ _ _ first); [done|done|].
        destruct (Item_validate_bounds first) as [_ Hprice].
        { apply (validate_elem c); [done|]. by eapply list_elem_of_lookup_2. }
        unfold Cart.Item.validate. simpl.
        rewrite !bool_decide_eq_true_2; [done|done|lia|lia].
  - intros Hgone Hq. unfold CartRoutes.put_item.
    rewrite (bool_decide_eq_true_2 (0 <= q)) by done. simpl.
    rewrite (getOrCreateCart_stored u (now env) st c Hc), Hid.
    case_bool_decide; [by rewrite Hgone|].
    rewrite (product_of_gone _ _ Hgone).
    by destruct (updateItemQuantity_null (products st)
                   (Held (Cart.Item.variant item)) q c item Hin) as [e ->].
  - by vm_compute.
Qed.

(** The cart with lines of 2 and of 3 shirts; the request names the
    second line. *)
Lemma put_item_addresses_pair_witness :
  let r := CartRoutes.put_item Sample.alice 101%N 1 Sample.env0 Scenario.st_twice in
  reachable Scenario.st_twice
  ∧ carts Scenario.st_twice !! Sample.alice = Some Scenario.cart_twice
  ∧ Cart.items_id 101%N Scenario.cart_twice = Some Scenario.line_second
  ∧ ∃ i first,
      Js.first_index (same_pair Scenario.line_second)
        (Cart.items Scenario.cart_twice) = Some i
      ∧ Cart.items Scenario.cart_twice !! i = Some first
      ∧ r.1 = ok "Cart item updated successfully"
      ∧ ∃ c', carts r.2 !! Sample.alice = Some c'
              ∧ Cart.items c'
                = <[i := Cart.set_quantity 1 first]> (Cart.items Scenario.cart_twice)
              ∧ Cart.Item.quantity <$> Cart.items c' !! i = Some 1.
Proof.
  intros r. split; [exact st_twice_reachable|]. split; [exact st_twice_cart|].
  split; [reflexivity|].
  assert (0 < 1 ≤ 100) as Hq by lia.
  exact (proj2 (proj1 (proj2 (put_item_addresses_pair Sample.alice 101%N 1
                                Sample.env0 Scenario.st_twice Scenario.cart_twice
                                Scenario.line_second st_twice_reachable
                                st_twice_cart eq_refl)) st_twice_stored)
           Hq Sample.shirt eq_refl eq_refl).
Defined.

(** ** Coupons *)





(** ** Orders: status updates and the timeline *)

(** What a status update followed by [save] stores: the status is the
    new one and the timeline grows at its end. *)
Lemma status_update_saved n now s note by_ o :
  let o' :=
    Order.fields
      (Order.pre_save n now (Order.updateStatus s note by_ now (Order.loaded o))) in
  Order._id o' = Order._id o
  ∧ Order.customer o' = Order.customer o
  ∧ Order.items o' = Order.items o
  ∧ Order.status o' = s
  ∧ Order.timeline o'
    = Order.timeline o
      ++ status_entry s note by_ now
         :: (if bool_decide (Order.status o = s) then [] else [hook_entry s now]).
Proof.
  unfold Order.pre_save, Order.updateStatus, Order.loaded. simpl.
  case_bool_decide; simpl; [done|].
  split_and!; [done..|]. by rewrite <-app_assoc.
Qed.

(** Saving a status update of a stored, valid order succeeds. *)
Lemma status_update_save now s note by_ o st :
  Order.validate o = true →
  let o' :=
    Order.fields
      (Order.pre_save (N.of_nat (size (orders st))) now
         (Order.updateStatus s note by_ now (Order.loaded o))) in
  Db.save_order (Order.updateStatus s note by_ now (Order.loaded o)) now st
  = Ok (o', Db.set_orders (<[Order._id o := o']> (orders st)) st).
Proof.
  intros Hv o'. unfold Db.save_order.
  replace (Order.validate (Order.fields (Order.updateStatus s note by_ now (Order.loaded o))))
    with true by (by rewrite <-Hv).
  replace (Order.isNew _) with false.
  - simpl. fold o'. subst o'.
    by rewrite (proj1 (status_update_saved _ now s note by_ o)).
  - unfold Order.pre_save. simpl. by destruct (negb _).
Qed.

Lemma respond_rest c st a b :
  products (CartRoutes.respond (Db.save_cart c st) a b st).2 = products st
  ∧ orders (CartRoutes.respond (Db.save_cart c st) a b st).2 = orders st.
Proof.
  unfold CartRoutes.respond, Db.save_cart. by destruct (Cart.validate c).
Qed.

Lemma respond_bind_rest (m : Result Cart.t) st a b :
  products (CartRoutes.respond (c' ← m; Db.save_cart c' st) a b st).2
  = products st
  ∧ orders (CartRoutes.respond (c' ← m; Db.save_cart c' st) a b st).2
    = orders st.
Proof. destruct m as [c|e]; simpl; [apply respond_rest|done]. Qed.

(** The cart routes and checkout leave products and orders as they are. *)
Lemma cart_requests_rest req env st :
  match req with
  | PutOrderStatus _ _ _ _ | PutOrderCancel _ _ _ => True
  | _ =>
      products (handle req env st).2 = products st
      ∧ orders (handle req env st).2 = orders st
  end.
Proof.
  destruct req; simpl; [| | | | | | | |done|done].
  - unfold CartRoutes.get.
    pose proof (getOrCreateCart_rest userId (now env) st) as Hrest.
    by destruct (Db.getOrCreateCart _ _ _).
  - unfold CartRoutes.post_items. destruct (negb _); [done|].
    destruct (products st !! productId) as [p|]; [|done].
    destruct (negb _); [done|]. destruct (negb _); [done|].
    pose proof (getOrCreateCart_rest userId (now env) st) as [Hp Ho].
    destruct (Db.getOrCreateCart _ _ _) as [c st1]. simpl in Hp, Ho.
    rewrite <-Hp, <-Ho. apply respond_bind_rest.
  - unfold CartRoutes.put_item. destruct (negb _); [done|].
    pose proof (getOrCreateCart_rest userId (now env) st) as [Hp Ho].
    destruct (Db.getOrCreateCart _ _ _) as [c st1]. simpl in Hp, Ho.
    destruct (Cart.items_id itemId c) as [item|]; [|done].
    rewrite <-Hp, <-Ho.
    case_bool_decide; [|apply respond_bind_rest].
    destruct (products st1 !! _) as [p|]; [|done].
    destruct (negb _); [done|apply respond_bind_rest].
  - unfold CartRoutes.delete_item.
    pose proof (getOrCreateCart_rest userId (now env) st) as [Hp Ho].
    destruct (Db.getOrCreateCart _ _ _) as [c st1]. simpl in Hp, Ho.
    destruct (Cart.items_id itemId c) as [item|]; [|done].
    rewrite <-Hp, <-Ho. apply respond_bind_rest.
  - unfold CartRoutes.delete.
    pose proof (getOrCreateCart_rest userId (now env) st) as [Hp Ho].
    destruct (Db.getOrCreateCart _ _ _) as [c st1]. simpl in Hp, Ho.
    rewrite <-Hp, <-Ho. apply respond_rest.
  - unfold CartRoutes.post_coupon. destruct (negb _); [done|].
    destruct (CartRoutes.validCoupons _) as [rule|]; [|done].
    pose proof (getOrCreateCart_rest userId (now env) st) as [Hp Ho].
    destruct (Db.getOrCreateCart _ _ _) as [c st1]. simpl in Hp, Ho.
    case_bool_decide; [done|].
    rewrite <-Hp, <-Ho. apply respond_rest.
  - unfold CartRoutes.delete_coupon.
    pose proof (getOrCreateCart_rest userId (now env) st) as [Hp Ho].
    destruct (Db.getOrCreateCart _ _ _) as [c st1]. simpl in Hp, Ho.
    rewrite <-Hp, <-Ho. apply respond_rest.
  - destruct (post_cases userId body env st) as [-> | ->]; simpl; [done|].
    apply getOrCreateCart_rest.
Qed.

(** *** The status route *)

Lemma put_status_cases u id status note env st :
  let r := OrderRoutes.put_status u id status note env st in
  r.2 = st
  ∨ ∃ s o,
      Order.Status_of_string status = Some s ∧ orders st !! id = Some o
      ∧ r = (ok "Order status updated successfully",
             Db.set_orders
               (<[Order._id o :=
                    Order.fields
                      (Order.pre_save (N.of_nat (size (orders st))) (now env)
                         (Order.updateStatus s (Js.trim <$> note) (Some u) (now env)
                            (Order.loaded o)))]> (orders st)) st).
Proof.
  intros r. subst r. unfold OrderRoutes.put_status.
  destruct (Order.Status_of_string status) as [s|]; [|by left].
  destruct (orders st !! id) as [o|] eqn:Ho; [|by left].
  destruct (Db.save_order _ _ _) as [[o' st1]|e] eqn:Hsave; [|by left].
  right. exists s, o. split_and!; [done..|].
  apply save_order_Ok in Hsave as (_ & -> & ->).
  pose proof (status_update_saved (N.of_nat (size (orders st))) (now env) s
                (Js.trim <$> note) (Some u) o) as (Hid & _ & _ & Hs & _).
  simpl in Hid, Hs. rewrite Hs, Hid.
  by destruct (bool_decide (s = Order.cancelled)).
Qed.

(** *** The cancel route *)

Lemma put_cancel_cases u id reason env st :
  let r := OrderRoutes.put_cancel u id reason env st in
  (r.2 = st ∧ res_success r.1 = false)
  ∨ ∃ o,
      orders st !! id = Some o ∧ Order.customer o = u
      ∧ Order.status o ∈ [Order.pending; Order.confirmed]
      ∧ let o' :=
          Order.fields
            (Order.pre_save (N.of_nat (size (orders st))) (now env)
               (Order.updateStatus Order.cancelled
                  (Some (Js.or_string (Js.trim <$> reason) "Cancelled by customer"))
                  (Some u) (now env) (Order.loaded o))) in
        r = (ok "Order cancelled successfully",
             Db.release (Order.items o)
               (Db.set_orders (<[Order._id o := o']> (orders st)) st)).
Proof.
  intros r. subst r. unfold OrderRoutes.put_cancel.
  destruct (orders st !! id) as [o|] eqn:Ho; [|by left].
  case_bool_decide as Hcust; simpl; [|by left].
  case_bool_decide as Hstatus; simpl; [|by left].
  destruct (Db.save_order _ _ _) as [[o' st1]|e] eqn:Hsave; [|by left].
  right. exists o. split_and!; [done..|].
  apply save_order_Ok in Hsave as (_ & -> & ->).
  pose proof (status_update_saved (N.of_nat (size (orders st))) (now env)
                Order.cancelled
                (Some (Js.or_string (Js.trim <$> reason) "Cancelled by customer"))
                (Some u) o) as (Hid & _ & Hitems & _).
  simpl in Hid, Hitems. by rewrite Hitems, Hid.
Qed.

(** C9. For an order of the requesting customer: cancellation from
    processing, shipped, delivered, cancelled or refunded is rejected with
    InvalidTransition and changes nothing (status, timeline and inventory
    included); a cancellation that succeeds started from pending or
    confirmed. *)
Theorem put_cancel_only_early u id reason env st o :
  orders st !! id = Some o → Order.customer o = u →
  (Order.status o ∈ [Order.processing; Order.shipped; Order.delivered;
                     Order.cancelled; Order.refunded] →
   OrderRoutes.put_cancel u id reason env st = (InvalidTransition, st))
  ∧ (res_success (OrderRoutes.put_cancel u id reason env st).1 = true →
     Order.status o ∈ [Order.pending; Order.confirmed]).
Proof.
  intros Ho Hcust. split.
  - intros Hlate. unfold OrderRoutes.put_cancel. rewrite Ho.
    rewrite (bool_decide_eq_true_2 _ Hcust). simpl.
    rewrite bool_decide_eq_false_2; [done|].
    intros Hearly. revert Hlate Hearly.
    rewrite !elem_of_cons, !elem_of_nil.
    destruct (Order.status o); intuition discriminate.
  - intros Hok.
    destruct (put_cancel_cases u id reason env st) as [[_ Hfail]|(o' & Ho' & _ & Hs & _)].
    + congruence.
    + rewrite Ho in Ho'. by injection Ho' as <-.
Qed.

(** Cancelling a delivered order is rejected and changes nothing. *)
Lemma put_cancel_only_early_witness :
  orders (Sample.st_order Order.delivered) !! Sample.order_id
  = Some (Sample.order_in Order.delivered)
  ∧ Order.customer (Sample.order_in Order.delivered) = Sample.alice
  ∧ Order.status (Sample.order_in Order.delivered)
    ∈ [Order.processing; Order.shipped; Order.delivered;
       Order.cancelled; Order.refunded]
  ∧ OrderRoutes.put_cancel Sample.alice Sample.order_id None Sample.env0
      (Sample.st_order Order.delivered)
    = (InvalidTransition, Sample.st_order Order.delivered).
Proof.
  assert (orders (Sample.st_order Order.delivered) !! Sample.order_id
          = Some (Sample.order_in Order.delivered)) as H1 by reflexivity.
  assert (Order.customer (Sample.order_in Order.delivered) = Sample.alice) as H2
    by reflexivity.
  assert (Order.status (Sample.order_in Order.delivered)
          ∈ [Order.processing; Order.shipped; Order.delivered;
             Order.cancelled; Order.refunded]) as H3.
  { do 2 right. left. }
  split_and!; [done..|].
  exact (proj1 (put_cancel_only_early Sample.alice Sample.order_id None Sample.env0
                  (Sample.st_order Order.delivered) _ H1 H2) H3).
Defined.

(** ** Inventory release on cancellation *)

Lemma inc_inc a b c a' b' c' x :
  Product.inc a b c (Product.inc a' b' c' x)
  = Product.inc (a' + a) (b' + b) (c' + c)%Qc x.
Proof.
  unfold Product.inc. simpl. f_equal; [lia|lia|ring].
Qed.

Lemma inc_zero x : Product.inc 0 0 0%Qc x = x.
Proof.
  destruct x. unfold Product.inc. simpl. f_equal; [lia|lia|ring].
Qed.

Lemma Product_inc_lookup id dq ds dr st p :
  products (Db.Product_inc id dq ds dr st) !! p
  = if decide (id = p) then Product.inc dq ds dr <$> products st !! p
    else products st !! p.
Proof.
  unfold Db.Product_inc. simpl. destruct (decide (id = p)) as [->|Hne].
  - by rewrite lookup_alter_eq.
  - by rewrite lookup_alter_ne.
Qed.

(** The restore loop adds, per product, the quantities of the order's
    lines of that product to [inventory.quantity] and takes them, and their
    price × quantity, from the sales counters. *)
Lemma release_lookup items st p :
  products (Db.release items st) !! p
  = Product.inc (released_quantity p items) (- released_quantity p items)
      (- released_revenue p items)%Qc
    <$> products st !! p.
Proof.
  unfold Db.release. revert st. induction items as [|a l IH]; intros st; simpl.
  - destruct (products st !! p) as [x|]; simpl; [|done]. f_equal.
    replace (- 0)%Qc with 0%Qc by ring. by rewrite inc_zero.
  - rewrite IH, Product_inc_lookup. case_bool_decide as Hp.
    + rewrite decide_True by done.
      destruct (products st !! p) as [x|]; simpl; [|done]. f_equal.
      rewrite inc_inc. f_equal; first [lia | ring].
    + by rewrite decide_False.
Qed.

Lemma put_status_products u id status note env st :
  products (OrderRoutes.put_status u id status note env st).2 = products st.
Proof.
  destruct (put_status_cases u id status note env st) as [->|(s & o & _ & _ & ->)];
    done.
Qed.

(** C2 (the code departs from it). The status route never touches a
    product: setting an order to cancelled through it succeeds, stores the
    cancelled status, and releases nothing, because its guard reads
    [order.status] after [updateStatus] has already set it.  The customer
    cancel route releases every line once. *)
Theorem put_status_never_releases u id status note env st :
  products (OrderRoutes.put_status u id status note env st).2 = products st
  ∧ let r :=
      OrderRoutes.put_status Sample.admin Sample.order_id "cancelled" None
        Sample.env0 (Sample.st_order Order.pending) in
    r.1 = ok "Order status updated successfully"
    ∧ Order.status <$> orders r.2 !! Sample.order_id = Some Order.cancelled
    ∧ Product.quantity <$> products r.2 !! Sample.shirt_id = Some 3
    ∧ Product.quantity
      <$> products
            (OrderRoutes.put_cancel Sample.alice Sample.order_id None Sample.env0
               (Sample.st_order Order.pending)).2 !! Sample.shirt_id
      = Some 5.
Proof.
  split; [apply put_status_products|].
  vm_compute. by split_and!.
Qed.

(** The customer route, for comparison: a successful cancellation
    releases the lines of the order. *)
Lemma put_cancel_releases u id reason env st p :
  res_success (OrderRoutes.put_cancel u id reason env st).1 = true →
  ∃ o, orders st !! id = Some o
       ∧ products (OrderRoutes.put_cancel u id reason env st).2 !! p
         = Product.inc (released_quantity p (Order.items o))
             (- released_quantity p (Order.items o))
             (- released_revenue p (Order.items o))%Qc
           <$> products st !! p.
Proof.
  intros Hok.
  destruct (put_cancel_cases u id reason env st) as [[_ Hfail]|(o & Ho & _ & _ & Hr)].
  - congruence.
  - exists o. split; [done|]. simpl in Hr. rewrite Hr. simpl.
    by rewrite release_lookup.
Qed.

(** ** The timeline *)

Lemma Order_create_timeline data now st o st' :
  Db.Order_create data now st = Ok (o, st') →
  Order.timeline o = Order.timeline data ∧ Order.status o = Order.status data.
Proof.
  unfold Db.Order_create. intros (_ & -> & _)%save_order_Ok.
  unfold Order.pre_save. simpl. by destruct (negb _).
Qed.

Lemma updateStatus_appends s note by_ now doc :
  Order.status (Order.fields (Order.updateStatus s note by_ now doc)) = s
  ∧ Order.timeline (Order.fields (Order.updateStatus s note by_ now doc))
    = Order.timeline (Order.fields doc) ++ [status_entry s note by_ now].
Proof. done. Qed.

Lemma handle_keyed req env st : orders_keyed st → orders_keyed (handle req env st).2.
Proof.
  intros Hkeyed.
  pose proof (cart_requests_rest req env st) as Hrest.
  destruct req; try (unfold orders_keyed; by rewrite (proj2 Hrest)).
  - simpl.
    destruct (put_status_cases userId id status note env st)
      as [->|(s & o & _ & Ho & ->)]; [done|].
    intros id' o'. simpl. rewrite lookup_insert. case_decide as Hid.
    + intros [= <-]. rewrite <-Hid.
      apply (status_update_saved _ (now env) s (Js.trim <$> note) (Some userId) o).
    + apply Hkeyed.
  - simpl.
    destruct (put_cancel_cases userId id reason env st)
      as [[-> _]|(o & Ho & _ & _ & Hr)]; [done|].
    simpl in Hr. rewrite Hr. intros id' o'. simpl.
    rewrite (proj2 (release_carts _ _)). simpl.
    rewrite lookup_insert. case_decide as Hid.
    + intros [= <-]. rewrite <-Hid.
      apply (status_update_saved _ (now env) Order.cancelled
               (Some (Js.or_string (Js.trim <$> reason) "Cancelled by customer"))
               (Some userId) o).
    + apply Hkeyed.
Qed.

(** The order a request leaves stored under [id], and how its timeline
    relates to the one stored before. *)
Lemma handle_timeline req env st id o :
  orders_keyed st → orders st !! id = Some o →
  ∃ o', orders (handle req env st).2 !! id = Some o'
        ∧ match req with
          | PutOrderStatus u i status note =>
              o' = o
              ∨ (i = id
                 ∧ ∃ s rest,
                     Order.Status_of_string status = Some s
                     ∧ Order.status o' = s
                     ∧ Order.timeline o'
                       = Order.timeline o
                         ++ status_entry s (Js.trim <$> note) (Some u) (now env)
                            :: rest)
          | PutOrderCancel u i reason =>
              o' = o
              ∨ (i = id
                 ∧ ∃ rest,
                     Order.status o' = Order.cancelled
                     ∧ Order.timeline o'
                       = Order.timeline o
                         ++ status_entry Order.cancelled
                              (Some (Js.or_string (Js.trim <$> reason)
                                       "Cancelled by customer"))
                              (Some u) (now env)
                            :: rest)
          | _ => o' = o
          end.
Proof.
  intros Hkeyed Ho.
  pose proof (cart_requests_rest req env st) as Hrest.
  destruct req; try (exists o; by rewrite (proj2 Hrest)).
  - simpl.
    destruct (put_status_cases userId id0 status note env st)
      as [->|(s & o0 & Hs & Ho0 & ->)]; [exists o; by split; [|left]|].
    simpl. rewrite (Hkeyed _ _ Ho0).
    destruct (decide (id0 = id)) as [->|Hne].
    + rewrite lookup_insert_eq. eexists. split; [done|]. right. split; [done|].
      assert (o0 = o) as -> by congruence.
      pose proof (status_update_saved (N.of_nat (size (orders st))) (now env) s
                    (Js.trim <$> note) (Some userId) o) as (_ & _ & _ & Hst & Htl).
      exists s. eexists. split; [done|]. split; [exact Hst|exact Htl].
    + rewrite lookup_insert_ne by done. exists o. by split; [|left].
  - simpl.
    destruct (put_cancel_cases userId id0 reason env st)
      as [[-> _]|(o0 & Ho0 & _ & _ & Hr)]; [exists o; by split; [|left]|].
    simpl in Hr. rewrite Hr. simpl. rewrite (proj2 (release_carts _ _)). simpl.
    rewrite (Hkeyed _ _ Ho0).
    destruct (decide (id0 = id)) as [->|Hne].
    + rewrite lookup_insert_eq. eexists. split; [done|]. right. split; [done|].
      assert (o0 = o) as -> by congruence.
      pose proof (status_update_saved (N.of_nat (size (orders st))) (now env)
                    Order.cancelled
                    (Some (Js.or_string (Js.trim <$> reason) "Cancelled by customer"))
                    (Some userId) o) as (_ & _ & _ & Hst & Htl).
      eexists. split; [exact Hst|exact Htl].
    + rewrite lookup_insert_ne by done. exists o. by split; [|left].
Qed.

(** C1 (as the code has it). Creating an order adds no timeline entry:
    the created order has the timeline of its data, and checkout's order
    data has none.  [updateStatus] sets the status and appends exactly one
    entry (status, time, note, actor).  Whatever the request, the timeline
    stored before is a prefix of the one stored after, so the timeline never
    shrinks and no entry is edited or reordered; and a request that changes
    the status of an order makes its timeline longer. *)
Theorem timeline_append_only req env st id o :
  orders_keyed st → orders st !! id = Some o →
  (∃ o', orders (handle req env st).2 !! id = Some o'
         ∧ Order.timeline o `prefix_of` Order.timeline o'
         ∧ (Order.status o' ≠ Order.status o →
            (List.length (Order.timeline o) < List.length (Order.timeline o'))%nat))
  ∧ (∀ s note by_ now doc,
       Order.status (Order.fields (Order.updateStatus s note by_ now doc)) = s
       ∧ Order.timeline (Order.fields (Order.updateStatus s note by_ now doc))
         = Order.timeline (Order.fields doc) ++ [status_entry s note by_ now])
  ∧ (∀ data now st0 o0 st',
       Db.Order_create data now st0 = Ok (o0, st') →
       Order.timeline o0 = Order.timeline data)
  ∧ (∀ u body cart oid,
       Order.timeline (OrderRoutes.orderData u body cart oid) = []).
Proof.
  intros Hkeyed Ho. split_and!.
  - destruct (handle_timeline req env st id o Hkeyed Ho) as (o' & Ho' & Hcases).
    exists o'. split; [done|].
    assert (o' = o ∨ ∃ e rest, Order.timeline o' = Order.timeline o ++ e :: rest)
      as [->|(e & rest & Htl)].
    { destruct req; try (by left).
      - destruct Hcases as [?|(_ & s & rest & _ & _ & Htl)]; [by left|right; eauto].
      - destruct Hcases as [?|(_ & rest & _ & Htl)]; [by left|right; eauto]. }
    + split; [done|]. intros Hne. by destruct Hne.
    + rewrite Htl. split; [by apply prefix_app_r|].
      intros _. rewrite length_app. simpl. lia.
  - intros. apply updateStatus_appends.
  - intros data now0 st0 o0 st' Hcreate.
    by apply Order_create_timeline in Hcreate as [? _].
  - done.
Qed.

(** Confirming a pending order extends its timeline. *)
Lemma timeline_append_only_witness :
  orders_keyed (Sample.st_order Order.pending)
  ∧ orders (Sample.st_order Order.pending) !! Sample.order_id
    = Some (Sample.order_in Order.pending)
  ∧ ∃ o', orders
            (handle (PutOrderStatus Sample.admin Sample.order_id "confirmed" None)
               Sample.env0 (Sample.st_order Order.pending)).2 !! Sample.order_id
          = Some o'
          ∧ Order.timeline (Sample.order_in Order.pending)
            `prefix_of` Order.timeline o'
          ∧ (Order.status o' ≠ Order.status (Sample.order_in Order.pending) →
             (List.length (Order.timeline (Sample.order_in Order.pending))
              < List.length (Order.timeline o'))%nat).
Proof.
  assert (orders_keyed (Sample.st_order Order.pending)) as H1.
  { intros id o. simpl. by intros [<- <-]%lookup_singleton_Some. }
  assert (orders (Sample.st_order Order.pending) !! Sample.order_id
          = Some (Sample.order_in Order.pending)) as H2 by reflexivity.
  split; [exact H1|]. split; [exact H2|].
  exact (proj1 (timeline_append_only
                  (PutOrderStatus Sample.admin Sample.order_id "confirmed" None)
                  Sample.env0 _ _ _ H1 H2)).
Defined.

(** C1 as stated fails at creation: the order created for a cart of one
    line has an empty timeline, not one initial entry. *)
Lemma order_creation_leaves_timeline_empty :
  ∃ o st',
    Db.Order_create Sample.orderData 0 Sample.st_cart2 = Ok (o, st')
    ∧ List.length (Order.timeline o) = 0%nat
    ∧ List.length (Order.timeline o) ≠ (0 + 1)%nat.
Proof.
  eexists _, _. split; [reflexivity|]. split; [reflexivity|]. simpl. lia.
Qed.

(** One status change through the status route stores two entries: the
    one of [updateStatus] and the one of the pre-save hook. *)
Example status_route_appends_twice :
  let st' :=
    (OrderRoutes.put_status Sample.admin Sample.order_id "confirmed" (Some "ok")
       Sample.env0 (Sample.st_order Order.pending)).2 in
  Order.timeline <$> orders st' !! Sample.order_id
  = Some [Sample.entry0;
          Order.Entry.mk Order.confirmed 1000 "ok" (Some Sample.admin);
          Order.Entry.mk Order.confirmed 1000 "Status changed to confirmed" None].
Proof. vm_compute. reflexivity. Qed.

(** ** Checkout *)

(** What the handler is written to do from the empty-cart guard on:
    an empty cart is answered with EmptyCart and nothing changes. *)
Lemma post_continue_empty u body cart env st :
  Cart.items cart = [] →
  OrderRoutes.post_continue u body cart env st = (EmptyCart, st).
Proof. intros Hnil. unfold OrderRoutes.post_continue. by rewrite Hnil. Qed.

(** [Order.create] is given no [orderNumber]; the path is required and
    validation runs before the pre-save hook that would generate it. *)
Lemma Order_create_orderData_fails u body cart oid now st :
  Db.Order_create (OrderRoutes.orderData u body cart oid) now st
  = Throw (ValidationError "Order validation failed").
Proof. done. Qed.

Lemma check_items_rejection ps l r :
  OrderRoutes.check_items ps l = Some r → res_success r = false.
Proof.
  induction l as [|x l IH]; simpl; [done|].
  destruct (ps !! _) as [p|]; [|by intros [= <-]].
  destruct (negb _); [by intros [= <-]|].
  destruct (negb _); [by intros [= <-]|]. exact IH.
Qed.

Lemma post_continue_never_creates u body cart env st :
  (OrderRoutes.post_continue u body cart env st).2 = st
  ∧ res_success (OrderRoutes.post_continue u body cart env st).1 = false.
Proof.
  unfold OrderRoutes.post_continue. case_bool_decide; [done|].
  destruct (OrderRoutes.check_items _ _) as [r|] eqn:Hcheck.
  - split; [done|]. simpl. by eapply check_items_rejection.
  - by rewrite Order_create_orderData_fails.
Qed.

(** C3 (the code departs from it). Checkout never succeeds: whatever the
    cart, the answer is 400 (invalid body) or 500, no product and no order
    changes, and the cart of a user who has one is left as it is. *)
Theorem checkout_never_succeeds u body env st :
  res_success (OrderRoutes.post u body env st).1 = false
  ∧ products (OrderRoutes.post u body env st).2 = products st
  ∧ orders (OrderRoutes.post u body env st).2 = orders st
  ∧ (∀ c, carts st !! u = Some c → (OrderRoutes.post u body env st).2 = st)
  ∧ let r := OrderRoutes.post Sample.alice Sample.body Sample.env0 Sample.st_cart2 in
    OrderRoutes.check_items (products Sample.st_cart2) (Cart.items Sample.cart2) = None
    ∧ r.1 = server_error "Server error creating order"
    ∧ r.2 = Sample.st_cart2.
Proof.
  split_and!.
  - by destruct (post_cases u body env st) as [-> | ->].
  - destruct (post_cases u body env st) as [-> | ->]; [done|].
    apply getOrCreateCart_rest.
  - destruct (post_cases u body env st) as [-> | ->]; [done|].
    apply getOrCreateCart_rest.
  - intros c Hc. destruct (post_cases u body env st) as [-> | ->]; [done|].
    by rewrite (getOrCreateCart_stored u (now env) st c Hc).
  - by split_and!.
Qed.

(** C8 (the code departs from it). Checkout on a stored cart without
    items changes nothing, as specified, but the answer is the 500 of the
    handler's [catch], not EmptyCart: the handler throws while fetching the
    cart and never reaches its empty-cart guard. *)
Theorem checkout_empty_cart u body env st c :
  carts st !! u = Some c → Cart.items c = [] →
  OrderRoutes.body_valid (OrderRoutes.sanitize body) = true →
  OrderRoutes.post u body env st
  = (server_error "Server error creating order", st)
  ∧ OrderRoutes.post u body env st ≠ (EmptyCart, st)
  ∧ OrderRoutes.post_continue u (OrderRoutes.sanitize body) c env st
    = (EmptyCart, st).
Proof.
  intros Hc Hnil Hbody.
  assert (OrderRoutes.post u body env st
          = (server_error "Server error creating order", st)) as Hpost.
  { unfold OrderRoutes.post. rewrite Hbody. simpl.
    by rewrite (getOrCreateCart_stored u (now env) st c Hc). }
  split_and!; [done| |by apply post_continue_empty].
  rewrite Hpost. intros [=].
Qed.

(** Checkout of a stored empty cart. *)
Lemma checkout_empty_cart_witness :
  carts Sample.st_empty_cart !! Sample.alice = Some Sample.empty_cart
  ∧ Cart.items Sample.empty_cart = []
  ∧ OrderRoutes.body_valid (OrderRoutes.sanitize Sample.body) = true
  ∧ OrderRoutes.post Sample.alice Sample.body Sample.env0 Sample.st_empty_cart
    = (server_error "Server error creating order", Sample.st_empty_cart).
Proof.
  assert (carts Sample.st_empty_cart !! Sample.alice = Some Sample.empty_cart) as H1
    by reflexivity.
  assert (OrderRoutes.body_valid (OrderRoutes.sanitize Sample.body) = true) as H3
    by (vm_compute; reflexivity).
  split_and!; [done..|].
  exact (proj1 (checkout_empty_cart Sample.alice Sample.body Sample.env0
                  Sample.st_empty_cart Sample.empty_cart H1 eq_refl H3)).
Defined.

(** ** Reservation and release are symmetric *)

Lemma reserve_lookup items st p :
  products (Db.reserve items st) !! p
  = Product.inc (- released_quantity p (map OrderRoutes.orderItem items))
      (released_quantity p (map OrderRoutes.orderItem items))
      (released_revenue p (map OrderRoutes.orderItem items))
    <$> products st !! p.
Proof.
  unfold Db.reserve. revert st. induction items as [|a l IH]; intros st; simpl.
  - destruct (products st !! p) as [x|]; simpl; [|done]. f_equal.
    by rewrite inc_zero.
  - rewrite IH, Product_inc_lookup. case_bool_decide as Hp.
    + rewrite decide_True by done.
      destruct (products st !! p) as [x|]; simpl; [|done]. f_equal.
      rewrite inc_inc. f_equal; first [lia | ring].
    + by rewrite decide_False.
Qed.

(** Releasing the lines of the order of a cart undoes the reservation of
    that cart, product by product.  For the revenue this is an identity of
    exact arithmetic: with floating-point numbers the sum that is added
    and subtracted again comes back up to rounding only. *)
Lemma release_reserve items st :
  products (Db.release (map OrderRoutes.orderItem items) (Db.reserve items st))
  = products st.
Proof.
  apply map_eq. intros p. rewrite release_lookup, reserve_lookup.
  destruct (products st !! p) as [x|]; simpl; [|done]. f_equal.
  rewrite inc_inc. rewrite <-(inc_zero x) at 2. f_equal; first [lia | ring].
Qed.

(** The customer route succeeds on a valid pending or confirmed order of
    the customer, and releases its lines. *)
Lemma put_cancel_ok u id reason env st o :
  orders st !! id = Some o → Order._id o = id → Order.customer o = u →
  Order.status o ∈ [Order.pending; Order.confirmed] →
  Order.validate o = true →
  ∃ o',
    OrderRoutes.put_cancel u id reason env st
    = (ok "Order cancelled successfully",
       Db.release (Order.items o)
         (Db.set_orders (<[id := o']> (orders st)) st))
    ∧ Order.status o' = Order.cancelled.
Proof.
  intros Ho Hid Hcust Hstatus Hv. unfold OrderRoutes.put_cancel. rewrite Ho.
  rewrite (bool_decide_eq_true_2 _ Hcust), (bool_decide_eq_true_2 _ Hstatus). simpl.
  rewrite status_update_save by done.
  pose proof (status_update_saved (N.of_nat (size (orders st))) (now env)
                Order.cancelled
                (Some (Js.or_string (Js.trim <$> reason) "Cancelled by customer"))
                (Some u) o) as (_ & _ & Hitems & Hst & _).
  eexists. split; [|exact Hst]. simpl in Hitems. by rewrite Hitems, Hid.
Qed.

(** ** The model on concrete inputs *)

Example trim_toUpperCase :
  Js.toUpperCase (Js.trim "  welcome10 ") = "WELCOME10"
  ∧ Js.trim "   " = ""
  ∧ Js.padStart0 6 "12" = "000012".
Proof. by split_and!. Qed.

Example validCoupons_table :
  CartRoutes.validCoupons "WELCOME10"
  = Some (CartRoutes.mkRule (Qc_of_Z 10) Cart.Coupon.percentage)
  ∧ CartRoutes.validCoupons "SAVE20"
    = Some (CartRoutes.mkRule (Qc_of_Z 20) Cart.Coupon.fixed)
  ∧ CartRoutes.validCoupons "FREESHIP"
    = Some (CartRoutes.mkRule (Qc_of_Z 0) Cart.Coupon.fixed)
  ∧ CartRoutes.validCoupons "save20" = None.
Proof. by split_and!. Qed.

Example isInStock_cases :
  Product.isInStock 3 Sample.shirt = true
  ∧ Product.isInStock 4 Sample.shirt = false
  ∧ Product.isInStock 4
      (Product.mk "Shirt" (Qc_of_Z 10) true 3 true Product.active 0 0%Qc) = true
  ∧ Product.isInStock 4
      (Product.mk "Shirt" (Qc_of_Z 10) false 0 false Product.active 0 0%Qc) = true.
Proof. by split_and!. Qed.

(** The number the pre-save hook gives the first order, were the hook to
    run on a document without one. *)
Example pre_save_orderNumber :
  Order.orderNumber
    (Order.fields
       (Order.pre_save 0 1000
          (Order.mkDoc
             (OrderRoutes.orderData Sample.alice Sample.body Sample.cart2
                Sample.order_id) true true)))
  = Some "ORD-000001".
Proof. reflexivity. Qed.

(** The customer cancels a pending order: two shirts go back to stock
    and leave the sales counters. *)
Example cancel_pending_restores :
  let r :=
    OrderRoutes.put_cancel Sample.alice Sample.order_id None Sample.env0
      (Sample.st_order Order.pending) in
  r.1 = ok "Order cancelled successfully"
  ∧ Order.status <$> orders r.2 !! Sample.order_id = Some Order.cancelled
  ∧ (fun p => (Product.quantity p, Product.totalSold p))
    <$> products r.2 !! Sample.shirt_id = Some (5, -2)
  ∧ Product.totalRevenue <$> products r.2 !! Sample.shirt_id
    = Some (Qc_of_Z (-20)).
Proof.
  split_and!; [by vm_compute..|].
  vm_compute. f_equal. by apply Qc_is_canon.
Qed.


(** * Further properties *)

(** ** What the requests can do to a stored cart *)

Section carts_all.
Context (P : Cart.t → Prop).
Hypothesis P_new : ∀ u now, P (Cart.new u now).
Hypothesis P_items : ∀ c l, P c → P (Cart.set_items l c).
Hypothesis P_clear : ∀ c, P c → P (Cart.clear c).
Hypothesis P_removeCoupon : ∀ c, P c → P (Cart.removeCoupon c).
Hypothesis P_applyCoupon :
  ∀ c key rule now later,
    P c → CartRoutes.validCoupons key = Some rule →
    P (Cart.applyCoupon key (CartRoutes.discount rule) (CartRoutes.type rule)
         (now + 24 * 60 * 60 * 1000) (now + Z.of_N later) c).

Lemma getOrCreateCart_all u now st :
  carts_all P st →
  carts_all P (Db.getOrCreateCart u now st).2 ∧ P (Db.getOrCreateCart u now st).1.
Proof.
  intros Hst. unfold Db.getOrCreateCart.
  destruct (carts st !! u) as [c|] eqn:Hu; simpl.
  - split; [done|]. by eapply Hst.
  - split; [|apply P_new]. intros u' c'. simpl.
    rewrite lookup_insert. case_decide; [intros [= <-]; apply P_new|apply Hst].
Qed.

Lemma respond_all c st a b :
  carts_all P st → P c →
  carts_all P (CartRoutes.respond (Db.save_cart c st) a b st).2.
Proof.
  intros Hst Hc. unfold CartRoutes.respond, Db.save_cart.
  destruct (Cart.validate c); simpl; [|done].
  intros u' c'. simpl. rewrite lookup_insert.
  case_decide; [by intros [= <-]|apply Hst].
Qed.

Lemma respond_bind_all (m : Result Cart.t) c st a b :
  carts_all P st → P c →
  (∀ c', m = Ok c' → ∃ l, c' = Cart.set_items l c) →
  carts_all P (CartRoutes.respond (c' ← m; Db.save_cart c' st) a b st).2.
Proof.
  intros Hst Hc Hm. destruct m as [c'|e]; simpl; [|done].
  destruct (Hm c' eq_refl) as [l ->]. apply respond_all; [done|].
  by apply P_items.
Qed.

Lemma handle_carts_all req env st :
  carts_all P st → carts_all P (handle req env st).2.
Proof.
  intros Hst. destruct req; simpl.
  - unfold CartRoutes.get.
    pose proof (getOrCreateCart_all userId (now env) st Hst) as [Hst1 _].
    by destruct (Db.getOrCreateCart _ _ _).
  - unfold CartRoutes.post_items. destruct (negb _); [done|].
    destruct (products st !! productId) as [p|]; [|done].
    destruct (negb _); [done|]. destruct (negb _); [done|].
    pose proof (getOrCreateCart_all userId (now env) st Hst) as [Hst1 Hc].
    destruct (Db.getOrCreateCart _ _ _) as [c st1].
    apply (respond_bind_all _ c); [done..|]. intros c'. apply addItem_lines.
  - unfold CartRoutes.put_item. destruct (negb _); [done|].
    pose proof (getOrCreateCart_all userId (now env) st Hst) as [Hst1 Hc].
    destruct (Db.getOrCreateCart _ _ _) as [c st1]. simpl in Hst1, Hc.
    destruct (Cart.items_id itemId c) as [item|]; [|done].
    case_bool_decide.
    + destruct (products st1 !! _) as [p|]; [|done].
      destruct (negb _); [done|].
      apply (respond_bind_all _ c); [done..|].
      intros c'. apply updateItemQuantity_lines.
    + apply (respond_bind_all _ c); [done..|].
      intros c'. apply updateItemQuantity_lines.
  - unfold CartRoutes.delete_item.
    pose proof (getOrCreateCart_all userId (now env) st Hst) as [Hst1 Hc].
    destruct (Db.getOrCreateCart _ _ _) as [c st1]. simpl in Hst1, Hc.
    destruct (Cart.items_id itemId c) as [item|]; [|done].
    apply (respond_bind_all _ c); [done..|]. intros c'. apply removeItem_lines.
  - unfold CartRoutes.delete.
    pose proof (getOrCreateCart_all userId (now env) st Hst) as [Hst1 Hc].
    destruct (Db.getOrCreateCart _ _ _) as [c st1].
    apply respond_all; [done|]. by apply P_clear.
  - unfold CartRoutes.post_coupon. destruct (negb _); [done|].
    destruct (CartRoutes.validCoupons _) as [rule|] eqn:Hrule; [|done].
    pose proof (getOrCreateCart_all userId (now env) st Hst) as [Hst1 Hc].
    destruct (Db.getOrCreateCart _ _ _) as [c st1]. simpl in Hst1, Hc.
    case_bool_decide; [done|].
    apply respond_all; [done|]. by apply P_applyCoupon.
  - unfold CartRoutes.delete_coupon.
    pose proof (getOrCreateCart_all userId (now env) st Hst) as [Hst1 Hc].
    destruct (Db.getOrCreateCart _ _ _) as [c st1].
    apply respond_all; [done|]. by apply P_removeCoupon.
  - destruct (post_cases userId body env st) as [-> | ->]; simpl; [done|].
    by apply getOrCreateCart_all.
  - unfold carts_all. by rewrite put_status_carts.
  - unfold carts_all. by rewrite put_cancel_carts.
Qed.

Lemma reachable_carts_all st : reachable st → carts_all P st.
Proof.
  induction 1 as [st Hempty|req env st _ IH|ps st _ IH|u st _ IH].
  - intros u c. by rewrite Hempty, lookup_empty.
  - by apply handle_carts_all.
  - done.
  - intros u' c. simpl. intros Hc. apply lookup_delete_Some in Hc as [_ Hc].
    by eapply IH.
Qed.

End carts_all.
(** ** The coupon of a stored cart *)

Lemma validCoupons_keys key rule :
  CartRoutes.validCoupons key = Some rule →
  (key = "WELCOME10"
   ∧ rule = CartRoutes.mkRule (Qc_of_Z 10) Cart.Coupon.percentage)
  ∨ (key = "SAVE20" ∧ rule = CartRoutes.mkRule (Qc_of_Z 20) Cart.Coupon.fixed)
  ∨ (key = "FREESHIP" ∧ rule = CartRoutes.mkRule (Qc_of_Z 0) Cart.Coupon.fixed).
Proof.
  unfold CartRoutes.validCoupons. repeat case_bool_decide; naive_solver.
Qed.

Lemma reachable_coupon_of_table st : reachable st → carts_all coupon_of_table st.
Proof.
  apply reachable_carts_all.
  - intros u now. by left.
  - intros c l Hc. exact Hc.
  - intros c _. by left.
  - intros c _. by left.
  - intros c key rule now later _ Hrule. right.
    exists key, rule, (now + Z.of_N later), (now + 24 * 60 * 60 * 1000).
    split_and!; [done..|lia].
Qed.

Lemma reachable_shipping_default st : reachable st → carts_all shipping_default st.
Proof.
  apply reachable_carts_all; try done.
Qed.

(** X1. The coupon stored on a cart is always an entry of the coupon
    table: its code is WELCOME10, SAVE20 or FREESHIP, it carries the
    discount and the type the table gives that code, and it has both an
    application time and an expiry, the expiry being at most 24 hours
    after the application time (the route reads the clock for the
    expiry, the method reads it again for the application time). *)
Theorem stored_coupon_from_table st u c code :
  reachable st → carts st !! u = Some c →
  Cart.Coupon.code (Cart.coupon c) = Some code →
  code ∈ ["WELCOME10"; "SAVE20"; "FREESHIP"]
  ∧ ∃ rule appliedAt expiresAt,
      CartRoutes.validCoupons code = Some rule
      ∧ Cart.Coupon.discount (Cart.coupon c) = Some (CartRoutes.discount rule)
      ∧ Cart.Coupon.type (Cart.coupon c) = Some (CartRoutes.type rule)
      ∧ Cart.Coupon.appliedAt (Cart.coupon c) = Some appliedAt
      ∧ Cart.Coupon.expiresAt (Cart.coupon c) = Some expiresAt
      ∧ expiresAt ≤ appliedAt + 86400000.
Proof.
  intros Hreach Hc Hcode.
  destruct (reachable_coupon_of_table st Hreach u c Hc)
    as [Hnone|(key & rule & appliedAt & expiresAt & Hrule & Hcoupon & Hle)].
  - by rewrite Hnone in Hcode.
  - rewrite Hcoupon in Hcode |- *. simpl in Hcode. injection Hcode as <-.
    split.
    + rewrite !elem_of_cons.
      destruct (validCoupons_keys key rule Hrule) as [[-> _]|[[-> _]|[-> _]]]; auto.
    + exists rule, appliedAt, expiresAt. split_and!; [done..|lia].
Qed.

Lemma stored_coupon_from_table_witness :
  ∃ st c,
    reachable st ∧ carts st !! Sample.alice = Some c
    ∧ Cart.Coupon.code (Cart.coupon c) = Some "SAVE20"
    ∧ "SAVE20" ∈ ["WELCOME10"; "SAVE20"; "FREESHIP"].
Proof.
  exists Scenario.st_coupon, Scenario.cart_coupon.
  split; [exact st_coupon_reachable|]. split; [exact st_coupon_cart|].
  split; [reflexivity|].
  exact (proj1 (stored_coupon_from_table _ _ _ "SAVE20" st_coupon_reachable
                  st_coupon_cart eq_refl)).
Defined.

(** ** Totals of a stored cart *)

Lemma Qc_of_Z_nonneg z : 0 ≤ z → (0 <= Qc_of_Z z)%Qc.
Proof. intros Hz. rewrite <-Z2Qc_inj_0. by apply (proj1 (Z2Qc_inj_le 0 z)). Qed.

(** An identity of exact arithmetic, used for bounds only. *)
Lemma nine_tenths (s : Qc) :
  (s - s * Qc_of_Z 10 / Qc_of_Z 100 = s * Qc_of_Z 9 / Qc_of_Z 10)%Qc.
Proof.
  change 100 with (10 * 10). change 9 with (10 - 1).
  rewrite Z2Qc_inj_mul, Z2Qc_inj_sub, Z2Qc_inj_1.
  field. intros H. rewrite <-Z2Qc_inj_0 in H. by apply Z2Qc_inj in H.
Qed.

Lemma subtotal_nonneg c : Cart.validate c = true → (0 <= Cart.subtotal c)%Qc.
Proof.
  intros Hv. rewrite subtotal_sum. unfold Spec.subtotal.
  assert (∀ item, item ∈ Cart.items c → Cart.Item.validate item = true) as Hall
    by (intros item; apply validate_elem, Hv).
  induction (Cart.items c) as [|item l IH]; simpl.
  - apply Qcle_refl.
  - destruct (Item_validate_bounds item) as [Hq Hp].
    { apply Hall. by left. }
    apply Qcplus_nonneg_nonneg.
    + apply Qcmult_nonneg_nonneg; [done|]. apply Qc_of_Z_nonneg. lia.
    + apply IH. intros item' Hin. apply Hall. by right.
Qed.

Lemma total_of_table c :
  coupon_wf c → shipping_default c →
  Cart.total c = (Cart.subtotal c - Spec.discountAmount c)%Qc.
Proof.
  intros Hwf (_ & Hship & Htax & _).
  unfold Cart.total, Spec.discountAmount, Spec.discountValue.
  rewrite Hship, Htax, <-subtotal_sum. unfold coupon_wf in Hwf.
  destruct (Cart.Coupon.code (Cart.coupon c)) as [code|].
  - rewrite or_zero_default.
    destruct (Cart.Coupon.type (Cart.coupon c)) as [[]|]; case_bool_decide;
      try done; ring.
  - rewrite Hwf by done. case_bool_decide; unfold Qcdiv; ring.
Qed.

Lemma stored_cart_total_cases st u c :
  reachable st → carts st !! u = Some c →
  (Cart.Coupon.code (Cart.coupon c) = None ∧ Cart.total c = Cart.subtotal c)
  ∨ (Cart.Coupon.code (Cart.coupon c) = Some "WELCOME10"
     ∧ Cart.total c = (Cart.subtotal c * Qc_of_Z 9 / Qc_of_Z 10)%Qc)
  ∨ (Cart.Coupon.code (Cart.coupon c) = Some "SAVE20"
     ∧ Cart.total c = (Cart.subtotal c - Qc_of_Z 20)%Qc)
  ∨ (Cart.Coupon.code (Cart.coupon c) = Some "FREESHIP"
     ∧ Cart.total c = Cart.subtotal c).
Proof.
  intros Hreach Hc.
  pose proof (reachable_shipping_default st Hreach u c Hc) as Hship.
  pose proof (inv_coupon _ _ (reachable_inv st Hreach u c Hc)) as Hwf.
  rewrite (total_of_table c Hwf) by done.
  unfold Spec.discountAmount, Spec.discountValue. rewrite <-subtotal_sum.
  destruct (reachable_coupon_of_table st Hreach u c Hc)
    as [Hnone|(key & rule & appliedAt & expiresAt & Hrule & Hcoupon & _)].
  - left. rewrite Hnone. split; [done|]. ring.
  - rewrite Hcoupon. simpl.
    destruct (validCoupons_keys key rule Hrule) as [[-> ->]|[[-> ->]|[-> ->]]];
      simpl.
    + right. left. split; [done|]. apply nine_tenths.
    + right. right. left. done.
    + do 3 right. split; [done|]. rewrite Z2Qc_inj_0. ring.
Qed.

(** X2. No request changes the shipping or tax fields of a cart, so
    every stored cart has the schema defaults (method standard, cost 0,
    tax 0) and its total is its subtotal less the discount amount: with
    no coupon the total is the subtotal, with WELCOME10 it is the
    subtotal less (subtotal × 10) / 100, with SAVE20 it is subtotal − 20
    and with FREESHIP it is the subtotal. *)
Theorem stored_cart_total st u c :
  reachable st → carts st !! u = Some c →
  Cart.shippingMethod c = "standard"
  ∧ Cart.shippingCost c = 0%Qc ∧ Cart.tax_amount c = 0%Qc
  ∧ Cart.tax_rate c = 0%Qc
  ∧ Cart.total c
    = match Cart.Coupon.code (Cart.coupon c) with
      | None => Cart.subtotal c
      | Some code =>
          if bool_decide (code = "WELCOME10")
          then (Cart.subtotal c
                - Cart.subtotal c * Qc_of_Z 10 / Qc_of_Z 100)%Qc
          else if bool_decide (code = "SAVE20")
          then (Cart.subtotal c - Qc_of_Z 20)%Qc
          else Cart.subtotal c
      end.
Proof.
  intros Hreach Hc.
  destruct (reachable_shipping_default st Hreach u c Hc) as (Hm & Hs & Ht & Hr).
  split_and!; try done.
  destruct (stored_cart_total_cases st u c Hreach Hc)
    as [[-> ->]|[[-> ->]|[[-> ->]|[-> ->]]]]; try done.
  simpl. symmetry. apply nine_tenths.
Qed.

Lemma stored_cart_total_witness :
  ∃ st c,
    reachable st ∧ carts st !! Sample.alice = Some c
    ∧ Cart.Coupon.code (Cart.coupon c) = Some "SAVE20"
    ∧ Cart.total c = Qc_of_Z 0.
Proof.
  exists Scenario.st_coupon, Scenario.cart_coupon.
  split; [exact st_coupon_reachable|]. split; [exact st_coupon_cart|].
  split; [reflexivity|].
  rewrite (proj2 (proj2 (proj2 (proj2
             (stored_cart_total _ _ _ st_coupon_reachable st_coupon_cart))))).
  apply Qc_is_canon. reflexivity.
Defined.

(** X3. The subtotal of a stored cart is never negative and its total
    never exceeds the subtotal.  The total is never below −20, and it is
    negative only under SAVE20: with any other coupon, or none, it is at
    least 0. *)
Theorem stored_cart_total_bounds st u c :
  reachable st → carts st !! u = Some c →
  (0 <= Cart.subtotal c)%Qc
  ∧ (Cart.total c <= Cart.subtotal c)%Qc
  ∧ (Qc_of_Z (-20) <= Cart.total c)%Qc
  ∧ (Cart.Coupon.code (Cart.coupon c) ≠ Some "SAVE20" → (0 <= Cart.total c)%Qc).
Proof.
  intros Hreach Hc.
  pose proof (subtotal_nonneg c (inv_valid _ _ (reachable_inv st Hreach u c Hc)))
    as Hsub.
  assert (Qc_of_Z (-20) <= Cart.subtotal c)%Qc as Hlow.
  { eapply Qcle_trans; [|exact Hsub]. rewrite <-Z2Qc_inj_0.
    by apply (proj1 (Z2Qc_inj_le (-20) 0)). }
  destruct (stored_cart_total_cases st u c Hreach Hc)
    as [[Hcode Ht]|[[Hcode Ht]|[[Hcode Ht]|[Hcode Ht]]]].
  - rewrite Ht. by split_and!.
  - rewrite Ht.
    assert (0 <= Cart.subtotal c * Qc_of_Z 9 / Qc_of_Z 10)%Qc as H9.
    { unfold Qcdiv. rewrite <-Qcmult_assoc. apply Qcmult_nonneg_nonneg; [done|].
      apply Qcmult_nonneg_nonneg; [by apply Qc_of_Z_nonneg|].
      apply Qclt_le_weak, Qcinv_pos. rewrite <-Z2Qc_inj_0.
      by apply (proj1 (Z2Qc_inj_lt 0 10)). }
    split_and!; try done.
    + rewrite <-(nine_tenths (Cart.subtotal c)).
      apply Qcle_minus_iff.
      replace (Cart.subtotal c
               + - (Cart.subtotal c - Cart.subtotal c * Qc_of_Z 10 / Qc_of_Z 100))%Qc
        with (Cart.subtotal c * (Qc_of_Z 10 / Qc_of_Z 100))%Qc
        by (unfold Qcdiv; ring).
      apply Qcmult_nonneg_nonneg; [done|]. unfold Qcdiv.
      apply Qcmult_nonneg_nonneg; [by apply Qc_of_Z_nonneg|].
      apply Qclt_le_weak, Qcinv_pos. rewrite <-Z2Qc_inj_0.
      by apply (proj1 (Z2Qc_inj_lt 0 100)).
    + eapply Qcle_trans; [|exact H9]. rewrite <-Z2Qc_inj_0.
      by apply (proj1 (Z2Qc_inj_le (-20) 0)).
  - rewrite Ht. split_and!; try done.
    + apply Qcle_minus_iff.
      replace (Cart.subtotal c + - (Cart.subtotal c - Qc_of_Z 20))%Qc
        with (Qc_of_Z 20) by ring.
      by apply Qc_of_Z_nonneg.
    + apply Qcle_minus_iff.
      replace (Cart.subtotal c - Qc_of_Z 20 + - Qc_of_Z (-20))%Qc
        with (Cart.subtotal c) by (change (Qc_of_Z (-20)) with (Qc_of_Z (Z.opp 20));
            rewrite Z2Qc_inj_opp; ring).
      done.
  - rewrite Ht. by split_and!.
Qed.

Lemma stored_cart_total_bounds_witness :
  ∃ st c,
    reachable st ∧ carts st !! Sample.alice = Some c
    ∧ (Qc_of_Z (-20) <= Cart.total c)%Qc.
Proof.
  exists Scenario.st_coupon, Scenario.cart_coupon.
  split; [exact st_coupon_reachable|]. split; [exact st_coupon_cart|].
  exact (proj1 (proj2 (proj2
           (stored_cart_total_bounds _ _ _ st_coupon_reachable st_coupon_cart)))).
Defined.

(** ** The number of items of a cart *)

Lemma itemCount_fold l a :
  fold_left (fun sum item => sum + Cart.Item.quantity item) l a
  = a + quantity_sum l.
Proof.
  revert a. induction l as [|x l IH]; intros a; simpl; [lia|].
  rewrite IH. lia.
Qed.

Lemma itemCount_quantity_sum c : Cart.itemCount c = quantity_sum (Cart.items c).
Proof. unfold Cart.itemCount. by rewrite itemCount_fold. Qed.

Lemma quantity_sum_bounds l :
  (∀ item, item ∈ l → 1 ≤ Cart.Item.quantity item ≤ 100) →
  Z.of_nat (List.length l) ≤ quantity_sum l ≤ 100 * Z.of_nat (List.length l).
Proof.
  induction l as [|x l IH]; intros Hall; simpl; [lia|].
  pose proof (Hall x ltac:(by left)).
  pose proof (IH (fun item Hin => Hall item ltac:(by right))). lia.
Qed.

(** X4. [itemCount] is the sum of the quantities of the lines.  For a
    stored cart it lies between the number of lines and 100 times that
    number, and it is 0 exactly when the cart has no line. *)
Theorem stored_cart_itemCount st u c :
  reachable st → carts st !! u = Some c →
  Cart.itemCount c = quantity_sum (Cart.items c)
  ∧ Z.of_nat (List.length (Cart.items c)) ≤ Cart.itemCount c
    ≤ 100 * Z.of_nat (List.length (Cart.items c))
  ∧ (Cart.itemCount c = 0 ↔ Cart.items c = []).
Proof.
  intros Hreach Hc. pose proof (reachable_inv st Hreach u c Hc) as Hinv.
  assert (Z.of_nat (List.length (Cart.items c)) ≤ quantity_sum (Cart.items c)
          ≤ 100 * Z.of_nat (List.length (Cart.items c))) as Hb.
  { apply quantity_sum_bounds. intros item Hin.
    by apply Item_validate_bounds, (validate_elem c), Hin; apply Hinv. }
  rewrite itemCount_quantity_sum. split; [done|]. split; [lia|].
  split.
  - intros H0. destruct (Cart.items c) as [|x l]; [done|].
    change (quantity_sum (x :: l)) with (Cart.Item.quantity x + quantity_sum l)
      in Hb, H0.
    rewrite length_cons in Hb. lia.
  - by intros ->.
Qed.

Lemma stored_cart_itemCount_witness :
  ∃ st c,
    reachable st ∧ carts st !! Sample.alice = Some c
    ∧ Cart.itemCount c = quantity_sum (Cart.items c)
    ∧ Cart.itemCount c = 2.
Proof.
  exists Scenario.st_added, Scenario.cart_added.
  split; [exact st_added_reachable|]. split; [exact st_added_cart|].
  split; [|reflexivity].
  exact (proj1 (stored_cart_itemCount _ _ _ st_added_reachable st_added_cart)).
Defined.

(** ** Looking a cart up *)

Lemma getOrCreateCart_creates_lookup u now st u' :
  u' ≠ u → carts (Db.getOrCreateCart u now st).2 !! u' = carts st !! u'.
Proof.
  intros Hne. unfold Db.getOrCreateCart.
  destruct (carts st !! u); simpl; [done|]. by rewrite lookup_insert_ne.
Qed.

(** X5. [getOrCreateCart] returns the stored cart of the user when there
    is one and changes nothing; otherwise it stores and returns a new
    cart without lines, with a total of 0, that expires 30 days later.
    Either way the returned cart is the one stored for the user
    afterwards, a second call returns it again without a further change,
    and no other cart, no product and no order is touched. *)
Theorem getOrCreateCart_creates_once u now now' st :
  let r := Db.getOrCreateCart u now st in
  carts r.2 !! u = Some r.1
  ∧ Db.getOrCreateCart u now' r.2 = r
  ∧ (∀ u', u' ≠ u → carts r.2 !! u' = carts st !! u')
  ∧ products r.2 = products st ∧ orders r.2 = orders st
  ∧ match carts st !! u with
    | Some c => r = (c, st)
    | None =>
        r.1 = Cart.new u now
        ∧ Cart.user r.1 = u ∧ Cart.items r.1 = [] ∧ Cart.total r.1 = 0%Qc
        ∧ Cart.expiresAt r.1 = now + 2592000000
    end.
Proof.
  unfold Db.getOrCreateCart.
  destruct (carts st !! u) as [c|] eqn:Hu; simpl.
  - rewrite Hu. by split_and!.
  - rewrite lookup_insert_eq. split_and!; try done.
    intros u' Hne. by rewrite lookup_insert_ne.
Qed.

(** ** Emptying a cart, removing its coupon *)

Lemma route_saves u now st c' a b :
  State_inv st →
  let c := (Db.getOrCreateCart u now st).1 in
  let st1 := (Db.getOrCreateCart u now st).2 in
  Cart.user c' = u → Cart.validate c' = true →
  CartRoutes.respond (Db.save_cart c' st1) a b st1
  = (ok a, Db.set_carts (<[u := c']> (carts st1)) st1).
Proof.
  intros Hinv c st1 Hu Hv. unfold CartRoutes.respond, Db.save_cart.
  by rewrite Hv, Hu.
Qed.

Lemma getOrCreateCart_Cart_inv u now st :
  State_inv st → Cart_inv u (Db.getOrCreateCart u now st).1.
Proof.
  intros Hinv.
  destruct (Db.getOrCreateCart u now st) as [c st1] eqn:Hget.
  by destruct (getOrCreateCart_cases u now st c st1 Hget Hinv) as (_ & Hc & _).
Qed.

Lemma getOrCreateCart_shipping u now st :
  carts_all shipping_default st →
  shipping_default (Db.getOrCreateCart u now st).1.
Proof. intros Hst. by apply getOrCreateCart_all. Qed.

(** X6. [DELETE /api/cart] always succeeds in a state the server can
    reach.  Afterwards the cart of the user has no line and no coupon:
    its item count, its subtotal and its total are 0.  The cart document
    itself stays, with its expiry date. *)
Theorem delete_cart_empties u env st :
  reachable st →
  let c := (Db.getOrCreateCart u (now env) st).1 in
  let st1 := (Db.getOrCreateCart u (now env) st).2 in
  CartRoutes.delete u env st
  = (ok "Cart cleared successfully",
     Db.set_carts (<[u := Cart.clear c]> (carts st1)) st1)
  ∧ Cart.items (Cart.clear c) = []
  ∧ Cart.coupon (Cart.clear c) = Cart.Coupon.empty
  ∧ Cart.itemCount (Cart.clear c) = 0
  ∧ Cart.subtotal (Cart.clear c) = 0%Qc
  ∧ Cart.total (Cart.clear c) = 0%Qc
  ∧ Cart.expiresAt (Cart.clear c) = Cart.expiresAt c.
Proof.
  intros Hreach c st1. pose proof (reachable_inv st Hreach) as Hinv.
  pose proof (getOrCreateCart_Cart_inv u (now env) st Hinv) as Hc.
  pose proof (getOrCreateCart_shipping u (now env) st
                (reachable_shipping_default st Hreach)) as (_ & Hs & Ht & _).
  fold c in Hc, Hs, Ht. split_and!; try done.
  - unfold CartRoutes.delete.
    destruct (Db.getOrCreateCart u (now env) st) as [c0 st0] eqn:Hget.
    subst c st1. simpl in *.
    pose proof (route_saves u (now env) st (Cart.clear c0)
                  "Cart cleared successfully" "Server error clearing cart" Hinv)
      as Hsave.
    rewrite Hget in Hsave. simpl in Hsave. apply Hsave; [|done].
    apply Hc.
  - unfold Cart.total. simpl. rewrite Hs, Ht. by apply Qc_is_canon.
Qed.

Lemma delete_cart_empties_witness :
  reachable Scenario.st_coupon
  ∧ CartRoutes.delete Sample.alice Sample.env0 Scenario.st_coupon
    = (ok "Cart cleared successfully",
       Db.set_carts
         (<[Sample.alice := Cart.clear Scenario.cart_coupon]>
            (carts Scenario.st_coupon)) Scenario.st_coupon).
Proof.
  split; [exact st_coupon_reachable|].
  exact (proj1 (delete_cart_empties Sample.alice Sample.env0 Scenario.st_coupon
                  st_coupon_reachable)).
Defined.

(** X7. [DELETE /api/cart/coupon] always succeeds in a state the server
    can reach, whether or not a coupon is applied.  It keeps the lines,
    and the total of the cart becomes its subtotal.  Removing the coupon
    undoes applying one up to the coupon record itself, and removing
    twice is removing once. *)
Theorem delete_coupon_restores_total u env st :
  reachable st →
  let c := (Db.getOrCreateCart u (now env) st).1 in
  let st1 := (Db.getOrCreateCart u (now env) st).2 in
  CartRoutes.delete_coupon u env st
  = (ok "Coupon removed successfully",
     Db.set_carts (<[u := Cart.removeCoupon c]> (carts st1)) st1)
  ∧ Cart.items (Cart.removeCoupon c) = Cart.items c
  ∧ Cart.total (Cart.removeCoupon c) = Cart.subtotal c
  ∧ (∀ code d t e n,
       Cart.removeCoupon (Cart.applyCoupon code d t e n c) = Cart.removeCoupon c)
  ∧ Cart.removeCoupon (Cart.removeCoupon c) = Cart.removeCoupon c.
Proof.
  intros Hreach c st1. pose proof (reachable_inv st Hreach) as Hinv.
  pose proof (getOrCreateCart_Cart_inv u (now env) st Hinv) as Hc.
  pose proof (getOrCreateCart_shipping u (now env) st
                (reachable_shipping_default st Hreach)) as (_ & Hs & Ht & _).
  fold c in Hc, Hs, Ht. split_and!; try done.
  - unfold CartRoutes.delete_coupon.
    destruct (Db.getOrCreateCart u (now env) st) as [c0 st0] eqn:Hget.
    subst c st1. simpl in *.
    pose proof (route_saves u (now env) st (Cart.removeCoupon c0)
                  "Coupon removed successfully" "Server error removing coupon" Hinv)
      as Hsave.
    rewrite Hget in Hsave. simpl in Hsave. apply Hsave; apply Hc.
  - unfold Cart.total. simpl. rewrite Hs, Ht.
    change (Cart.subtotal (Cart.removeCoupon c)) with (Cart.subtotal c). ring.
Qed.

Lemma delete_coupon_restores_total_witness :
  reachable Scenario.st_coupon
  ∧ CartRoutes.delete_coupon Sample.alice Sample.env0 Scenario.st_coupon
    = (ok "Coupon removed successfully",
       Db.set_carts
         (<[Sample.alice := Cart.removeCoupon Scenario.cart_coupon]>
            (carts Scenario.st_coupon)) Scenario.st_coupon).
Proof.
  split; [exact st_coupon_reachable|].
  exact (proj1 (delete_coupon_restores_total Sample.alice Sample.env0
                  Scenario.st_coupon st_coupon_reachable)).
Defined.
(** ** Removing a line *)

Lemma filter_all_true {A} (f : A → bool) l :
  (∀ x, x ∈ l → f x = true) → List.filter f l = l.
Proof.
  induction l as [|x l IH]; intros Hall; simpl; [done|].
  rewrite (Hall x) by by left. f_equal. apply IH. intros y Hy. apply Hall.
  by right.
Qed.

(** X8. [DELETE /api/cart/items/:itemId] finds the line by its id and
    removes the lines by the product and the variant of that line.  On a
    cart whose products are all stored it answers 200 and the stored cart
    keeps exactly the lines of the other (product, variant) pairs, in
    their order: every line of the pair of the named line is removed, not
    that line alone.  When the product of any line of the cart is gone the
    answer is 500 and nothing is written.  An id that names no line of the
    cart is answered 404 and nothing changes. *)
Theorem delete_item_removes_pair u itemId env st c :
  reachable st → carts st !! u = Some c →
  (Cart.items_id itemId c = None →
   CartRoutes.delete_item u itemId env st
   = (not_found "Cart item not found", st))
  ∧ (∀ item,
       Cart.items_id itemId c = Some item →
       (products_stored (products st) c →
        (CartRoutes.delete_item u itemId env st).1
        = ok "Item removed from cart successfully"
        ∧ ∃ c', carts (CartRoutes.delete_item u itemId env st).2 !! u = Some c'
                ∧ Cart.items c'
                  = List.filter (fun x => negb (same_pair item x)) (Cart.items c)
                ∧ (∀ x, x ∈ Cart.items c' ↔
                        x ∈ Cart.items c
                        ∧ Cart.Item.key x ≠ Cart.Item.key item)
                ∧ item ∉ Cart.items c')
       ∧ (∀ x, x ∈ Cart.items c →
               products st !! Cart.Item.product x = None →
               CartRoutes.delete_item u itemId env st
               = (server_error "Server error removing cart item", st)))
  ∧ map Cart.Item.quantity
    <$> (Cart.items
         <$> carts (CartRoutes.delete_item Sample.alice 101%N Sample.env0
                      Scenario.st_twice).2 !! Sample.alice)
    = Some [].
Proof.
  intros Hreach Hc.
  destruct (reachable_inv st Hreach u c Hc) as [Hu Hv _].
  split; [|split].
  - intros Hid. unfold CartRoutes.delete_item.
    by rewrite (getOrCreateCart_stored u (now env) st c Hc), Hid.
  - intros item Hid.
    pose proof (items_id_elem itemId c item Hid) as Hin.
    unfold CartRoutes.delete_item.
    rewrite (getOrCreateCart_stored u (now env) st c Hc), Hid.
    split.
    + intros Hps. rewrite (removeItem_stored _ _ _ Hps Hin). simpl.
      rewrite respond_saved by (by apply validate_filter). simpl.
      split; [done|]. eexists. rewrite Hu, lookup_insert_eq.
      split; [done|]. simpl. split; [done|].
      assert (∀ x, x ∈ List.filter (fun x => negb (same_pair item x)) (Cart.items c)
                   ↔ x ∈ Cart.items c ∧ Cart.Item.key x ≠ Cart.Item.key item)
        as Hiff.
      { intros x. rewrite list_elem_of_In, filter_In, <-list_elem_of_In.
        unfold same_pair. by rewrite negb_true_iff, bool_decide_eq_false. }
      split; [done|]. intros [_ Hne]%Hiff. done.
    + intros x Hx Hgone.
      by destruct (removeItem_gone (products st)
                     (Cart.product_of (products st) item)
                     (Held (Cart.Item.variant item)) c x Hx Hgone) as [e ->].
  - by vm_compute.
Qed.

(** The cart with lines of 2 and of 3 shirts; the request names the
    second line, and both lines go. *)
Lemma delete_item_removes_pair_witness :
  reachable Scenario.st_twice
  ∧ carts Scenario.st_twice !! Sample.alice = Some Scenario.cart_twice
  ∧ Cart.items_id 101%N Scenario.cart_twice = Some Scenario.line_second
  ∧ (CartRoutes.delete_item Sample.alice 101%N Sample.env0 Scenario.st_twice).1
    = ok "Item removed from cart successfully"
  ∧ ∃ c', carts (CartRoutes.delete_item Sample.alice 101%N Sample.env0
                   Scenario.st_twice).2 !! Sample.alice = Some c'
          ∧ Cart.items c'
            = List.filter (fun x => negb (same_pair Scenario.line_second x))
                (Cart.items Scenario.cart_twice)
          ∧ (∀ x, x ∈ Cart.items c' ↔
                  x ∈ Cart.items Scenario.cart_twice
                  ∧ Cart.Item.key x ≠ Cart.Item.key Scenario.line_second)
          ∧ Scenario.line_second ∉ Cart.items c'.
Proof.
  split; [exact st_twice_reachable|]. split; [exact st_twice_cart|].
  split; [reflexivity|].
  exact (proj1 (proj1 (proj2 (delete_item_removes_pair Sample.alice 101%N
                                Sample.env0 Scenario.st_twice Scenario.cart_twice
                                st_twice_reachable st_twice_cart))
                  Scenario.line_second eq_refl) st_twice_stored).
Defined.

(** With quantity 0 [updateItemQuantity] is [removeItem]: both throw, or
    both yield the same cart. *)
Lemma updateItemQuantity_zero ps r v c :
  match Cart.updateItemQuantity ps r v 0 c, Cart.removeItem ps r v c with
  | Ok a, Ok b => a = b
  | Throw _, Throw _ => True
  | _, _ => False
  end.
Proof.
  unfold Cart.updateItemQuantity, Cart.removeItem.
  destruct (Js.findIndex _ _) as [[i|]|e] eqn:Hfind; simpl.
  - by destruct (Js.filter _ _).
  - rewrite (filter_total _ (fun _ => true)).
    + simpl. by rewrite filter_all_true, set_items_same.
    + intros x Hx. by rewrite (findIndex_Ok_None _ _ Hfind x Hx).
  - by destruct (findIndex_Throw_filter _ _ _ Hfind) as [e' ->].
Qed.

(** X9. Setting the quantity of a line to 0 and deleting the line are the
    same operation: for every request and every database,
    [PUT /api/cart/items/:itemId] with quantity 0 and
    [DELETE /api/cart/items/:itemId] leave the same database and answer with
    the same status. *)
Theorem put_item_zero_is_delete_item u itemId env st :
  (CartRoutes.put_item u itemId 0 env st).2
  = (CartRoutes.delete_item u itemId env st).2
  ∧ res_status (CartRoutes.put_item u itemId 0 env st).1
    = res_status (CartRoutes.delete_item u itemId env st).1.
Proof.
  unfold CartRoutes.put_item, CartRoutes.delete_item. simpl.
  destruct (Db.getOrCreateCart u (now env) st) as [c st1].
  destruct (Cart.items_id itemId c) as [item|] eqn:Hid; [|done].
  pose proof (updateItemQuantity_zero (products st1)
                (Cart.product_of (products st1) item)
                (Held (Cart.Item.variant item)) c) as Hsame.
  destruct (Cart.updateItemQuantity _ _ _ _ _) as [a|e];
    destruct (Cart.removeItem _ _ _ _) as [b|e']; try done.
  subst b. simpl. unfold CartRoutes.respond. by destruct (Db.save_cart _ _).
Qed.

(** ** Requests that fail *)

Lemma respond_failed saved a b st :
  res_success (CartRoutes.respond saved a b st).1 = false →
  (CartRoutes.respond saved a b st).2 = st.
Proof. by destruct saved. Qed.

Lemma getOrCreateCart_lazy u now st :
  (Db.getOrCreateCart u now st).2 = st
  ∨ (carts st !! u = None
     ∧ (Db.getOrCreateCart u now st).2
       = Db.set_carts (<[u := Cart.new u now]> (carts st)) st).
Proof.
  unfold Db.getOrCreateCart. destruct (carts st !! u); [by left|by right].
Qed.

(** X12. A request that is not answered with success writes nothing:
    it leaves the products, the orders and the carts as they were, but
    for the empty cart that the handler creates for a user who has none
    before it looks at the request. *)
Theorem failed_request_writes_nothing req env st :
  res_success (handle req env st).1 = false →
  (handle req env st).2 = st
  ∨ (carts st !! requester req = None
     ∧ (handle req env st).2
       = Db.set_carts
           (<[requester req := Cart.new (requester req) (now env)]> (carts st))
           st).
Proof.
  destruct req; simpl.
  - unfold CartRoutes.get. by destruct (Db.getOrCreateCart _ _ _).
  - unfold CartRoutes.post_items. destruct (negb _); [by left|].
    destruct (products st !! productId) as [p|]; [|by left].
    destruct (negb _); [by left|]. destruct (negb _); [by left|].
    pose proof (getOrCreateCart_lazy userId (now env) st) as Hlazy.
    destruct (Db.getOrCreateCart _ _ _) as [c st1].
    intros Hfail. by rewrite (respond_failed _ _ _ _ Hfail).
  - unfold CartRoutes.put_item. destruct (negb _); [by left|].
    pose proof (getOrCreateCart_lazy userId (now env) st) as Hlazy.
    destruct (Db.getOrCreateCart _ _ _) as [c st1]. simpl in Hlazy.
    destruct (Cart.items_id itemId c) as [item|]; [|done].
    case_bool_decide.
    + destruct (products st1 !! _) as [p|]; [|done].
      destruct (negb _); [done|].
      intros Hfail. by rewrite (respond_failed _ _ _ _ Hfail).
    + intros Hfail. by rewrite (respond_failed _ _ _ _ Hfail).
  - unfold CartRoutes.delete_item.
    pose proof (getOrCreateCart_lazy userId (now env) st) as Hlazy.
    destruct (Db.getOrCreateCart _ _ _) as [c st1]. simpl in Hlazy.
    destruct (Cart.items_id itemId c) as [item|]; [|done].
    intros Hfail. by rewrite (respond_failed _ _ _ _ Hfail).
  - unfold CartRoutes.delete.
    pose proof (getOrCreateCart_lazy userId (now env) st) as Hlazy.
    destruct (Db.getOrCreateCart _ _ _) as [c st1].
    intros Hfail. by rewrite (respond_failed _ _ _ _ Hfail).
  - unfold CartRoutes.post_coupon. destruct (negb _); [by left|].
    destruct (CartRoutes.validCoupons _) as [rule|]; [|by left].
    pose proof (getOrCreateCart_lazy userId (now env) st) as Hlazy.
    destruct (Db.getOrCreateCart _ _ _) as [c st1]. simpl in Hlazy.
    case_bool_decide; [done|].
    intros Hfail. by rewrite (respond_failed _ _ _ _ Hfail).
  - unfold CartRoutes.delete_coupon.
    pose proof (getOrCreateCart_lazy userId (now env) st) as Hlazy.
    destruct (Db.getOrCreateCart _ _ _) as [c st1].
    intros Hfail. by rewrite (respond_failed _ _ _ _ Hfail).
  - intros _. destruct (post_cases userId body env st) as [-> | ->]; [by left|].
    apply getOrCreateCart_lazy.
  - intros Hfail. left.
    destruct (put_status_cases userId id status note env st)
      as [Hst|(s & o & _ & _ & Hr)]; [done|].
    by rewrite Hr in Hfail.
  - intros Hfail. left.
    destruct (put_cancel_cases userId id reason env st)
      as [[Hst _]|(o & _ & _ & _ & Hr)]; [done|].
    simpl in Hr. by rewrite Hr in Hfail.
Qed.

Lemma failed_request_writes_nothing_witness :
  res_success
    (handle (PostCartItems Sample.alice Sample.shirt_id 4 None) Sample.env0
       Scenario.st_added).1 = false
  ∧ (handle (PostCartItems Sample.alice Sample.shirt_id 4 None) Sample.env0
       Scenario.st_added).2 = Scenario.st_added.
Proof.
  split; [reflexivity|].
  destruct (failed_request_writes_nothing
              (PostCartItems Sample.alice Sample.shirt_id 4 None) Sample.env0
              Scenario.st_added eq_refl) as [H|[H _]].
  - exact H.
  - discriminate H.
Defined.

(** ** What the requests leave of an order *)

Lemma status_update_snapshot n now s note by_ o :
  snapshot
    (Order.fields
       (Order.pre_save n now (Order.updateStatus s note by_ now (Order.loaded o))))
  = snapshot o.
Proof.
  unfold Order.pre_save, Order.updateStatus, Order.loaded. simpl.
  by case_bool_decide.
Qed.

Lemma handle_order_cases req env st id o :
  orders_keyed st → orders st !! id = Some o →
  orders (handle req env st).2 !! id = Some o
  ∨ ∃ n s note by_,
      orders (handle req env st).2 !! id
      = Some (Order.fields
                (Order.pre_save n (now env)
                   (Order.updateStatus s note by_ (now env) (Order.loaded o)))).
Proof.
  intros Hkeyed Ho.
  pose proof (cart_requests_rest req env st) as Hrest.
  destruct req; try (left; by rewrite (proj2 Hrest)).
  - simpl.
    destruct (put_status_cases userId id0 status note env st)
      as [->|(s & o0 & Hs & Ho0 & ->)]; [by left|].
    simpl. rewrite (Hkeyed _ _ Ho0).
    destruct (decide (id0 = id)) as [->|Hne].
    + rewrite lookup_insert_eq. right. assert (o0 = o) as -> by congruence.
      by do 4 eexists.
    + rewrite lookup_insert_ne by done. by left.
  - simpl.
    destruct (put_cancel_cases userId id0 reason env st)
      as [[-> _]|(o0 & Ho0 & _ & _ & Hr)]; [by left|].
    simpl in Hr. rewrite Hr. simpl. rewrite (proj2 (release_carts _ _)). simpl.
    rewrite (Hkeyed _ _ Ho0).
    destruct (decide (id0 = id)) as [->|Hne].
    + rewrite lookup_insert_eq. right. assert (o0 = o) as -> by congruence.
      by do 4 eexists.
    + rewrite lookup_insert_ne by done. by left.
Qed.

Lemma handle_order_absent req env st id :
  orders_keyed st → orders st !! id = None →
  orders (handle req env st).2 !! id = None.
Proof.
  intros Hkeyed Hid.
  pose proof (cart_requests_rest req env st) as Hrest.
  destruct req; try (by rewrite (proj2 Hrest)).
  - simpl.
    destruct (put_status_cases userId id0 status note env st)
      as [->|(s & o0 & Hs & Ho0 & ->)]; [done|].
    simpl. rewrite (Hkeyed _ _ Ho0).
    rewrite lookup_insert_ne; [done|]. intros ->. congruence.
  - simpl.
    destruct (put_cancel_cases userId id0 reason env st)
      as [[-> _]|(o0 & Ho0 & _ & _ & Hr)]; [done|].
    simpl in Hr. rewrite Hr. simpl. rewrite (proj2 (release_carts _ _)). simpl.
    rewrite (Hkeyed _ _ Ho0).
    rewrite lookup_insert_ne; [done|]. intros ->. congruence.
Qed.

(** X13. No request deletes an order or creates one, and an order is
    never changed but in its status and its timeline: the customer, the
    lines with their prices, the totals, the addresses, the payment and
    the discount stay as they were stored. *)
Theorem order_snapshot_immutable req env st :
  orders_keyed st →
  (∀ id o,
     orders st !! id = Some o →
     ∃ o', orders (handle req env st).2 !! id = Some o'
           ∧ snapshot o' = snapshot o
           ∧ Order.customer o' = Order.customer o
           ∧ Order.items o' = Order.items o
           ∧ Order.total o' = Order.total o)
  ∧ (∀ id, orders st !! id = None → orders (handle req env st).2 !! id = None).
Proof.
  intros Hkeyed. split; [|intros id; by apply handle_order_absent].
  intros id o Ho.
  assert (∃ o', orders (handle req env st).2 !! id = Some o'
                ∧ snapshot o' = snapshot o) as (o' & Ho' & Hsnap).
  { destruct (handle_order_cases req env st id o Hkeyed Ho)
      as [Hsame|(n & s & note & by_ & Hnew)].
    - by exists o.
    - eexists. split; [exact Hnew|]. apply status_update_snapshot. }
  exists o'. split; [done|]. split; [done|].
  unfold snapshot in Hsnap. by injection Hsnap as _ _ -> -> _ _ _ _ _ _ _ _ _ _ _ _ _ ->.
Qed.

Lemma order_snapshot_immutable_witness :
  orders_keyed (Sample.st_order Order.pending)
  ∧ orders
      (handle (PutOrderCancel Sample.alice Sample.order_id None) Sample.env0
         (Sample.st_order Order.pending)).2 !! 5%N = None.
Proof.
  assert (orders_keyed (Sample.st_order Order.pending)) as Hkeyed.
  { intros id o. unfold Sample.st_order. simpl. rewrite lookup_singleton_Some.
    by intros [<- <-]. }
  split; [exact Hkeyed|].
  exact (proj2 (order_snapshot_immutable
                  (PutOrderCancel Sample.alice Sample.order_id None) Sample.env0
                  (Sample.st_order Order.pending) Hkeyed) 5%N eq_refl).
Defined.

(** ** Cancelling an order *)

Lemma st_order_keyed s : orders_keyed (Sample.st_order s).
Proof.
  intros id o. unfold Sample.st_order. simpl. rewrite lookup_singleton_Some.
  by intros [<- <-].
Qed.

Lemma released_nothing p items :
  (∀ item, item ∈ items → Order.Item.product item ≠ p) →
  released_quantity p items = 0 ∧ released_revenue p items = 0%Qc.
Proof.
  induction items as [|x l IH]; intros Hno; simpl; [done|].
  rewrite bool_decide_eq_false_2 by (apply Hno; by left).
  apply IH. intros item Hin. apply Hno. by right.
Qed.

(** X14. A customer's cancel request of a stored, valid order of their
    own in status pending or confirmed succeeds.  It sets the status to
    cancelled and gives back the inventory of the order: each product
    gets the quantities of its lines back on [inventory.quantity], and
    its [sales.totalSold] and [sales.totalRevenue] go down by the
    quantities and by price × quantity of those lines.  A product that no
    line refers to is left as it is. *)
Theorem cancel_restores_inventory u id reason env st o :
  orders st !! id = Some o → Order._id o = id → Order.customer o = u →
  Order.status o ∈ [Order.pending; Order.confirmed] →
  Order.validate o = true →
  let r := OrderRoutes.put_cancel u id reason env st in
  r.1 = ok "Order cancelled successfully"
  ∧ Order.status <$> orders r.2 !! id = Some Order.cancelled
  ∧ (∀ p,
       products r.2 !! p
       = (fun x =>
            Product.mk (Product.name x) (Product.price x)
              (Product.trackInventory x)
              (Product.quantity x + released_quantity p (Order.items o))
              (Product.allowBackorder x) (Product.status x)
              (Product.totalSold x - released_quantity p (Order.items o))
              (Product.totalRevenue x - released_revenue p (Order.items o))%Qc)
         <$> products st !! p)
  ∧ (∀ p,
       (∀ item, item ∈ Order.items o → Order.Item.product item ≠ p) →
       products r.2 !! p = products st !! p).
Proof.
  intros Ho Hid Hcust Hstatus Hv r.
  destruct (put_cancel_ok u id reason env st o Ho Hid Hcust Hstatus Hv)
    as (o' & Hr & Hst).
  subst r. rewrite Hr. simpl.
  assert (∀ p,
            products
              (Db.release (Order.items o)
                 (Db.set_orders (<[id:=o']> (orders st)) st)) !! p
            = Product.inc (released_quantity p (Order.items o))
                (- released_quantity p (Order.items o))
                (- released_revenue p (Order.items o))%Qc
              <$> products st !! p) as Hrel
    by (intros p; by rewrite release_lookup).
  split_and!.
  - done.
  - rewrite (proj2 (release_carts _ _)). simpl. rewrite lookup_insert_eq. simpl.
    by rewrite Hst.
  - intros p. rewrite Hrel. by destruct (products st !! p).
  - intros p Hno. rewrite Hrel.
    destruct (released_nothing p (Order.items o) Hno) as [-> ->].
    destruct (products st !! p) as [x|]; [|done]. simpl.
    change (- 0)%Qc with 0%Qc. change (- 0) with 0. by rewrite inc_zero.
Qed.

Lemma cancel_restores_inventory_witness :
  let r :=
    OrderRoutes.put_cancel Sample.alice Sample.order_id None Sample.env0
      (Sample.st_order Order.pending) in
  r.1 = ok "Order cancelled successfully"
  ∧ Order.status <$> orders r.2 !! Sample.order_id = Some Order.cancelled.
Proof.
  pose proof (cancel_restores_inventory Sample.alice Sample.order_id None
                Sample.env0 (Sample.st_order Order.pending)
                (Sample.order_in Order.pending) eq_refl eq_refl eq_refl) as H.
  assert (Order.status (Sample.order_in Order.pending)
          ∈ [Order.pending; Order.confirmed]) as Hs by (by left).
  assert (Order.validate (Sample.order_in Order.pending) = true) as Hv
    by (vm_compute; reflexivity).
  destruct (H Hs Hv) as (H1 & H2 & _).
  split; [exact H1|exact H2].
Defined.

(** X15. The cancel route acts on the order named in the request, if it
    is the requester's, and on nothing else.  An unknown id is answered
    404 and an order of another customer 403, both without a change; and
    whatever the answer, every other stored order is left as it is and so
    is every cart. *)
Theorem cancel_touches_own_order_only u id reason env st :
  orders_keyed st →
  let r := OrderRoutes.put_cancel u id reason env st in
  (orders st !! id = None → r = (not_found "Order not found", st))
  ∧ (∀ o, orders st !! id = Some o → Order.customer o ≠ u →
          r = (NotAuthorized, st))
  ∧ (∀ id' o', orders st !! id' = Some o' →
               id' ≠ id ∨ Order.customer o' ≠ u →
               orders r.2 !! id' = Some o')
  ∧ carts r.2 = carts st.
Proof.
  intros Hkeyed r. subst r. split_and!.
  - intros Hid. unfold OrderRoutes.put_cancel. by rewrite Hid.
  - intros o Ho Hne. unfold OrderRoutes.put_cancel. rewrite Ho.
    by rewrite (bool_decide_eq_false_2 _ Hne).
  - intros id' o' Ho' Hother.
    destruct (put_cancel_cases u id reason env st)
      as [[-> _]|(o & Ho & Hcust & _ & Hr)]; [done|].
    simpl in Hr. rewrite Hr. simpl. rewrite (proj2 (release_carts _ _)). simpl.
    rewrite (Hkeyed _ _ Ho).
    destruct (decide (id' = id)) as [->|Hne].
    + destruct Hother as [?|Hc]; [done|]. congruence.
    + by rewrite lookup_insert_ne.
  - apply put_cancel_carts.
Qed.

Lemma cancel_touches_own_order_only_witness :
  orders_keyed (Sample.st_order Order.pending)
  ∧ OrderRoutes.put_cancel Sample.admin Sample.order_id None Sample.env0
      (Sample.st_order Order.pending)
    = (NotAuthorized, Sample.st_order Order.pending).
Proof.
  split; [exact (st_order_keyed Order.pending)|].
  refine (proj1 (proj2 (cancel_touches_own_order_only Sample.admin
                          Sample.order_id None Sample.env0
                          (Sample.st_order Order.pending)
                          (st_order_keyed Order.pending)))
            (Sample.order_in Order.pending) eq_refl _).
  vm_compute. discriminate.
Defined.

(** X16. A cancel request that directly follows a successful cancel
    request for the same order is answered 400 'Order cannot be cancelled
    at this stage' and changes nothing.  The guard is the stored status
    alone, so it does not make cancellation happen once: after the status
    route has set a cancelled order back to pending, a second cancel
    request succeeds and gives the inventory back a second time (a shirt
    stocked at 3 with an order of 2 goes to 5 and then to 7). *)
Theorem cancel_twice_rejected u id reason env st reason' env' :
  orders_keyed st →
  res_success (OrderRoutes.put_cancel u id reason env st).1 = true →
  let st' := (OrderRoutes.put_cancel u id reason env st).2 in
  OrderRoutes.put_cancel u id reason' env' st' = (InvalidTransition, st')
  ∧ (let cancel :=
       OrderRoutes.put_cancel Sample.alice Sample.order_id None Sample.env0 in
     let st1 := (cancel (Sample.st_order Order.pending)).2 in
     let st2 :=
       (OrderRoutes.put_status Sample.admin Sample.order_id "pending" None
          Sample.env0 st1).2 in
     Product.quantity
     <$> products (Sample.st_order Order.pending) !! Sample.shirt_id = Some 3
     ∧ Product.quantity <$> products st1 !! Sample.shirt_id = Some 5
     ∧ Order.status <$> orders st2 !! Sample.order_id = Some Order.pending
     ∧ res_status (cancel st2).1 = 200
     ∧ Product.quantity <$> products (cancel st2).2 !! Sample.shirt_id
       = Some 7).
Proof.
  intros Hkeyed Hok st'. subst st'. split; [|by vm_compute].
  destruct (put_cancel_cases u id reason env st)
    as [[_ Hfail]|(o & Ho & Hcust & _ & Hr)]; [congruence|].
  simpl in Hr. rewrite Hr. simpl.
  pose proof (status_update_saved (N.of_nat (size (orders st))) (now env)
                Order.cancelled
                (Some (Js.or_string (Js.trim <$> reason) "Cancelled by customer"))
                (Some u) o) as (_ & Hc & _ & Hst & _).
  unfold OrderRoutes.put_cancel at 1.
  rewrite (proj2 (release_carts _ _)). simpl.
  rewrite (Hkeyed _ _ Ho), lookup_insert_eq.
  simpl in Hc, Hst. rewrite Hc, Hst.
  by rewrite (bool_decide_eq_true_2 _ Hcust).
Qed.

Lemma cancel_twice_rejected_witness :
  let cancel :=
    OrderRoutes.put_cancel Sample.alice Sample.order_id None Sample.env0 in
  let st1 := (cancel (Sample.st_order Order.pending)).2 in
  let st2 :=
    (OrderRoutes.put_status Sample.admin Sample.order_id "pending" None
       Sample.env0 st1).2 in
  orders_keyed (Sample.st_order Order.pending)
  ∧ cancel st1 = (InvalidTransition, st1)
  ∧ res_status (cancel st2).1 = 200
  ∧ Product.quantity <$> products (cancel st2).2 !! Sample.shirt_id = Some 7.
Proof.
  intros cancel st1 st2.
  pose proof (cancel_twice_rejected Sample.alice Sample.order_id None
                Sample.env0 (Sample.st_order Order.pending) None Sample.env0
                (st_order_keyed Order.pending) eq_refl) as [H1 H2].
  split; [exact (st_order_keyed Order.pending)|]. split; [exact H1|].
  split; [exact (proj1 (proj2 (proj2 (proj2 H2))))|].
  exact (proj2 (proj2 (proj2 (proj2 H2)))).
Defined.

(** ** Reserving and releasing inventory *)

(** X17. The restore loop of cancellation undoes the inventory loop of
    checkout on the counters: releasing the order lines made from the
    lines of a cart, after reserving those lines, leaves the carts and
    the orders as they were, stores the same products, and gives every
    product the [inventory.quantity] and the [sales.totalSold] it had, as
    well as its name, price, status and inventory flags, for every cart
    and every catalogue (products that are not stored are skipped by both
    loops). *)
Theorem release_undoes_reserve items st :
  let st' := Db.release (map OrderRoutes.orderItem items) (Db.reserve items st) in
  carts st' = carts st
  ∧ orders st' = orders st
  ∧ ∀ p,
      match products st !! p, products st' !! p with
      | Some x, Some x' =>
          Product.quantity x' = Product.quantity x
          ∧ Product.totalSold x' = Product.totalSold x
          ∧ Product.name x' = Product.name x
          ∧ Product.price x' = Product.price x
          ∧ Product.status x' = Product.status x
          ∧ Product.trackInventory x' = Product.trackInventory x
          ∧ Product.allowBackorder x' = Product.allowBackorder x
      | None, None => True
      | _, _ => False
      end.
Proof.
  intros st'. subst st'.
  pose proof (release_carts (map OrderRoutes.orderItem items)
                (Db.reserve items st)) as [Hc Ho].
  rewrite (proj1 (reserve_carts items st)) in Hc.
  rewrite (proj2 (reserve_carts items st)) in Ho.
  split; [done|]. split; [done|]. intros p.
  rewrite release_lookup, reserve_lookup.
  destruct (products st !! p) as [x|]; simpl; [|done].
  split_and!; try done; lia.
Qed.

(** ** The status route knows no transition rule *)

(** X18. [PUT /api/orders/:id/status] moves a stored, valid order from
    any status to any status of the enumeration, also out of cancelled,
    delivered or refunded, and never touches a product.  A status outside
    the enumeration is answered 400 and an unknown order 404, without a
    change. *)
Theorem put_status_any_transition u id status note env st :
  let r := OrderRoutes.put_status u id status note env st in
  products r.2 = products st
  ∧ (Order.Status_of_string status = None → r = (ValidationFailed, st))
  ∧ (∀ s, Order.Status_of_string status = Some s →
          match orders st !! id with
          | None => r = (not_found "Order not found", st)
          | Some o =>
              Order._id o = id → Order.validate o = true →
              r.1 = ok "Order status updated successfully"
              ∧ Order.status <$> orders r.2 !! id = Some s
          end).
Proof.
  intros r. subst r. split_and!.
  - apply put_status_products.
  - intros Hs. unfold OrderRoutes.put_status. by rewrite Hs.
  - intros s Hs. unfold OrderRoutes.put_status. rewrite Hs.
    destruct (orders st !! id) as [o|] eqn:Ho; [|done].
    intros Hid Hv. rewrite status_update_save by done.
    pose proof (status_update_saved (N.of_nat (size (orders st))) (now env) s
                  (Js.trim <$> note) (Some u) o) as (_ & _ & _ & Hst & _).
    simpl in Hst. simpl. split; [done|].
    destruct (bool_decide (s = Order.cancelled) && _); simpl;
      rewrite ?(proj2 (release_carts _ _)); simpl;
      rewrite Hid, lookup_insert_eq; simpl; by rewrite Hst.
Qed.

Lemma put_status_any_transition_witness :
  let r :=
    OrderRoutes.put_status Sample.admin Sample.order_id "pending" None
      Sample.env0 (Sample.st_order Order.cancelled) in
  r.1 = ok "Order status updated successfully"
  ∧ Order.status <$> orders r.2 !! Sample.order_id = Some Order.pending.
Proof.
  pose proof (proj2 (proj2 (put_status_any_transition Sample.admin
                              Sample.order_id "pending" None Sample.env0
                              (Sample.st_order Order.cancelled)))
                Order.pending eq_refl) as H.
  assert (orders (Sample.st_order Order.cancelled) !! Sample.order_id
          = Some (Sample.order_in Order.cancelled)) as Ho by reflexivity.
  rewrite Ho in H. apply H; [reflexivity|]. vm_compute. reflexivity.
Defined.

(** ** Expired carts *)

(** X19. [cleanExpiredCarts] deletes exactly the carts whose [expiresAt]
    lies before the clock reading and reports their number; every other
    cart, and every product and order, is left as it is.  Running it
    again at the same time deletes nothing, and a cart created at [t] is
    kept by every run up to 30 days after [t]. *)
Theorem cleanExpiredCarts_exact now st :
  let r := cleanExpiredCarts now st in
  (∀ u,
     carts r.2 !! u
     = match carts st !! u with
       | Some c => if bool_decide (Cart.expiresAt c < now) then None else Some c
       | None => None
       end)
  ∧ products r.2 = products st ∧ orders r.2 = orders st
  ∧ (r.1 + size (carts r.2) = size (carts st))%nat
  ∧ cleanExpiredCarts now r.2 = (0%nat, r.2)
  ∧ (∀ u t, carts st !! u = Some (Cart.new u t) → now ≤ t + 2592000000 →
            carts r.2 !! u = Some (Cart.new u t)).
Proof.
  intros r. subst r. unfold cleanExpiredCarts. simpl.
  assert (∀ u,
            filter (fun kv => ¬ (Cart.expiresAt kv.2 < now)) (carts st) !! u
            = match carts st !! u with
              | Some c =>
                  if bool_decide (Cart.expiresAt c < now) then None else Some c
              | None => None
              end) as Hlookup.
  { intros u. rewrite map_lookup_filter.
    destruct (carts st !! u) as [c|]; simpl; [|done].
    case_bool_decide; by simplify_option_eq. }
  pose proof (map_subseteq_size _ _
                (map_filter_subseteq (fun kv => ¬ (Cart.expiresAt kv.2 < now))
                   (carts st))) as Hsize.
  split_and!; try done.
  - lia.
  - rewrite map_filter_filter_l by done.
    by rewrite Nat.sub_diag.
  - intros u t Hu Ht. rewrite Hlookup, Hu. simpl.
    rewrite bool_decide_eq_false_2; [done|]. lia.
Qed.

(** ** What the requests leave of a cart *)

Lemma frame_refl c : frame c c.
Proof. exists (Cart.items c), (Cart.coupon c). by destruct c. Qed.

Lemma frame_set_items l c : frame c (Cart.set_items l c).
Proof. by exists l, (Cart.coupon c). Qed.

Lemma frame_set_coupon k c : frame c (Cart.set_coupon k c).
Proof. exists (Cart.items c), k. by destruct c. Qed.

Lemma frame_lines c c' : (∃ l, c' = Cart.set_items l c) → frame c c'.
Proof. intros [l ->]. apply frame_set_items. Qed.

Lemma frame_user c c' : frame c c' → Cart.user c' = Cart.user c.
Proof. by intros (l & k & ->). Qed.

Lemma respond_frame u c (m : Result Cart.t) st a b :
  carts st !! u = Some c → Cart_inv u c → (∀ c', m = Ok c' → frame c c') →
  ∃ c'', carts (CartRoutes.respond (c' ← m; Db.save_cart c' st) a b st).2 !! u
         = Some c''
         ∧ frame c c''
         ∧ ∀ u0 c0, u0 ≠ u → carts st !! u0 = Some c0 →
                    carts (CartRoutes.respond (c' ← m; Db.save_cart c' st) a b st).2
                      !! u0
                    = Some c0.
Proof.
  intros Hc Hinv Hframe. destruct m as [c'|e]; simpl.
  - specialize (Hframe c' eq_refl). unfold Db.save_cart.
    destruct (Cart.validate c'); simpl.
    + rewrite (frame_user c c' Hframe), (inv_user _ _ Hinv).
      exists c'. rewrite lookup_insert_eq. split; [done|]. split; [done|].
      intros u0 c0 Hne Hc0. by rewrite lookup_insert_ne.
    + exists c. split; [done|]. split; [apply frame_refl|]. done.
  - exists c. split; [done|]. split; [apply frame_refl|]. done.
Qed.

Lemma cart_route_frame (method : State → Cart.t → Result Cart.t) r now st a b u c :
  State_inv st → carts st !! u = Some c →
  (∀ st0 c0 c1, method st0 c0 = Ok c1 → frame c0 c1) →
  let res :=
    CartRoutes.respond
      (c' ← method (Db.getOrCreateCart r now st).2 (Db.getOrCreateCart r now st).1;
       Db.save_cart c' (Db.getOrCreateCart r now st).2)
      a b (Db.getOrCreateCart r now st).2 in
  ∃ c', carts res.2 !! u = Some c' ∧ frame c c' ∧ (u ≠ r → c' = c).
Proof.
  intros Hinv Hc Hmethod res. subst res.
  destruct (Db.getOrCreateCart r now st) as [cr st1] eqn:Hget.
  destruct (getOrCreateCart_cases r now st cr st1 Hget Hinv) as (Hinv1 & Hcr & Hst1).
  simpl.
  destruct (respond_frame r cr (method st1 cr) st1 a b Hst1 Hcr (Hmethod st1 cr))
    as (c'' & Hc'' & Hframe & Hothers).
  destruct (decide (u = r)) as [->|Hne].
  - rewrite (getOrCreateCart_stored r now st c Hc) in Hget.
    injection Hget as <- <-. exists c''. by split_and!.
  - exists c. split; [|split; [apply frame_refl|done]].
    apply Hothers; [done|].
    pose proof (getOrCreateCart_creates_lookup r now st u Hne) as Hsame.
    rewrite Hget in Hsame. simpl in Hsame. by rewrite Hsame.
Qed.

Lemma getOrCreateCart_keeps r now st u c :
  carts st !! u = Some c → carts (Db.getOrCreateCart r now st).2 !! u = Some c.
Proof.
  intros Hc. destruct (decide (u = r)) as [->|Hne].
  - by rewrite (getOrCreateCart_stored r now st c Hc).
  - by rewrite getOrCreateCart_creates_lookup.
Qed.

Lemma handle_frame req env st u c :
  State_inv st → carts st !! u = Some c →
  ∃ c', carts (handle req env st).2 !! u = Some c'
        ∧ frame c c' ∧ (u ≠ requester req → c' = c).
Proof.
  intros Hinv Hc.
  assert (∀ r, ∃ c', carts (Db.getOrCreateCart r (now env) st).2 !! u = Some c'
                     ∧ frame c c' ∧ (u ≠ r → c' = c)) as Hkeep.
  { intros r. exists c. split; [by apply getOrCreateCart_keeps|].
    split; [apply frame_refl|done]. }
  assert (∃ c', carts st !! u = Some c' ∧ frame c c'
                ∧ (u ≠ requester req → c' = c)) as Hsame.
  { exists c. split; [done|]. split; [apply frame_refl|done]. }
  destruct req; simpl in *.
  - unfold CartRoutes.get. specialize (Hkeep userId).
    by destruct (Db.getOrCreateCart _ _ _).
  - unfold CartRoutes.post_items. destruct (negb _); [done|].
    destruct (products st !! productId) as [p|]; [|done].
    destruct (negb _); [done|]. destruct (negb _); [done|].
    pose proof (cart_route_frame
                  (fun st1 =>
                     Cart.addItem (products st1) productId variant quantity
                       (Product.price p) (now env) (fresh env) (fresh_option env))
                  userId (now env) st "Item added to cart successfully"
                  "Server error adding item to cart" u c Hinv Hc) as H.
    destruct (Db.getOrCreateCart _ _ _). apply H.
    intros st0 c0 c1 Hadd. by eapply frame_lines, addItem_lines.
  - unfold CartRoutes.put_item. destruct (negb _); [done|].
    specialize (Hkeep userId).
    destruct (Db.getOrCreateCart _ _ _) as [cr st1] eqn:Hget.
    destruct (Cart.items_id itemId cr) as [item|]; [|done].
    pose proof (cart_route_frame
                  (fun st1 =>
                     Cart.updateItemQuantity (products st1)
                       (Cart.product_of (products st1) item)
                       (Held (Cart.Item.variant item)) quantity)
                  userId (now env) st "Cart item updated successfully"
                  "Server error updating cart item" u c Hinv Hc) as H.
    rewrite Hget in H. simpl in H.
    assert (∀ (st0 : State) c0 c1,
              Cart.updateItemQuantity (products st0)
                (Cart.product_of (products st0) item)
                (Held (Cart.Item.variant item)) quantity c0 = Ok c1 →
              frame c0 c1) as Hframe
      by (intros st0 c0 c1 Hupd; by eapply frame_lines, updateItemQuantity_lines).
    specialize (H Hframe).
    case_bool_decide; [|done].
    destruct (products st1 !! _) as [p|]; [|done].
    by destruct (negb _).
  - unfold CartRoutes.delete_item. specialize (Hkeep userId).
    destruct (Db.getOrCreateCart _ _ _) as [cr st1] eqn:Hget.
    destruct (Cart.items_id itemId cr) as [item|]; [|done].
    pose proof (cart_route_frame
                  (fun st1 =>
                     Cart.removeItem (products st1)
                       (Cart.product_of (products st1) item)
                       (Held (Cart.Item.variant item)))
                  userId (now env) st "Item removed from cart successfully"
                  "Server error removing cart item" u c Hinv Hc) as H.
    rewrite Hget in H. apply H.
    intros st0 c0 c1 Hrem. by eapply frame_lines, removeItem_lines.
  - unfold CartRoutes.delete.
    pose proof (cart_route_frame (fun _ c0 => Ok (Cart.clear c0))
                  userId (now env) st "Cart cleared successfully"
                  "Server error clearing cart" u c Hinv Hc) as H.
    destruct (Db.getOrCreateCart _ _ _). apply H.
    intros _ c0 c1 [= <-]. by exists [], Cart.Coupon.empty.
  - unfold CartRoutes.post_coupon. destruct (negb _); [done|].
    destruct (CartRoutes.validCoupons _) as [rule|]; [|done].
    specialize (Hkeep userId).
    pose proof (cart_route_frame
                  (fun _ c0 =>
                     Ok (Cart.applyCoupon (Js.toUpperCase (Js.trim code))
                           (CartRoutes.discount rule) (CartRoutes.type rule)
                           (now env + 24 * 60 * 60 * 1000)
                           (now env + Z.of_N (elapsed env)) c0))
                  userId (now env) st "Coupon applied successfully"
                  "Server error applying coupon" u c Hinv Hc) as H.
    destruct (Db.getOrCreateCart _ _ _) as [cr st1].
    case_bool_decide; [done|]. apply H.
    intros _ c0 c1 [= <-]. apply frame_set_coupon.
  - unfold CartRoutes.delete_coupon.
    pose proof (cart_route_frame (fun _ c0 => Ok (Cart.removeCoupon c0))
                  userId (now env) st "Coupon removed successfully"
                  "Server error removing coupon" u c Hinv Hc) as H.
    destruct (Db.getOrCreateCart _ _ _). apply H.
    intros _ c0 c1 [= <-]. apply frame_set_coupon.
  - destruct (post_cases userId body env st) as [-> | ->]; [done|].
    apply Hkeep.
  - by rewrite put_status_carts.
  - by rewrite put_cancel_carts.
Qed.

(** X20. No request deletes a cart, and a request changes at most the
    cart of the user who sends it, and of that cart only the lines and the
    coupon: the owner, the shipping method and cost, the tax and the expiry
    date stay as they were stored, so using a cart never postpones its
    expiry. *)
Theorem requests_keep_cart_frame req env st u c :
  reachable st → carts st !! u = Some c →
  ∃ c', carts (handle req env st).2 !! u = Some c'
        ∧ Cart.user c' = Cart.user c
        ∧ Cart.shippingMethod c' = Cart.shippingMethod c
        ∧ Cart.shippingCost c' = Cart.shippingCost c
        ∧ Cart.tax_amount c' = Cart.tax_amount c
        ∧ Cart.tax_rate c' = Cart.tax_rate c
        ∧ Cart.expiresAt c' = Cart.expiresAt c
        ∧ (u ≠ requester req → c' = c).
Proof.
  intros Hreach Hc.
  destruct (handle_frame req env st u c (reachable_inv st Hreach) Hc)
    as (c' & Hc' & (l & k & ->) & Hother).
  eexists. split; [exact Hc'|]. by split_and!.
Qed.

Lemma requests_keep_cart_frame_witness :
  ∃ c',
    reachable Scenario.st_coupon
    ∧ carts Scenario.st_coupon !! Sample.alice = Some Scenario.cart_coupon
    ∧ carts (handle (DeleteCart Sample.alice) Sample.env0 Scenario.st_coupon).2
        !! Sample.alice = Some c'
    ∧ Cart.expiresAt c' = Cart.expiresAt Scenario.cart_coupon.
Proof.
  destruct (requests_keep_cart_frame (DeleteCart Sample.alice) Sample.env0
              Scenario.st_coupon Sample.alice Scenario.cart_coupon
              st_coupon_reachable st_coupon_cart)
    as (c' & Hc' & _ & _ & _ & _ & _ & He & _).
  exists c'. split; [exact st_coupon_reachable|].
  split; [exact st_coupon_cart|]. split; [exact Hc'|exact He].
Defined.

(** ** The totals of an order *)

Lemma fold_left_Qc_sum {A} (g : A → Qc) (l : list A) a :
  fold_left (fun sum x => (sum + g x)%Qc) l a = (a + Spec.sum (map g l))%Qc.
Proof.
  revert a. induction l as [|x l IH]; intros a; simpl.
  - ring.
  - rewrite IH. ring.
Qed.

Lemma orderData_subtotal u body cart id :
  fold_left (fun sum item => (sum + Order.Item.total item)%Qc)
    (Order.items (OrderRoutes.orderData u body cart id)) 0%Qc
  = Cart.subtotal cart.
Proof.
  rewrite (fold_left_Qc_sum Order.Item.total). rewrite subtotal_sum.
  unfold Spec.subtotal. simpl. rewrite map_map. simpl. ring.
Qed.

(** X21. The order data checkout builds from a cart is consistent with
    the model's own [calculateTotals]: recomputing the totals of that
    document changes nothing and returns the total it already has.  Each
    line total is price × quantity, and the payment amount is the order
    total.  [calculateTotals] writes the subtotal and the total only, and
    calling it twice is calling it once. *)
Theorem calculateTotals_agrees_with_checkout u body cart id :
  let od := OrderRoutes.orderData u body cart id in
  Order_calculateTotals od = (Order.total od, od)
  ∧ Order.payment_amount od = Order.total od
  ∧ (∀ line, line ∈ Order.items od →
             Order.Item.total line
             = (Order.Item.price line * Qc_of_Z (Order.Item.quantity line))%Qc)
  ∧ (∀ o, Order_calculateTotals (Order_calculateTotals o).2
          = Order_calculateTotals o
          ∧ Order.items (Order_calculateTotals o).2 = Order.items o
          ∧ Order.status (Order_calculateTotals o).2 = Order.status o
          ∧ Order.timeline (Order_calculateTotals o).2 = Order.timeline o).
Proof.
  intros od. split_and!.
  - subst od. unfold Order_calculateTotals. rewrite orderData_subtotal.
    unfold OrderRoutes.orderData. simpl.
    destruct (Js.truthy (Cart.Coupon.code (Cart.coupon cart))); simpl;
      repeat f_equal; ring.
  - done.
  - intros line Hin. subst od. simpl in Hin.
    apply list_elem_of_fmap in Hin as (item & -> & _). done.
  - intros o. by split_and!.
Qed.

(** X22. For a cart stored in a state the server can reach, the order
    data checkout builds carries the totals the cart shows: its subtotal
    is the cart's subtotal, its total is the cart's total, its discount
    code is the cart's coupon code and its discount amount is the amount
    the cart total subtracts. *)
Theorem checkout_totals_are_cart_totals st u c body id :
  reachable st → carts st !! u = Some c →
  let od := OrderRoutes.orderData u body c id in
  Order.subtotal od = Cart.subtotal c
  ∧ Order.total od = Cart.total c
  ∧ Order.discount_code od = Cart.Coupon.code (Cart.coupon c)
  ∧ Order.discount_amount od = Spec.discountAmount c
  ∧ Order.customer od = u
  ∧ map Order.Item.quantity (Order.items od)
    = map Cart.Item.quantity (Cart.items c).
Proof.
  intros Hreach Hc od.
  pose proof (reachable_shipping_default st Hreach u c Hc) as Hship.
  pose proof (inv_coupon _ _ (reachable_inv st Hreach u c Hc)) as Hwf.
  assert (Js.truthy (Cart.Coupon.code (Cart.coupon c))
          = bool_decide (is_Some (Cart.Coupon.code (Cart.coupon c)))) as Htruthy.
  { destruct (reachable_coupon_of_table st Hreach u c Hc)
      as [Hnone|(key & rule & appliedAt & expiresAt & Hrule & Hcoupon & _)].
    - by rewrite Hnone.
    - rewrite Hcoupon. simpl.
      by destruct (validCoupons_keys key rule Hrule) as [[-> _]|[[-> _]|[-> _]]]. }
  assert (Order.discount_amount od = Spec.discountAmount c) as Hamount.
  { subst od. unfold OrderRoutes.orderData, Spec.discountAmount, Spec.discountValue.
    simpl. rewrite Htruthy, subtotal_sum.
    destruct (Cart.Coupon.code (Cart.coupon c)) as [code|]; simpl; [|done].
    destruct (Cart.Coupon.type (Cart.coupon c)) as [[]|]; by case_bool_decide. }
  split_and!; try done.
  - rewrite (total_of_table c Hwf Hship), <-Hamount.
    destruct Hship as (_ & Hs & Ht & _).
    subst od. unfold OrderRoutes.orderData. simpl. rewrite Htruthy, Hs, Ht.
    destruct (Cart.Coupon.code (Cart.coupon c)) as [code|]; simpl; ring.
  - subst od. unfold OrderRoutes.orderData. simpl. rewrite Htruthy.
    by destruct (Cart.Coupon.code (Cart.coupon c)).
  - subst od. simpl. by rewrite map_map.
Qed.

Lemma checkout_totals_are_cart_totals_witness :
  reachable Scenario.st_coupon
  ∧ carts Scenario.st_coupon !! Sample.alice = Some Scenario.cart_coupon
  ∧ Order.total
      (OrderRoutes.orderData Sample.alice Sample.body Scenario.cart_coupon 200%N)
    = Cart.total Scenario.cart_coupon.
Proof.
  split; [exact st_coupon_reachable|]. split; [exact st_coupon_cart|].
  exact (proj1 (proj2 (checkout_totals_are_cart_totals _ _ _ Sample.body 200%N
                         st_coupon_reachable st_coupon_cart))).
Defined.

(** ** Order statistics *)

(** X23. The statistics of [getStats] cover every matched order, whatever
    its status: the number of orders is the number of matched documents,
    the revenue is the sum of their totals, added up in their order
    (cancelled and refunded orders included), the average order value is the revenue divided by the number
    of orders, and the list by status has one entry per order.  Without a
    matched order the route answers with zeros and an empty list.  The date range applies only when both dates
    are given; with one date alone every order is counted. *)
Theorem getStats_summary startDate endDate coll :
  let docs := Stats.matched startDate endDate coll in
  let g := Stats.admin_stats startDate endDate coll in
  Stats.totalOrders g = Z.of_nat (List.length docs)
  ∧ Stats.totalRevenue g
    = fold_left (fun acc d => (acc + Order.total (Stats.doc d))%Qc) docs 0%Qc
  ∧ Stats.ordersByStatus g
    = map (fun d => (Order.status (Stats.doc d), Order.total (Stats.doc d))) docs
  ∧ (docs ≠ [] →
     Stats.averageOrderValue g
     = (Stats.totalRevenue g / Qc_of_Z (Stats.totalOrders g))%Qc)
  ∧ (docs = [] → g = Stats.mkGroup 0 0%Qc 0%Qc []
                 ∧ Stats.getStats startDate endDate coll = [])
  ∧ (startDate = None ∨ endDate = None → docs = coll)
  ∧ (∀ s e, startDate = Some s → endDate = Some e →
            ∀ d, d ∈ docs ↔ d ∈ coll ∧ s ≤ Stats.createdAt d ≤ e).
Proof.
  intros docs g. subst g. unfold Stats.admin_stats, Stats.getStats. fold docs.
  split_and!.
  - by destruct docs.
  - by destruct docs.
  - by destruct docs.
  - destruct docs as [|d docs']; [done|]. intros _. reflexivity.
  - intros ->. done.
  - intros [-> | ->]; subst docs; unfold Stats.matched; [done|].
    by destruct startDate.
  - intros s e -> -> d. subst docs. unfold Stats.matched.
    rewrite list_elem_of_In, filter_In, <-list_elem_of_In.
    rewrite andb_true_iff, !bool_decide_eq_true. tauto.
Qed.

(** ** Pagination of the product listing *)






(** ** Stock of a product *)

(** X25. The three views of a product's stock agree.  [availability] is
    in-stock, backorder or out-of-stock; the [inStock=true] filter of the
    listing keeps exactly the products whose availability is in-stock; an
    out-of-stock product can supply no positive quantity, a product on
    backorder or without inventory tracking can supply any quantity, and
    a product that can supply a quantity can supply every smaller one. *)
Theorem stock_views_agree p :
  Product_availability p ∈ ["in-stock"; "backorder"; "out-of-stock"]
  ∧ (listing_inStock p = true ↔ Product_availability p = "in-stock")
  ∧ (Product_availability p = "out-of-stock" →
     ∀ q, 0 < q → Product.isInStock q p = false)
  ∧ (Product_availability p = "backorder" ∨ Product.trackInventory p = false →
     ∀ q, Product.isInStock q p = true)
  ∧ (∀ q q', q' ≤ q → Product.isInStock q p = true →
             Product.isInStock q' p = true).
Proof.
  unfold Product_availability, listing_inStock, Product.isInStock.
  destruct (Product.trackInventory p), (Product.allowBackorder p); simpl;
    (split; [|split; [|split; [|split]]]).
  all: try (case_bool_decide; rewrite !elem_of_cons; by auto).
  all: try (rewrite !elem_of_cons; by auto).
  all: try (intros q q' Hle; repeat case_bool_decide; (done || lia)).
  all: try (intros H q; by repeat case_bool_decide).
  all: try (intros [H|H] q; by repeat case_bool_decide).
  all: try (intros H q Hq; repeat case_bool_decide; (done || lia)).
  all: try (split; intros H; by repeat case_bool_decide).
Qed.

(** X26. [updateInventory] never leaves a negative quantity after a
    subtraction: it stops at 0, while the sales counters grow by the full
    quantity.  It leaves a product without inventory tracking and an
    unknown operation alone, and subtracting what was just added gives
    the quantity back when that quantity was not negative.  On a tracked
    product a subtraction is the [$inc] update that checkout sends for a
    line (stock down, sales up) exactly when the stock covers the
    quantity: the [$inc] has no floor. *)
Theorem updateInventory_floor q p :
  (Product.trackInventory p = true →
   let p' := Product.updateInventory q "subtract" p in
   Product.quantity p' = Z.max 0 (Product.quantity p - q)
   ∧ 0 ≤ Product.quantity p'
   ∧ Product.totalSold p' = Product.totalSold p + q
   ∧ Product.totalRevenue p'
     = (Product.totalRevenue p + Product.price p * Qc_of_Z q)%Qc)
  ∧ (Product.trackInventory p = false →
     ∀ op, Product.updateInventory q op p = p)
  ∧ (∀ op, op ≠ "subtract" → op ≠ "add" → Product.updateInventory q op p = p)
  ∧ (0 ≤ Product.quantity p →
     Product.quantity
       (Product.updateInventory q "subtract" (Product.updateInventory q "add" p))
     = Product.quantity p)
  ∧ (Product.trackInventory p = true →
     Product.updateInventory q "subtract" p
     = Product.inc (- q) q (Product.price p * Qc_of_Z q) p
     ↔ q ≤ Product.quantity p).
Proof.
  unfold Product.updateInventory. split_and!.
  - intros ->. simpl. split; [done|]. split; [lia|done].
  - by intros ->.
  - intros op H1 H2. destruct (negb _); [done|].
    by rewrite !bool_decide_eq_false_2.
  - intros Hq. destruct (Product.trackInventory p) eqn:Ht; simpl;
      rewrite ?Ht; simpl; [lia|done].
  - intros Ht. unfold Product.inc. rewrite Ht. cbn [negb].
    rewrite bool_decide_eq_true_2 by done. split.
    + intros H. apply (f_equal Product.quantity) in H.
      cbn [Product.quantity] in H. lia.
    + intros Hq. f_equal. lia.
Qed.

(** ** Category slugs *)

Lemma hyphen_not_alnum : Category.is_alnum Category.hyphen = false.
Proof. reflexivity. Qed.

Lemma alnum_not_hyphen c : Category.is_alnum c = true → c ≠ Category.hyphen.
Proof. intros Hc ->. by rewrite hyphen_not_alnum in Hc. Qed.

Lemma strip_end_cons c t :
  Category.strip_end (String c t)
  = match t with
    | EmptyString =>
        if bool_decide (c = Category.hyphen) then EmptyString else String c t
    | _ => String c (Category.strip_end t)
    end.
Proof. by destruct t. Qed.

Lemma replace_runs_true_head s :
  match Category.replace_runs true s with
  | EmptyString => True
  | String c _ => Category.is_alnum c = true
  end.
Proof.
  induction s as [|c s IH]; simpl; [done|].
  by destruct (Category.is_alnum c) eqn:Hc.
Qed.

Lemma replace_runs_slug s :
  slug_tail false (Category.strip_end (Category.replace_runs false s)) = true
  ∧ (Category.replace_runs true s = EmptyString
     ∨ slug_tail true (Category.strip_end (Category.replace_runs true s)) = true).
Proof.
  induction s as [|c s [IH1 IH2]]; [by split; [|left]|].
  cbn [Category.replace_runs].
  destruct (Category.is_alnum c) eqn:Hc.
  - assert (∀ b, slug_tail b
                   (Category.strip_end (String c (Category.replace_runs false s)))
                 = true) as H.
    { intros b. rewrite strip_end_cons.
      destruct (Category.replace_runs false s) as [|c' t] eqn:Ht.
      - rewrite bool_decide_eq_false_2 by by apply alnum_not_hyphen.
        simpl. by rewrite Hc.
      - cbn [slug_tail]. by rewrite Hc. }
    split; [apply H|right; apply H].
  - split; [|done].
    rewrite strip_end_cons.
    destruct (Category.replace_runs true s) as [|c' t] eqn:Ht.
    + by rewrite bool_decide_eq_true_2.
    + destruct IH2 as [?|IH2]; [done|].
      cbn [slug_tail]. rewrite hyphen_not_alnum.
      by rewrite bool_decide_eq_true_2, IH2.
Qed.

Lemma slug_tail_is_slug s : slug_tail true s = true → is_slug s = true.
Proof. by destruct s. Qed.

Lemma replace_runs_is_slug s :
  is_slug (Category.strip_ends (Category.replace_runs false s)) = true.
Proof.
  destruct s as [|c s]; [done|].
  pose proof (replace_runs_slug (String c s)) as [H1 _].
  pose proof (replace_runs_slug s) as [_ H2].
  cbn [Category.replace_runs] in *. unfold Category.strip_ends.
  destruct (Category.is_alnum c) eqn:Hc.
  - rewrite bool_decide_eq_false_2 by by apply alnum_not_hyphen.
    apply slug_tail_is_slug. rewrite strip_end_cons in *.
    destruct (Category.replace_runs false s) as [|c' t].
    + rewrite bool_decide_eq_false_2 in * by by apply alnum_not_hyphen.
      simpl. by rewrite Hc.
    + cbn [slug_tail] in *. by rewrite Hc in *.
  - rewrite bool_decide_eq_true_2 by done.
    destruct H2 as [->|H2]; [done|]. by apply slug_tail_is_slug.
Qed.

Lemma alnum_lower c : Category.is_alnum c = true → Category.lower_ascii c = c.
Proof.
  unfold Category.is_alnum, Category.lower_ascii. intros H.
  destruct (65 <=? nat_of_ascii c)%nat eqn:H1; [|done].
  destruct (nat_of_ascii c <=? 90)%nat eqn:H2; [|done].
  apply Nat.leb_le in H1, H2.
  apply orb_true_iff in H as [H|H]; apply andb_true_iff in H as [H3 H4];
    apply Nat.leb_le in H3, H4; lia.
Qed.

Lemma slug_tail_chars b s :
  slug_tail b s = true →
  Category.toLowerCase s = s ∧ Category.replace_runs b s = s
  ∧ Category.strip_end s = s.
Proof.
  revert b. induction s as [|c s IH]; intros b; [done|].
  cbn [slug_tail Category.toLowerCase Category.replace_runs].
  rewrite strip_end_cons.
  destruct (Category.is_alnum c) eqn:Hc.
  - intros H. destruct (IH false H) as (-> & -> & ->).
    rewrite (alnum_lower c Hc).
    rewrite (bool_decide_eq_false_2 (c = Category.hyphen))
      by by apply alnum_not_hyphen.
    by destruct s.
  - intros H. apply andb_true_iff in H as [H Hs].
    apply andb_true_iff in H as [Hh Hb]. apply bool_decide_eq_true in Hh as ->.
    destruct b; [done|]. destruct (IH true Hs) as (-> & -> & ->).
    split; [done|]. split; [done|]. by destruct s.
Qed.

(** X27. The slug [generateSlug] makes of a name consists of groups of
    lower-case letters and digits separated by single hyphens: no other
    character, no hyphen at either end, no two hyphens in a row (a name
    without a letter or digit gives the empty slug).  A name that has
    this shape is its own slug, so generating a slug from a slug changes
    nothing. *)
Theorem generateSlug_normal_form c :
  is_slug (Category.generateSlug c) = true
  ∧ (is_slug (Category.name c) = true →
     Category.generateSlug c = Category.name c)
  ∧ (∀ s p,
       Category.generateSlug (Category.mk (Category.generateSlug c) s p)
       = Category.generateSlug c).
Proof.
  assert (∀ c, is_slug (Category.generateSlug c) = true) as Hslug
    by (intros c0; apply replace_runs_is_slug).
  assert (∀ c, is_slug (Category.name c) = true →
               Category.generateSlug c = Category.name c) as Hfix.
  { intros c0 Hname. unfold Category.generateSlug.
    destruct (Category.name c0) as [|a s] eqn:Hn; [done|].
    change (slug_tail true (String a s) = true) in Hname.
    destruct (slug_tail_chars true (String a s) Hname) as (-> & Hr & Hs).
    destruct (Category.is_alnum a) eqn:Ha.
    - cbn [Category.replace_runs] in *. rewrite Ha in *.
      injection Hr as Hr. rewrite Hr. unfold Category.strip_ends.
      by rewrite bool_decide_eq_false_2 by by apply alnum_not_hyphen.
    - cbn [slug_tail] in Hname. rewrite Ha in Hname.
      by rewrite andb_false_r in Hname. }
  split; [apply Hslug|]. split; [apply Hfix|].
  intros s p. apply (Hfix (Category.mk (Category.generateSlug c) s p)).
  apply Hslug.
Qed.

Example generateSlug_sample :
  Category.generateSlug (Category.mk "  Home & Garden (NEW!) " "" None)
  = "home-garden-new"
  ∧ Category.generateSlug (Category.mk "C++" "" None) = "c"
  ∧ Category.generateSlug (Category.mk "???" "" None) = "".
Proof. by split_and!. Qed.

(** ** Breadcrumbs *)

Lemma breadcrumb_loop_chain cats id path :
  Category.chain cats id path →
  ∀ fuel acc, (List.length path < fuel)%nat →
    Category.breadcrumb_loop fuel cats (Some id) acc = Some (path ++ acc).
Proof.
  induction 1 as [id c Hc Hroot|id c pid path Hc Hparent Hchain IH];
    intros fuel acc Hfuel.
  - destruct fuel as [|[|fuel]]; simpl in Hfuel; [lia..|].
    simpl. rewrite Hc. simpl. by rewrite Hroot.
  - rewrite length_app in Hfuel. simpl in Hfuel.
    destruct fuel as [|fuel]; [lia|].
    simpl. rewrite Hc. simpl. rewrite Hparent, IH by lia.
    by rewrite <-app_assoc.
Qed.

(** X28. For a category whose ancestors end in a category without a
    stored parent, [getBreadcrumb] returns the path from that root down to
    the category itself, one entry (id, name, slug) per category, after
    one lookup more than the path is long.  For an id that names no
    category it returns the empty list. *)
Theorem getBreadcrumb_path cats id path :
  Category.chain cats id path →
  (∀ fuel, (List.length path < fuel)%nat →
           Category.getBreadcrumb fuel cats id = Some path)
  ∧ (∃ c, cats !! id = Some c
          ∧ last path = Some (Category.mkCrumb id (Category.name c) (Category.slug c)))
  ∧ (∀ id', cats !! id' = None →
            ∀ fuel, Category.getBreadcrumb (S fuel) cats id' = Some []).
Proof.
  intros Hchain. split_and!.
  - intros fuel Hfuel. unfold Category.getBreadcrumb.
    rewrite (breadcrumb_loop_chain cats id path Hchain) by done.
    by rewrite app_nil_r.
  - destruct Hchain as [id c Hc _|id c pid path Hc _ _]; exists c.
    + done.
    + by rewrite last_snoc.
  - intros id' Hid fuel. unfold Category.getBreadcrumb. simpl. by rewrite Hid.
Qed.

Lemma getBreadcrumb_path_witness :
  let cats : gmap ObjectId Category.t :=
    {[ 1%N := Category.mk "Home" "home" None;
       2%N := Category.mk "Garden" "garden" (Some 1%N) ]} in
  Category.getBreadcrumb 3 cats 2%N
  = Some [Category.mkCrumb 1%N "Home" "home";
          Category.mkCrumb 2%N "Garden" "garden"].
Proof.
  intros cats.
  assert (Category.chain cats 2%N
            ([Category.mkCrumb 1%N "Home" "home"]
             ++ [Category.mkCrumb 2%N "Garden" "garden"])) as Hchain.
  { apply (Category.chain_child cats 2%N (Category.mk "Garden" "garden" (Some 1%N))
             1%N); [reflexivity|reflexivity|].
    apply (Category.chain_root cats 1%N (Category.mk "Home" "home" None));
      reflexivity. }
  refine (proj1 (getBreadcrumb_path cats 2%N _ Hchain) 3%nat _).
  simpl. lia.
Defined.

(** X29. Nothing keeps the parent links of the categories from forming
    a cycle, and on one [getBreadcrumb] never returns: when every stored
    category has a stored parent, as on a cycle or for a category that is
    its own parent, the loop is still running after any number of
    lookups. *)
Theorem getBreadcrumb_cycle_diverges cats id :
  (∀ i c, cats !! i = Some c →
          ∃ pid, Category.parent c = Some pid ∧ is_Some (cats !! pid)) →
  is_Some (cats !! id) →
  ∀ fuel, Category.getBreadcrumb fuel cats id = None.
Proof.
  intros Hclosed Hid fuel. unfold Category.getBreadcrumb.
  generalize (@nil Category.Crumb). revert id Hid.
  induction fuel as [|fuel IH]; intros id [c Hc] acc; [done|].
  simpl. rewrite Hc. simpl.
  destruct (Hclosed id c Hc) as (pid & -> & Hpid). by apply IH.
Qed.

Lemma getBreadcrumb_cycle_diverges_witness :
  let cats : gmap ObjectId Category.t :=
    {[ 1%N := Category.mk "Home" "home" (Some 2%N);
       2%N := Category.mk "Garden" "garden" (Some 1%N) ]} in
  Category.getBreadcrumb 1000 cats 2%N = None.
Proof.
  intros cats. apply getBreadcrumb_cycle_diverges.
  - intros i c Hi. subst cats.
    apply lookup_insert_Some in Hi as [[<- <-]|[_ Hi]].
    + exists 2%N. split; [reflexivity|]. by eexists.
    + apply lookup_singleton_Some in Hi as [<- <-].
      exists 1%N. split; [reflexivity|]. by eexists.
  - by eexists.
Defined.
